(** * Universal terminal: the translation engine of [custard.c] and its
      two sibling variants, embedded and checked against the specification.

    The three C files share their helpers ([trim], [lc_copy], [split_first],
    [replace_first], the history store, [expand_bang], [translate_pipeline])
    and differ in [map_command] and in [main].  [custard.c] carries the full
    mapping table and is the reference; the two smaller variants live in
    [Module Cust] ([cust.c]) and [Module Gemini] (the third file).

    Conventions of the embedding
    - a C string is a [string] (its bytes up to the terminating NUL);
    - a C [int] is a [Z]; [int] flags are tested as C does (non-zero is true);
    - a fixed buffer of [n] bytes holds at most [n-1] characters: bounded
      writes ([snprintf], [strncat], [strncpy]) clip, which [clip] writes out;
    - a computation that the C standard leaves undefined (a write past the
      end of a buffer, a conversion that does not fit an [int], a format
      directive without argument) is [None];
    - allocation ([strdup]) is assumed to succeed. *)

From Stdlib Require Import ZArith List Bool Ascii String Lia DecimalString DecimalPos.
Import ListNotations.
Open Scope Z_scope.
Open Scope string_scope.

(** ** Constants of the source *)

Definition MAX_LINE : nat := Z.to_nat 8192.
Definition MAX_TOK : nat := Z.to_nat 256.
Definition MAX_HISTORY : nat := Z.to_nat 1000.
Definition INT_MAX : Z := 2147483647.
Definition INT_MIN : Z := -2147483648.

(** Characters that cannot be written inside a string literal. *)
Definition DQ : ascii := "034"%char.
Definition NL : ascii := "010"%char.
Definition dq : string := String DQ "".
Definition nl : string := String NL "".

(** ** <ctype.h> in the C locale *)

Definition isspace (c : ascii) : bool :=
  let n := N_of_ascii c in ((n =? 32) || ((9 <=? n) && (n <=? 13)))%N.

Definition isdigit (c : ascii) : bool :=
  let n := N_of_ascii c in ((48 <=? n) && (n <=? 57))%N.

Definition tolower (c : ascii) : ascii :=
  let n := N_of_ascii c in
  if ((65 <=? n) && (n <=? 90))%N then ascii_of_N (n + 32) else c.

(** ** <string.h> *)

(** What a buffer keeps of a bounded write of [s] when [n] characters fit. *)
Fixpoint clip (n : nat) (s : string) {struct s} : string :=
  match s, n with
  | String c s', S n' => String c (clip n' s')
  | _, _ => ""
  end.

Definition is_empty (s : string) : bool :=
  match s with "" => true | _ => false end.

(** [strncat(dst, src, cap - strlen(dst) - 1)] for a buffer of [cap] bytes. *)
Definition strncat_buf (cap : nat) (dst src : string) : string :=
  dst ++ clip (cap - String.length dst - 1) src.

(** [snprintf(buf, cap, ...)] once the directives are expanded to [text]. *)
Definition snprintf_buf (cap : nat) (text : string) : string :=
  clip (cap - 1) text.

(** [strncpy(dst, src, cap)] into a buffer of [cap] bytes that is read as a
    string afterwards: no terminator is written when [src] fills it. *)
Definition strncpy_buf (cap : nat) (src : string) : option string :=
  if (String.length src <? cap)%nat then Some src else None.

Fixpoint starts_with (p s : string) : bool :=
  match p, s with
  | "", _ => true
  | String a p', String b s' => Ascii.eqb a b && starts_with p' s'
  | _, _ => false
  end.

(** [strstr(s, needle)]: the offset of the first occurrence, if any. *)
Fixpoint strstr (s needle : string) : option nat :=
  if starts_with needle s then Some O
  else match s with
       | "" => None
       | String _ s' => option_map S (strstr s' needle)
       end.

Definition found (r : option nat) : bool :=
  match r with Some _ => true | None => false end.

Fixpoint skipn_str (n : nat) (s : string) {struct s} : string :=
  match s, n with
  | String _ s', S n' => skipn_str n' s'
  | _, _ => s
  end.

(** [strchr(s, c) != NULL] *)
Fixpoint strchr (s : string) (c : ascii) : bool :=
  match s with
  | "" => false
  | String a s' => Ascii.eqb a c || strchr s' c
  end.

(** [strrchr(s, c)]: the text after the last [c], if [c] occurs. *)
Fixpoint after_last (s : string) (c : ascii) : option string :=
  match s with
  | "" => None
  | String a s' =>
      match after_last s' c with
      | Some t => Some t
      | None => if Ascii.eqb a c then Some s' else None
      end
  end.

(** ** Helpers of the source *)

Fixpoint skip_spaces (s : string) : string :=
  match s with
  | String c s' => if isspace c then skip_spaces s' else s
  | "" => ""
  end.

Fixpoint strip_trailing (s : string) : string :=
  match s with
  | "" => ""
  | String c s' =>
      let r := strip_trailing s' in
      if isspace c && is_empty r then "" else String c r
  end.

(** [trim]: leading white space is skipped, trailing white space cut. *)
Definition trim (s : string) : string := strip_trailing (skip_spaces s).

(** [lc_copy] *)
Fixpoint lc_copy (s : string) : string :=
  match s with
  | "" => ""
  | String c s' => String (tolower c) (lc_copy s')
  end.

(** The pointer scan that advances while the character is not NUL and
    [stop] does not hold: the run it passes over and what follows. *)
Fixpoint span_until (stop : ascii -> bool) (s : string) : string * string :=
  match s with
  | "" => ("", "")
  | String c s' =>
      if stop c then ("", s)
      else let (tok, rest) := span_until stop s' in (String c tok, rest)
  end.

(** [split_first(in, first, rest)] with [first] a buffer of [first_cap]
    bytes and [rest] one of [rest_cap] bytes.  The token is copied without a
    bound, and [strncpy(rest, p, MAX_LINE-1)] writes [MAX_LINE-1] bytes
    whatever the length of the text, then [rest[MAX_LINE-1]]. *)
Definition split_first_buf (first_cap rest_cap : nat) (input : string)
  : option (string * string) :=
  match skip_spaces input with
  | "" => Some ("", "")
  | String c s' as p =>
      let '(tok, after) :=
        if Ascii.eqb c "'" || Ascii.eqb c DQ then
          let (tok, after) := span_until (Ascii.eqb c) s' in
          (tok, match after with String _ a => a | "" => "" end)
        else span_until isspace p in
      if (String.length tok <? first_cap)%nat && (MAX_LINE <=? rest_cap)%nat
      then Some (tok, clip (MAX_LINE - 1) (skip_spaces after))
      else None
  end.

Definition split_first : string -> option (string * string) :=
  split_first_buf MAX_TOK MAX_LINE.

(** [replace_first(s, old, new)] on a buffer [s] of [MAX_LINE] bytes; the
    text is left as it is when [old] does not occur. *)
Definition replace_first (s old new : string) : string :=
  match strstr s old with
  | None => s
  | Some pos =>
      let buf :=
        snprintf_buf MAX_LINE
          (clip pos s ++ new ++ skipn_str (pos + String.length old) s) in
      clip (MAX_LINE - 1) buf
  end.

(** ** Decimal conversions of the C library *)

(** The value of the run of digits at the head of [s], from [acc]. *)
Fixpoint digits_value (acc : Z) (s : string) : Z :=
  match s with
  | String c s' =>
      if isdigit c
      then digits_value (10 * acc + (Z.of_N (N_of_ascii c) - 48)) s'
      else acc
  | "" => acc
  end.

(** An optional sign, then the digits. *)
Definition signed_value (s : string) : Z :=
  match s with
  | String "-" s' => - digits_value 0 s'
  | String "+" s' => digits_value 0 s'
  | _ => digits_value 0 s
  end.

Definition fits_int (v : Z) : bool :=
  ((INT_MIN <=? v) && (v <=? INT_MAX))%Z.

(** [atoi]: white space, a sign, digits; a value that an [int] cannot hold
    is undefined. *)
Definition atoi (s : string) : option Z :=
  let v := signed_value (skip_spaces s) in
  if fits_int v then Some v else None.

(** [sscanf(s, "-n %d", &N) == 1] and the [N] read: [Some None] when the
    conversion does not take place. *)
Definition sscanf_n (s : string) : option (option Z) :=
  if starts_with "-n" s then
    let t := skip_spaces (skipn_str 2 s) in
    let body := match t with
                | String "-" r => r
                | String "+" r => r
                | _ => t
                end in
    match body with
    | String d _ =>
        if isdigit d
        then let v := signed_value t in
             if fits_int v then Some (Some v) else None
        else Some None
    | "" => Some None
    end
  else Some None.

(** [printf("%d", n)] *)
Definition string_of_Z (n : Z) : string :=
  NilZero.string_of_int (Z.to_int n).

(** ** History store *)

(** The array [history] together with [hist_count]: the entries in slot
    order, [hist_count] being the length. *)
Definition history := list string.

Definition hist_count (h : history) : Z := Z.of_nat (List.length h).

(** [add_history]; [None] is the null pointer. *)
Definition add_history (h : history) (cmd : option string) : history :=
  match cmd with
  | None => h
  | Some c =>
      if is_empty c then h
      else if (List.length h <? MAX_HISTORY)%nat then (h ++ [c])%list
      else (firstn (MAX_HISTORY - 1) (tl h) ++ [c])%list
  end.

(** [expand_bang] *)
Definition expand_bang (h : history) (cmd : string) : option string :=
  if cmd =? "!!" then
    if (hist_count h =? 0)%Z then Some ""
    else Some (nth (Z.to_nat (hist_count h - 1)) h "")
  else
    match cmd with
    | String "!" (String d _ as number) =>
        if isdigit d then
          match atoi number with
          | None => None
          | Some n =>
              if ((n <=? 0) || (hist_count h <? n))%Z then Some ""
              else Some (nth (Z.to_nat (n - 1)) h "")
          end
        else Some cmd
    | _ => Some cmd
    end.

(** ** What the terminal does to the outside *)

Inductive event : Type :=
| Print (text : string)      (* written to standard output *)
| System (cmd : string).     (* handed to the host shell by [system] *)

(** How a call ends: it returns, the process leaves through [exit(0)], or
    the behaviour is undefined. *)
Inductive outcome (A : Type) : Type :=
| Ret (a : A)
| Exited
| Undefined.
Arguments Ret {A} a.
Arguments Exited {A}.
Arguments Undefined {A}.

(** [print_history]: the last hundred entries with their slot numbers. *)
Definition print_history (h : history) : list event :=
  let n := List.length h in
  let start := if (100 <? n)%nat then (n - 100)%nat else O in
  map (fun ie : nat * string =>
         Print (string_of_Z (Z.of_nat (fst ie) + 1) ++ "  " ++ snd ie ++ nl))
      (skipn start (combine (seq 0 n) h)).

(** ** The mapping buffer and its two macros *)

(** [sizeof(mapped)], also the size of [trybash] and of the pipeline's
    [buf]. *)
Definition MAPPED_SIZE : nat := (MAX_LINE * 2)%nat.

(** [SETM(fmt, ...)] once the directives are expanded. *)
Definition SETM (text : string) : string := snprintf_buf MAPPED_SIZE text.

(** [strncat(mapped, s, sizeof(mapped) - strlen(mapped) - 1)] *)
Definition cat_mapped (mapped s : string) : string :=
  strncat_buf MAPPED_SIZE mapped s.

(** [APPREST()] *)
Definition APPREST (mapped rest : string) : string :=
  if is_empty rest then mapped
  else cat_mapped (if is_empty mapped then mapped else cat_mapped mapped " ")
                  rest.

(** The guarded append written out at the call sites:
    [if(strlen(t)){ strncat(mapped, " ", ...); strncat(mapped, t, ...); }] *)
Definition cat_if_any (mapped t : string) : string :=
  if is_empty t then mapped else cat_mapped (cat_mapped mapped " ") t.

(** A format that is given no argument: only [%%] is a directive that needs
    none. *)
Fixpoint format_no_args (fmt : string) : option string :=
  match fmt with
  | "" => Some ""
  | String "%" (String "%" r) => option_map (String "%"%char) (format_no_args r)
  | String "%" _ => None
  | String c r => option_map (String c) (format_no_args r)
  end.

(** The successive results of [strtok(s, d)], [strtok(NULL, d)], ... for a
    one-character delimiter set: the maximal runs free of the delimiter. *)
Fixpoint tokens_from (d : ascii) (s acc : string) : list string :=
  match s with
  | "" => if is_empty acc then [] else [acc]
  | String c s' =>
      if Ascii.eqb c d
      then (if is_empty acc then tokens_from d s' ""
            else acc :: tokens_from d s' "")
      else tokens_from d s' (acc ++ String c "")
  end.

Definition strtok_all (s : string) (d : ascii) : list string :=
  tokens_from d s "".

Notation "'do' x <- a ; b" :=
  (match a with Some x => b | None => None end)
  (at level 10, x pattern, a at level 100, b at level 200).

(** ** Calls with effects *)

(** What a call wrote and ran, and how it ended. *)
Definition run (A : Type) : Type := (list event * outcome A)%type.

Definition pure_run {A} (a : A) : run A := ([], Ret a).

Definition bind_run {A B} (m : run A) (k : A -> run B) : run B :=
  match m with
  | (ev, Ret a) => let (ev', r) := k a in ((ev ++ ev')%list, r)
  | (ev, Exited) => (ev, Exited)
  | (ev, Undefined) => (ev, Undefined)
  end.

(** A call without effects whose behaviour may be undefined. *)
Definition lift_option {A} (o : option A) : run A :=
  match o with
  | Some a => ([], Ret a)
  | None => ([], Undefined)
  end.

Notation "x <~ m ;; k" := (bind_run m (fun x => k))
  (at level 61, m at next level, right associativity).

(** ** [translate_pipeline]

    The three files hold the same loop around their own
    [handle_builtin_pipeline] and [map_command]. *)

Section Pipeline.

(** [handle_builtin_pipeline] of the file. *)
Variable handle_builtin_pipeline : string -> run bool.

(** [map_command] of the file, with whether the call ran [strtok]. *)
Variable map_command_traced : string -> Z -> Z -> option (string * bool).

(** Whether [STRTOK] is [strtok] (a Windows build) or [strtok_r]. *)
Variable STRTOK_is_strtok : bool.

(** The [while (token)] loop over the tokens that [STRTOK] yields.  With
    [strtok] the tokenizer state is the C library's own: once a stage's
    [map_command] has walked [strtok] to the end of another string, the
    next [STRTOK(NULL, "|", ...)] finds no token. *)
Fixpoint pipeline_loop (source_is_windows host_is_windows : Z)
    (tokens : list string) (buf : string) (first : bool) : run string :=
  match tokens with
  | [] => pure_run buf
  | token :: more =>
      let token := trim token in
      if negb (is_empty token) then
        handled <~ handle_builtin_pipeline token ;;
        if (handled : bool) then
          pipeline_loop source_is_windows host_is_windows more buf first
        else
          mr <~ lift_option
                  (map_command_traced token source_is_windows
                                      host_is_windows) ;;
          let buf1 := if first then buf
                      else strncat_buf MAPPED_SIZE buf " | " in
          let buf2 := strncat_buf MAPPED_SIZE buf1 (fst mr) in
          if STRTOK_is_strtok && snd mr then pure_run buf2
          else pipeline_loop source_is_windows host_is_windows more buf2
                             false
      else pipeline_loop source_is_windows host_is_windows more buf first
  end.

Definition translate_pipeline_of (line : string)
    (source_is_windows host_is_windows : Z) : run string :=
  pipeline_loop source_is_windows host_is_windows (strtok_all line "|")
                "" true.

End Pipeline.

(** * [custard.c] *)

Module Custard.

(** ** [map_command], Linux to Windows rules *)

(** The [rm] rule. *)
Definition map_rm (rest : string) : option string :=
  if found (strstr rest "-r") || found (strstr rest "-rf") then
    do t <- strncpy_buf MAX_LINE rest;
    let t := replace_first t "-r" "" in
    let t := replace_first t "-rf" "" in
    Some (cat_if_any (SETM "rmdir /s /q") t)
  else Some (APPREST (SETM "del") rest).

(** The [ls] rule. *)
Definition map_ls (rest : string) : string :=
  if found (strstr rest "-l") && found (strstr rest "-a")
  then APPREST (SETM "dir /a /q") rest
  else if found (strstr rest "-l") then APPREST (SETM "dir") rest
  else if found (strstr rest "-a") then APPREST (SETM "dir /a") rest
  else APPREST (SETM "dir") rest.

(** The [touch] rule. *)
Definition map_touch (rest : string) : option string :=
  if negb (is_empty rest) then
    do t <- strncpy_buf MAX_LINE rest;
    let t := trim t in
    Some (cat_mapped (cat_mapped (SETM "type nul >") " ") t)
  else Some "rem touch: missing filename".

(** The [head] rule.  Its scratch call [split_first(rest, sec, sec)] hands
    the [MAX_TOK]-byte [sec] over as the [rest] buffer. *)
Definition map_head (rest : string) : option string :=
  do _ <- split_first_buf MAX_TOK MAX_TOK rest;
  let fallback :=
    if negb (is_empty rest)
    then Some (snprintf_buf MAPPED_SIZE
                 ("powershell -Command " ++ dq ++ "Get-Content " ++ rest
                  ++ " -TotalCount 10" ++ dq))
    else Some (SETM "more") in
  match strstr rest "-n" with
  | Some pos =>
      do r <- sscanf_n (skipn_str pos rest);
      match r with
      | Some N =>
          do temp <- strncpy_buf MAX_LINE rest;
          let temp := trim temp in
          let file := match after_last temp " " with
                      | Some l => l
                      | None => temp
                      end in
          Some (snprintf_buf MAPPED_SIZE
                  ("powershell -Command " ++ dq ++ "Get-Content " ++ file
                   ++ " -TotalCount " ++ string_of_Z N ++ dq))
      | None => fallback
      end
  | None => fallback
  end.

(** The [tail] rule: the text, and whether the rule ran the C library's
    [strtok] (on its local [temp], down to its last token). *)
Definition map_tail (rest : string) : option (string * bool) :=
  let fallback (ran : bool) :=
    Some (cat_mapped
            (APPREST (SETM ("powershell -Command " ++ dq ++ "Get-Content "))
                     rest)
            (" -Tail 10" ++ dq), ran) in
  if found (strstr rest "-f") || found (strstr rest "-F") then
    do temp <- strncpy_buf MAX_LINE rest;
    let temp := replace_first temp "-f" "" in
    let temp := replace_first temp "-F" "" in
    let temp := trim temp in
    Some (snprintf_buf MAPPED_SIZE
            ("powershell -Command " ++ dq ++ "Get-Content " ++ temp
             ++ " -Wait" ++ dq), false)
  else
    match strstr rest "-n" with
    | Some pos =>
        do r <- sscanf_n (skipn_str pos rest);
        match r with
        | Some N =>
            do temp <- strncpy_buf MAX_LINE rest;
            match rev (strtok_all temp " ") with
            | fn :: _ =>
                Some (snprintf_buf MAPPED_SIZE
                        ("powershell -Command " ++ dq ++ "Get-Content " ++ fn
                         ++ " -Tail " ++ string_of_Z N ++ dq), true)
            | [] => fallback true
            end
        | None => fallback false
        end
    | None => fallback false
    end.

(** The [du] rule. *)
Definition map_du (rest : string) : option string :=
  do target <- strncpy_buf MAX_LINE rest;
  let target := trim target in
  if negb (is_empty target) then
    Some (snprintf_buf MAPPED_SIZE
            ("powershell -Command " ++ dq ++ "(Get-ChildItem -Recurse "
             ++ target ++ " | Measure-Object -Property Length -Sum).Sum" ++ dq))
  else Some (SETM "rem du needs directory").

(** The [kill] rule. *)
Definition map_kill (rest : string) : option string :=
  if found (strstr rest "-9") then
    do t <- strncpy_buf MAX_LINE rest;
    let t := trim (replace_first t "-9" "") in
    Some (snprintf_buf MAPPED_SIZE ("taskkill /PID " ++ t ++ " /F"))
  else
    do t <- strncpy_buf MAX_LINE rest;
    Some (snprintf_buf MAPPED_SIZE ("taskkill /PID " ++ trim t)).

(** The [sudo] rule. *)
Definition map_sudo (rest : string) : option string :=
  do t <- strncpy_buf MAX_LINE rest;
  let t := trim t in
  if negb (is_empty t) then Some t else Some "rem sudo with no command".

(** The [zip] and [unzip] rules, which differ in the cmdlet. *)
Definition map_archive (cmdlet rest : string) : string :=
  let mapped := SETM ("powershell -Command " ++ dq ++ cmdlet ++ " -Path") in
  cat_mapped (cat_if_any mapped rest) dq.

(** The block under [if(!source_is_windows && host_is_windows)]: its rules
    top to bottom, each paired with whether it ran [strtok]. *)
Definition linux_to_windows (input first_lc rest : string)
  : option (string * bool) :=
  let plain (r : option string) := option_map (fun t => (t, false)) r in
  let ret (t : string) := Some (t, false) in
  if first_lc =? "pwd" then ret (SETM "cd")
  else if first_lc =? "ls" then ret (map_ls rest)
  else if first_lc =? "mkdir" then ret (APPREST (SETM "mkdir") rest)
  else if first_lc =? "rmdir" then ret (APPREST (SETM "rmdir") rest)
  else if first_lc =? "rm" then plain (map_rm rest)
  else if first_lc =? "touch" then plain (map_touch rest)
  else if first_lc =? "cp" then ret (APPREST (SETM "copy") rest)
  else if first_lc =? "mv" then ret (APPREST (SETM "move") rest)
  else if first_lc =? "cat" then ret (APPREST (SETM "type") rest)
  else if (first_lc =? "less") || (first_lc =? "more")
       then ret (APPREST (SETM "more") rest)
  else if first_lc =? "head" then plain (map_head rest)
  else if first_lc =? "tail" then map_tail rest
  else if first_lc =? "chmod"
       then ret (APPREST (SETM "rem chmod not supported on Windows; use icacls or powershell Set-Acl") rest)
  else if first_lc =? "chown"
       then ret (APPREST (SETM "rem chown not supported on Windows; use icacls") rest)
  else if first_lc =? "whoami" then ret (SETM "whoami")
  else if first_lc =? "uname" then ret (APPREST (SETM "systeminfo") rest)
  else if first_lc =? "hostname" then ret (SETM "hostname")
  else if first_lc =? "date" then ret (SETM "date /t")
  else if first_lc =? "uptime" then ret (SETM "net statistics workstation")
  else if first_lc =? "df"
       then ret (SETM "wmic logicaldisk get caption,freespace,size")
  else if first_lc =? "du" then plain (map_du rest)
  else if first_lc =? "free"
       then ret (SETM ("systeminfo | findstr /C:" ++ dq
                       ++ "Total Physical Memory" ++ dq ++ " /C:" ++ dq
                       ++ "Available" ++ dq))
  else if (first_lc =? "top") || (first_lc =? "htop") then ret (SETM "tasklist")
  else if first_lc =? "ps"
       then (if found (strstr rest "aux") then ret (SETM "tasklist")
             else ret (APPREST (SETM "tasklist") rest))
  else if first_lc =? "kill" then plain (map_kill rest)
  else if (first_lc =? "jobs") || (first_lc =? "fg") || (first_lc =? "bg")
       then ret (APPREST (SETM "rem job control not supported on Windows; use powershell background jobs or task manager") rest)
  else if first_lc =? "ping" then ret (APPREST (SETM "ping") rest)
  else if first_lc =? "curl" then ret (APPREST (SETM "curl") rest)
  else if first_lc =? "wget" then ret (APPREST (SETM "curl -O") rest)
  else if (first_lc =? "ifconfig")
          || ((first_lc =? "ip") && found (strstr rest "addr"))
       then ret (SETM "ipconfig /all")
  else if first_lc =? "netstat" then ret (APPREST (SETM "netstat -ano") rest)
  else if first_lc =? "ssh" then ret (APPREST (SETM "ssh") rest)
  else if first_lc =? "scp" then ret (APPREST (SETM "scp") rest)
  else if first_lc =? "sudo" then plain (map_sudo rest)
  else if (first_lc =? "apt") || (first_lc =? "dnf") || (first_lc =? "pacman")
       then ret (APPREST (SETM "rem Package manager commands are not supported on Windows; consider using WSL or equivalent") rest)
  else if (first_lc =? "adduser") || (first_lc =? "passwd") || (first_lc =? "su")
       then ret (APPREST (SETM "rem User management must be done via Control Panel or net user on Windows") rest)
  else if (first_lc =? "who") || (first_lc =? "id") || (first_lc =? "groups")
       then ret (APPREST (SETM "whoami") rest)
  else if first_lc =? "tar"
       then (if found (strstr rest "-czvf") || found (strstr rest "-czf")
             then ret (APPREST (SETM "tar") rest)
             else ret (APPREST (SETM "tar") rest))
  else if (first_lc =? "zip") || (first_lc =? "unzip")
       then (if first_lc =? "zip"
             then ret (map_archive "Compress-Archive" rest)
             else ret (map_archive "Expand-Archive" rest))
  else if first_lc =? "history" then ret (SETM "rem history shown by this terminal")
  else if first_lc =? "clear" then ret (SETM "cls")
  else if first_lc =? "!!" then ret "!!"
  else if starts_with "!" first_lc then ret input
  else ret (snprintf_buf MAPPED_SIZE ("bash -lc " ++ dq ++ input ++ dq)).

(** ** [map_command], Windows to Linux rules *)

(** The [taskkill] rule. *)
Definition map_taskkill (rest : string) : option string :=
  do t <- strncpy_buf MAX_LINE rest;
  let t := trim t in
  match strstr t "/PID" with
  | Some pos =>
      let p := skip_spaces (skipn_str (pos + 4) t) in
      let pid := clip (MAX_TOK - 1) (fst (span_until isspace p)) in
      Some (snprintf_buf MAPPED_SIZE ("kill -9 " ++ pid))
  | None => Some (APPREST (SETM "rem cannot map taskkill: check args") rest)
  end.

(** The block under [if(source_is_windows && !host_is_windows)]. *)
Definition windows_to_linux (input first_lc rest : string) : option string :=
  if first_lc =? "dir" then Some (APPREST (SETM "ls") rest)
  else if first_lc =? "type" then Some (APPREST (SETM "cat") rest)
  else if first_lc =? "copy" then Some (APPREST (SETM "cp") rest)
  else if first_lc =? "move" then Some (APPREST (SETM "mv") rest)
  else if (first_lc =? "del") || (first_lc =? "erase")
       then Some (APPREST (SETM "rm") rest)
  else if first_lc =? "rmdir" then Some (APPREST (SETM "rm -r") rest)
  else if first_lc =? "mkdir" then Some (APPREST (SETM "mkdir") rest)
  else if first_lc =? "cls" then Some (SETM "clear")
  else if first_lc =? "whoami" then Some (SETM "whoami")
  else if first_lc =? "systeminfo" then Some (APPREST (SETM "uname -a") rest)
  else if first_lc =? "hostname" then Some (SETM "hostname")
  else if first_lc =? "date" then Some (SETM "date")
  else if first_lc =? "netstat" then Some (APPREST (SETM "netstat -tulnp") rest)
  else if first_lc =? "tasklist" then Some (APPREST (SETM "ps aux") rest)
  else if first_lc =? "taskkill" then map_taskkill rest
  else if first_lc =? "ipconfig" then Some (APPREST (SETM "ifconfig") rest)
  else if first_lc =? "ping" then Some (APPREST (SETM "ping") rest)
  else if first_lc =? "curl" then Some (APPREST (SETM "curl") rest)
  else if first_lc =? "ssh" then Some (APPREST (SETM "ssh") rest)
  else if first_lc =? "scp" then Some (APPREST (SETM "scp") rest)
  else if first_lc =? "powershell"
       then option_map SETM (format_no_args rest)
  else if first_lc =? "wmic" then Some (APPREST (SETM "df -h") rest)
  else if first_lc =? "cls" then Some (SETM "clear")
  else if (first_lc =? "tar") || (first_lc =? "Compress-Archive")
       then Some (APPREST (SETM "tar") rest)
  else if first_lc =? "rem" then Some (SETM "true")
  else if first_lc =? "history" then Some (SETM "history")
  else if first_lc =? "start" then Some (APPREST (SETM "xdg-open") rest)
  else Some input.

(** ** [map_command] *)

(** The translated text together with whether the call ran [strtok]. *)
Definition map_command_traced (input : string)
    (source_is_windows host_is_windows : Z) : option (string * bool) :=
  if (source_is_windows =? host_is_windows)%Z then Some (input, false)
  else
    do fr <- split_first input;
    let (first, rest) := fr in
    let first_lc := lc_copy first in
    if (source_is_windows =? 0)%Z && negb (host_is_windows =? 0)%Z
    then linux_to_windows input first_lc rest
    else if negb (source_is_windows =? 0)%Z && (host_is_windows =? 0)%Z
    then option_map (fun t => (t, false)) (windows_to_linux input first_lc rest)
    else Some (input, false).

Definition map_command (input : string)
    (source_is_windows host_is_windows : Z) : option string :=
  option_map fst (map_command_traced input source_is_windows host_is_windows).

(** Whether [map_command], on this stage, left the static state of [strtok]
    at the end of its own local buffer. *)
Definition map_command_ran_strtok (input : string)
    (source_is_windows host_is_windows : Z) : bool :=
  match map_command_traced input source_is_windows host_is_windows with
  | Some (_, ran) => ran
  | None => false
  end.

(** ** Built-ins, pipeline and session loop *)

(** The build: whether [_WIN32] is defined.  It fixes [HOST_IS_WINDOWS] and
    which function [STRTOK] stands for. *)
Definition HOST_IS_WINDOWS (WIN32 : bool) : Z := if WIN32 then 1 else 0.

Definition emdash : string :=
  String "226"%char (String "128"%char (String "148"%char "")).

Definition help_text : list string :=
  [ "Universal Terminal " ++ emdash ++ " Help" ++ nl;
    "-------------------------" ++ nl;
    "Built-in commands:" ++ nl;
    "  exit, quit       : Exit the terminal" ++ nl;
    "  history          : Show last 100 commands" ++ nl;
    "  clear            : Clear the screen" ++ nl;
    "  !!               : Repeat last command" ++ nl;
    "  !<num>           : Repeat command number <num> from history" ++ nl;
    "  help             : Show this help message" ++ nl;
    nl ++ "Command translation:" ++ nl;
    "  You can type commands in your chosen dialect (Windows CMD or Linux Bash)" ++ nl;
    "  Common commands like ls, dir, cp, move, rm, del, cat, etc., are mapped to the host OS" ++ nl;
    "  Piped commands (using |) are supported and translated" ++ nl ].

Definition clear_screen (WIN32 : bool) : event :=
  if WIN32 then System "cls" else System "clear".

(** [handle_builtin_pipeline]: [Ret true] is the C result 1. *)
Definition handle_builtin_pipeline (WIN32 : bool) (h : history) (cmd : string)
  : run bool :=
  fr <~ lift_option (split_first cmd) ;;
  let first_lc := lc_copy (fst fr) in
  if first_lc =? "help" then (map Print help_text, Ret true)
  else if (first_lc =? "exit") || (first_lc =? "quit") then ([], Exited)
  else if first_lc =? "history" then (print_history h, Ret true)
  else if first_lc =? "clear" then ([clear_screen WIN32], Ret true)
  else pure_run false.

Definition translate_pipeline (WIN32 : bool) (h : history) (line : string)
    (source_is_windows host_is_windows : Z) : run string :=
  translate_pipeline_of (handle_builtin_pipeline WIN32 h) map_command_traced
                     WIN32 line source_is_windows host_is_windows.

(** How one turn of the [while(1)] loop of [main] ends. *)
Inductive control : Type := Continue | Break.

(** [system(cmdline)] and the report of a failed launch; [host] gives the
    status the host shell returns. *)
Definition run_on_host (host : string -> Z) (cmdline : string) : list event :=
  System cmdline ::
  (if (host cmdline =? -1)%Z
   then [Print ("Failed to run command on host shell." ++ nl)] else []).

(** The execution block of [main] under [#if HOST_IS_WINDOWS]: a translated
    text with a pipe is cut at every [|] and each piece run on its own. *)
Definition execute_windows (host : string -> Z) (translated : string)
  : list event :=
  let cmd_c (t : string) := snprintf_buf (MAX_LINE * 3)
                              ("cmd /C " ++ dq ++ t ++ dq) in
  if strchr translated "|" then
    let copy := clip (MAX_LINE * 3 - 1) translated in
    flat_map
      (fun token =>
         let token := snd (span_until (fun c => negb (Ascii.eqb c " "))
                                      token) in
         Print ("[Running ->] " ++ cmd_c token ++ nl)
         :: run_on_host host (cmd_c token))
      (strtok_all copy "|")
  else run_on_host host (cmd_c translated).

Definition execute (WIN32 : bool) (host : string -> Z) (translated : string)
  : list event :=
  if WIN32 then execute_windows host translated
  else run_on_host host translated.

(** One turn of the loop of [main] on the text [fgets] stored in [line]:
    the prompt, then the line's fate.  The result is [(events, history
    afterwards, how the turn ended)]. *)
Definition session_turn (WIN32 : bool) (host : string -> Z)
    (source_is_windows : Z) (h : history) (raw : string)
  : list event * history * outcome control :=
  let prompt := Print (if (source_is_windows =? 0)%Z then "bash> " else "cmd> ") in
  let line := trim raw in
  if is_empty line then ([prompt], h, Ret Continue)
  else if line =? "help" then
    (prompt :: map Print help_text, add_history h (Some line), Ret Continue)
  else if (line =? "CTRL + C") || (line =? "CTRL+C") then
    ([prompt; Print ("[Note] To send an interrupt to a running process, press Ctrl-C on your keyboard while it's running." ++ nl)],
     h, Ret Continue)
  else if (line =? "CTRL + D") || (line =? "CTRL+D") then
    ([prompt; Print ("[Note] Ctrl-D sends EOF in UNIX shells (pressing it here won't exit the terminal session). Use 'exit' to quit." ++ nl)],
     h, Ret Continue)
  else if (line =? "CTRL + Z") || (line =? "CTRL+Z") then
    ([prompt; Print ("[Note] Ctrl-Z suspends a process in UNIX; job control not fully supported across OS translations." ++ nl)],
     h, Ret Continue)
  else
    let expansion : option (list event * option string) :=
      if starts_with "!" line then
        match expand_bang h line with
        | None => None
        | Some expanded =>
            if negb (is_empty expanded)
            then Some ([Print ("[Expanded] " ++ expanded ++ nl)],
                       Some (clip (MAX_LINE - 1) expanded))
            else Some ([Print ("No such history entry." ++ nl)], None)
        end
      else Some ([], Some line) in
    match expansion with
    | None => ([prompt], h, Undefined)
    | Some (ev, None) => (prompt :: ev, h, Ret Continue)
    | Some (ev, Some line) =>
        match (do cmd_copy <- strncpy_buf MAX_LINE line; split_first cmd_copy)
        with
        | None => (prompt :: ev, h, Undefined)
        | Some (first, _) =>
            let first_lc := lc_copy first in
            if (first_lc =? "exit") || (first_lc =? "quit")
            then (prompt :: ev, h, Ret Break)
            else if first_lc =? "history"
            then ((prompt :: ev) ++ print_history h,
                  add_history h (Some line), Ret Continue)%list
            else if first_lc =? "clear"
            then ((prompt :: ev) ++ [clear_screen WIN32],
                  add_history h (Some line), Ret Continue)%list
            else
              let h := add_history h (Some line) in
              match translate_pipeline WIN32 h line source_is_windows
                                       (HOST_IS_WINDOWS WIN32) with
              | (tev, Exited) => ((prompt :: ev) ++ tev, h, Exited)%list
              | (tev, Undefined) => ((prompt :: ev) ++ tev, h, Undefined)%list
              | (tev, Ret translated) =>
                  if starts_with "rem " translated
                     || starts_with "true" translated
                     || starts_with "echo " translated
                  then ((prompt :: ev) ++ tev
                        ++ [Print ("[Translated note] " ++ translated ++ nl)],
                        h, Ret Continue)%list
                  else
                    let announce := Print ("[Translated ->] " ++ translated ++ nl) in
                    if negb (is_empty translated) then
                      ((prompt :: ev) ++ tev ++ [announce; announce]
                       ++ execute WIN32 host translated, h, Ret Continue)%list
                    else ((prompt :: ev) ++ tev ++ [announce], h,
                          Ret Continue)%list
              end
        end
    end.

End Custard.

(** * [cust.c] *)

Module Cust.

(** [map_command]: the test for equal dialects is commented out in this
    file, so the stage is always split first. *)
Definition map_command (input : string)
    (source_is_windows host_is_windows : Z) : option string :=
  do fr <- split_first input;
  let (first, rest) := fr in
  let first_lc := lc_copy first in
  let linux_to_windows : option string :=
    if (source_is_windows =? 0)%Z && negb (host_is_windows =? 0)%Z then
      if first_lc =? "ls" then Some (APPREST (SETM "dir") rest)
      else if first_lc =? "pwd" then Some (SETM "cd")
      else if first_lc =? "rm" then Some (APPREST (SETM "del") rest)
      else if first_lc =? "mkdir" then Some (APPREST (SETM "mkdir") rest)
      else if first_lc =? "cp" then Some (APPREST (SETM "copy") rest)
      else if first_lc =? "mv" then Some (APPREST (SETM "move") rest)
      else if first_lc =? "cat" then Some (APPREST (SETM "type") rest)
      else if first_lc =? "clear" then Some (SETM "cls")
      else if first_lc =? "touch" then Some (SETM ("type nul > " ++ rest))
      else None
    else None in
  let windows_to_linux : option string :=
    if negb (source_is_windows =? 0)%Z && (host_is_windows =? 0)%Z then
      if first_lc =? "dir" then Some (APPREST (SETM "ls") rest)
      else if first_lc =? "del" then Some (APPREST (SETM "rm") rest)
      else if first_lc =? "copy" then Some (APPREST (SETM "cp") rest)
      else if first_lc =? "move" then Some (APPREST (SETM "mv") rest)
      else if first_lc =? "type" then Some (APPREST (SETM "cat") rest)
      else if first_lc =? "cls" then Some (SETM "clear")
      else None
    else None in
  match linux_to_windows with
  | Some mapped => Some mapped
  | None =>
      match windows_to_linux with
      | Some mapped => Some mapped
      | None => Some input
      end
  end.

Definition handle_builtin_pipeline (WIN32 : bool) (h : history) (cmd : string)
  : run bool :=
  fr <~ lift_option (split_first cmd) ;;
  let first_lc := lc_copy (fst fr) in
  if first_lc =? "help"
  then ([Print ("Universal Terminal " ++ Custard.emdash ++ " Help" ++ nl)],
        Ret true)
  else if (first_lc =? "exit") || (first_lc =? "quit") then ([], Exited)
  else if first_lc =? "history" then (print_history h, Ret true)
  else if first_lc =? "clear" then ([Custard.clear_screen WIN32], Ret true)
  else pure_run false.

Definition translate_pipeline (WIN32 : bool) (h : history) (line : string)
    (source_is_windows host_is_windows : Z) : run string :=
  translate_pipeline_of (handle_builtin_pipeline WIN32 h)
    (fun input s hw => option_map (fun t => (t, false)) (map_command input s hw))
    WIN32 line source_is_windows host_is_windows.

(** [call_gemini_api] *)
Definition call_gemini_api (cmd : string) : list event :=
  [ Print ("[Gemini API] Command not recognized: " ++ cmd ++ nl);
    Print ("[Gemini API] Response: Placeholder response from Gemini API." ++ nl) ].

(** One turn of the loop of [main] of [cust.c] on the text [fgets] stored
    in [line]: [(events, history afterwards, how the turn ended)].  The loop
    has no branch for [exit]; a reference to the history that expands to
    nothing leaves the line as it was typed. *)
Definition session_turn (WIN32 : bool) (host : string -> Z)
    (source_is_windows : Z) (h : history) (raw : string)
  : list event * history * outcome Custard.control :=
  let prompt := Print ((if (source_is_windows =? 0)%Z then "bash" else "cmd")
                       ++ "> ") in
  let line := trim raw in
  if is_empty line then ([prompt], h, Ret Custard.Continue)
  else
    let expansion : option string :=
      if starts_with "!" line then
        do expanded <- expand_bang h line;
        Some (if negb (is_empty expanded) then clip (MAX_LINE - 1) expanded
              else line)
      else Some line in
    match expansion with
    | None => ([prompt], h, Undefined)
    | Some line =>
        let h := add_history h (Some line) in
        match translate_pipeline WIN32 h line source_is_windows
                                 (Custard.HOST_IS_WINDOWS WIN32) with
        | (tev, Exited) => (prompt :: tev, h, Exited)
        | (tev, Undefined) => (prompt :: tev, h, Undefined)
        | (tev, Ret translated) =>
            if starts_with "rem " translated || starts_with "true" translated
            then ((prompt :: tev) ++ [Print ("[Note] " ++ translated ++ nl)],
                  h, Ret Custard.Continue)%list
            else
              ((prompt :: tev)
               ++ [Print ("[Translated] " ++ translated ++ nl);
                   System translated]
               ++ (if (host translated =? -1)%Z then call_gemini_api line
                   else []),
               h, Ret Custard.Continue)%list
        end
    end.

End Cust.

(** * The third file: the variant with the assistant fallback *)

Module Gemini.

(** [gemini_ai_answer] into [ai_resp], a buffer of [MAX_LINE] bytes. *)
Definition gemini_ai_answer (query os_context : string) : string :=
  snprintf_buf MAX_LINE
    ("Gemini AI: I don't know '" ++ query ++ "' on " ++ os_context
     ++ ". Suggest checking documentation or OS-specific command.").

Definition map_command (input : string)
    (source_is_windows host_is_windows : Z) : option string :=
  if (source_is_windows =? host_is_windows)%Z then Some input
  else
    do fr <- split_first input;
    let (first, rest) := fr in
    let first_lc := lc_copy first in
    if (source_is_windows =? 0)%Z && negb (host_is_windows =? 0)%Z then
      if first_lc =? "ls" then Some (APPREST (SETM "dir") rest)
      else if first_lc =? "pwd" then Some "cd"
      else if first_lc =? "cat" then Some (APPREST (SETM "type") rest)
      else if first_lc =? "rm" then Some (APPREST (SETM "del") rest)
      else Some (gemini_ai_answer input "Windows")
    else if negb (source_is_windows =? 0)%Z && (host_is_windows =? 0)%Z then
      if first_lc =? "dir" then Some (APPREST (SETM "ls") rest)
      else if first_lc =? "type" then Some (APPREST (SETM "cat") rest)
      else if first_lc =? "del" then Some (APPREST (SETM "rm") rest)
      else Some (gemini_ai_answer input "Linux/macOS/iOS")
    else Some (gemini_ai_answer input
                 (if (host_is_windows =? 0)%Z then "Linux/macOS/iOS"
                  else "Windows")).

Definition handle_builtin_pipeline (WIN32 : bool) (h : history) (cmd : string)
  : run bool :=
  fr <~ lift_option (split_first cmd) ;;
  let first_lc := lc_copy (fst fr) in
  if first_lc =? "help"
  then ([Print ("Universal Terminal " ++ Custard.emdash ++ " Help" ++ nl);
         Print ("Built-in: exit, quit, history, clear, !!, !<num>, help" ++ nl)],
        Ret true)
  else if (first_lc =? "exit") || (first_lc =? "quit") then ([], Exited)
  else if first_lc =? "history" then (print_history h, Ret true)
  else if first_lc =? "clear" then ([Custard.clear_screen WIN32], Ret true)
  else pure_run false.

Definition translate_pipeline (WIN32 : bool) (h : history) (line : string)
    (source_is_windows host_is_windows : Z) : run string :=
  translate_pipeline_of (handle_builtin_pipeline WIN32 h)
    (fun input s hw => option_map (fun t => (t, false)) (map_command input s hw))
    WIN32 line source_is_windows host_is_windows.

(** One turn of the loop of [main] of the third file. *)
Definition session_turn (WIN32 : bool) (host : string -> Z)
    (source_is_windows : Z) (h : history) (raw : string)
  : list event * history * outcome Custard.control :=
  let prompt := Print ((if (source_is_windows =? 0)%Z then "bash" else "cmd")
                       ++ "> ") in
  let line := trim raw in
  if is_empty line then ([prompt], h, Ret Custard.Continue)
  else
    let expansion : option (list event * string) :=
      if starts_with "!" line then
        do expanded <- expand_bang h line;
        Some (if negb (is_empty expanded)
              then ([Print ("[Expanded] " ++ expanded ++ nl)],
                    clip (MAX_LINE - 1) expanded)
              else ([], line))
      else Some ([], line) in
    match expansion with
    | None => ([prompt], h, Undefined)
    | Some (ev, line) =>
        let h := add_history h (Some line) in
        match translate_pipeline WIN32 h line source_is_windows
                                 (Custard.HOST_IS_WINDOWS WIN32) with
        | (tev, Exited) => ((prompt :: ev) ++ tev, h, Exited)%list
        | (tev, Undefined) => ((prompt :: ev) ++ tev, h, Undefined)%list
        | (tev, Ret translated) =>
            ((prompt :: ev) ++ tev
             ++ [Print ("[Translated ->] " ++ translated ++ nl)]
             ++ (if negb (is_empty translated)
                 then System translated
                      :: (if (host translated =? -1)%Z
                          then [Print ("Failed to run command." ++ nl)]
                          else [])
                 else []),
             h, Ret Custard.Continue)%list
        end
    end.

End Gemini.

(** * Notions of the specification *)

(** [record] applied to each line in turn, from the empty store. *)
Definition record_all (lines : list string) : history :=
  fold_left (fun h c => add_history h (Some c)) lines [].

Definition nonempty (s : string) : bool := negb (is_empty s).

(** A thousand and two lines to record: ["1"], ["2"], ..., ["1002"]. *)
Definition sample_lines : list string :=
  map (fun i => string_of_Z (Z.of_nat i)) (seq 1 1002).

(** Nothing for [trim] to take off at the front. *)
Definition no_leading_space (s : string) : Prop :=
  match s with "" => True | String c _ => isspace c = false end.

(** The verbs that the session loop and the pipeline hand on to
    [map_command]. *)
Definition passes_builtins (verb : string) : bool :=
  negb ((verb =? "help") || (verb =? "exit") || (verb =? "quit")
        || (verb =? "history") || (verb =? "clear")).

(** The lines that the session loop neither skips, nor answers with the
    help text or a note about a control key, nor expands from the history. *)
Definition plain_line (line : string) : bool :=
  negb (is_empty line || (line =? "help")
        || (line =? "CTRL + C") || (line =? "CTRL+C")
        || (line =? "CTRL + D") || (line =? "CTRL+D")
        || (line =? "CTRL + Z") || (line =? "CTRL+Z")
        || starts_with "!" line).

(** The verbs of the Linux to Windows rules of [custard.c], in the order
    of the source; [ip] has a rule only when the remainder mentions
    [addr]. *)
Definition linux_rule_verbs : list string :=
  [ "pwd"; "ls"; "mkdir"; "rmdir"; "rm"; "touch"; "cp"; "mv"; "cat"; "less";
    "more"; "head"; "tail"; "chmod"; "chown"; "whoami"; "uname"; "hostname";
    "date"; "uptime"; "df"; "du"; "free"; "top"; "htop"; "ps"; "kill"; "jobs";
    "fg"; "bg"; "ping"; "curl"; "wget"; "ifconfig"; "netstat"; "ssh"; "scp";
    "sudo"; "apt"; "dnf"; "pacman"; "adduser"; "passwd"; "su"; "who"; "id";
    "groups"; "tar"; "zip"; "unzip"; "history"; "clear"; "!!" ].

Definition has_linux_rule (verb rest : string) : bool :=
  existsb (String.eqb verb) linux_rule_verbs
  || ((verb =? "ip") && found (strstr rest "addr")).

(** The verbs of the Windows to Linux rules of [custard.c]. *)
Definition windows_rule_verbs : list string :=
  [ "dir"; "type"; "copy"; "move"; "del"; "erase"; "rmdir"; "mkdir"; "cls";
    "whoami"; "systeminfo"; "hostname"; "date"; "netstat"; "tasklist";
    "taskkill"; "ipconfig"; "ping"; "curl"; "ssh"; "scp"; "powershell";
    "wmic"; "tar"; "rem"; "history"; "start" ].

Definition has_windows_rule (verb : string) : bool :=
  existsb (String.eqb verb) windows_rule_verbs.

(** The stages of a line: what lies between the pipes, trimmed, the empty
    ones dropped. *)
Definition stages (line : string) : list string :=
  filter nonempty (map trim (strtok_all line "|")).

Definition verb_of (stage : string) : option string :=
  option_map (fun fr => lc_copy (fst fr)) (split_first stage).

(** The stages that the built-in dispatcher answers itself and leaves out
    of the translated line. *)
Definition intercepted (stage : string) : bool :=
  match verb_of stage with
  | Some v => (v =? "help") || (v =? "history") || (v =? "clear")
  | None => false
  end.

(** The stages on which the dispatcher ends the process. *)
Definition ends_session (stage : string) : bool :=
  match verb_of stage with
  | Some v => (v =? "exit") || (v =? "quit")
  | None => false
  end.

(** The non-empty stages that are not intercepted, in order. *)
Definition translated_stages (line : string) : list string :=
  filter (fun stage => negb (intercepted stage)) (stages line).

(** A text cut at every [" | "], left to right; [skip] characters of a
    separator are still to be passed over. *)
Fixpoint cut_at_bars (skip : nat) (s acc : string) : list string :=
  match s with
  | "" => [acc]
  | String c s' =>
      match skip with
      | S k => cut_at_bars k s' acc
      | O => if starts_with " | " s then acc :: cut_at_bars 2 s' ""
             else cut_at_bars 0 s' (acc ++ String c "")
      end
  end.

(** The number of [" | "]-joined segments of a translated line; the empty
    line has none. *)
Definition count_segments (out : string) : nat :=
  if is_empty out then O else List.length (cut_at_bars 0 out "").

(** Every character of the text satisfies [p]. *)
Fixpoint all_chars (p : ascii -> bool) (s : string) : bool :=
  match s with
  | "" => true
  | String c s' => p c && all_chars p s'
  end.

Definition blank (s : string) : bool := all_chars isspace s.

Definition no_space (s : string) : bool :=
  all_chars (fun c => negb (isspace c)) s.

Fixpoint last_char (s : string) : option ascii :=
  match s with
  | "" => None
  | String c "" => Some c
  | String _ s' => last_char s'
  end.

(** Nothing for [trim] to take off at the end. *)
Definition no_trailing_space (s : string) : Prop :=
  match last_char s with Some c => isspace c = false | None => True end.

Definition is_quote (c : ascii) : bool := Ascii.eqb c "'" || Ascii.eqb c DQ.

(** The room a list of texts takes when each is followed by one
    separator character. *)
Definition weight (l : list string) : nat :=
  list_sum (map (fun s => S (String.length s)) l).

(** The host commands among the events. *)
Definition commands_run (events : list event) : list string :=
  flat_map (fun e => match e with System c => [c] | Print _ => [] end) events.

(** The Windows to Linux rules of [custard.c] that put a new verb in the
    place of the old one and append the remainder. *)
Definition windows_substitutions : list (string * string) :=
  [ ("dir", "ls"); ("type", "cat"); ("copy", "cp"); ("move", "mv");
    ("del", "rm"); ("erase", "rm"); ("rmdir", "rm -r"); ("mkdir", "mkdir");
    ("systeminfo", "uname -a"); ("netstat", "netstat -tulnp");
    ("tasklist", "ps aux"); ("ipconfig", "ifconfig"); ("ping", "ping");
    ("curl", "curl"); ("ssh", "ssh"); ("scp", "scp"); ("wmic", "df -h");
    ("tar", "tar"); ("start", "xdg-open") ].

(** The Windows to Linux rules that answer with a fixed text. *)
Definition windows_fixed : list (string * string) :=
  [ ("cls", "clear"); ("whoami", "whoami"); ("hostname", "hostname");
    ("date", "date"); ("rem", "true"); ("history", "history") ].

(** The Linux to Windows rules that put a new verb in the place of the old
    one and append the remainder. *)
Definition linux_substitutions : list (string * string) :=
  [ ("mkdir", "mkdir"); ("rmdir", "rmdir"); ("cp", "copy"); ("mv", "move");
    ("cat", "type"); ("less", "more"); ("more", "more");
    ("uname", "systeminfo"); ("ping", "ping"); ("curl", "curl");
    ("wget", "curl -O"); ("netstat", "netstat -ano"); ("ssh", "ssh");
    ("scp", "scp"); ("who", "whoami"); ("id", "whoami");
    ("groups", "whoami"); ("tar", "tar") ].

(** The Linux to Windows rules that answer with a fixed text. *)
Definition linux_fixed : list (string * string) :=
  [ ("pwd", "cd"); ("whoami", "whoami"); ("hostname", "hostname");
    ("date", "date /t"); ("uptime", "net statistics workstation");
    ("df", "wmic logicaldisk get caption,freespace,size");
    ("top", "tasklist"); ("htop", "tasklist");
    ("history", "rem history shown by this terminal"); ("clear", "cls") ].

(** Verbs that the two directions send to each other. *)
Definition mirrored_verbs : list (string * string) :=
  [ ("cp", "copy"); ("mv", "move"); ("cat", "type"); ("mkdir", "mkdir");
    ("ping", "ping"); ("curl", "curl"); ("ssh", "ssh"); ("scp", "scp");
    ("tar", "tar") ].

(** A verb with its remainder, one blank between them. *)
Definition verb_with (verb rest : string) : string :=
  if is_empty rest then verb else verb ++ " " ++ rest.

(** What makes a text a verb that [split_first] gives back as it is. *)
Definition split_first_word_ok (w : string) : Prop :=
  w <> "" /\ no_space w = true /\
  match w with String c _ => is_quote c = false | "" => True end /\
  (String.length w < MAX_TOK)%nat.

(** * Facts about the helpers *)

Section StringFacts.

Lemma length_append (a b : string) :
  String.length (a ++ b) = (String.length a + String.length b)%nat.
Proof. induction a as [|c a IH]; simpl; [reflexivity | now rewrite IH]. Qed.

Lemma append_empty_r (a : string) : a ++ "" = a.
Proof. induction a as [|c a IH]; simpl; [reflexivity | now rewrite IH]. Qed.

Lemma append_assoc (a b c : string) : (a ++ b) ++ c = a ++ (b ++ c).
Proof. induction a as [|x a IH]; simpl; [reflexivity | now rewrite IH]. Qed.

Lemma is_empty_true (s : string) : is_empty s = true <-> s = "".
Proof. destruct s; simpl; split; congruence. Qed.

Lemma is_empty_false (s : string) : is_empty s = false <-> s <> "".
Proof. destruct s; simpl; split; congruence. Qed.

Lemma clip_all (n : nat) (s : string) :
  (String.length s <= n)%nat -> clip n s = s.
Proof.
  revert n; induction s as [|c s IH]; intros [|n] H; simpl in *;
    try reflexivity; try lia.
  now rewrite IH by lia.
Qed.

Lemma length_clip (n : nat) (s : string) :
  String.length (clip n s) = Nat.min n (String.length s).
Proof.
  revert n; induction s as [|c s IH]; intros [|n]; simpl; try reflexivity.
  now rewrite IH.
Qed.



Lemma length_skip_spaces (s : string) :
  (String.length (skip_spaces s) <= String.length s)%nat.
Proof.
  induction s as [|c s IH]; simpl; [lia|].
  destruct (isspace c); simpl; lia.
Qed.

Lemma length_strip_trailing (s : string) :
  (String.length (strip_trailing s) <= String.length s)%nat.
Proof.
  induction s as [|c s IH]; simpl; [lia|].
  destruct (isspace c && is_empty (strip_trailing s)); simpl; lia.
Qed.

Lemma length_trim (s : string) :
  (String.length (trim s) <= String.length s)%nat.
Proof.
  unfold trim.
  pose proof (length_strip_trailing (skip_spaces s)).
  pose proof (length_skip_spaces s). lia.
Qed.

End StringFacts.

(** The buffers that [split_first] fills bound the token and the
    remainder. *)
Lemma split_first_rest_length (input first rest : string) :
  split_first input = Some (first, rest) ->
  (String.length first < MAX_TOK)%nat /\ (String.length rest < MAX_LINE)%nat.
Proof.
  unfold split_first, split_first_buf.
  destruct (skip_spaces input) as [|c s'].
  - intros H; inversion H; subst. unfold MAX_TOK, MAX_LINE; simpl; lia.
  - match goal with
    | |- context [let '(_, _) := ?e in _] => destruct e as [tok after]
    end.
    destruct (String.length tok <? MAX_TOK)%nat eqn:Hlen; [|discriminate].
    rewrite Nat.leb_refl. cbv [andb].
    intros H; injection H as <- <-.
    apply Nat.ltb_lt in Hlen. split; [exact Hlen|].
    rewrite length_clip.
    unfold MAX_LINE; lia.
Qed.

(** * The history store *)

Lemma MAX_HISTORY_value : MAX_HISTORY = 1000%nat.
Proof. reflexivity. Qed.

Lemma add_history_full (h : history) (c : string) :
  c <> "" -> List.length h = MAX_HISTORY ->
  add_history h (Some c) = (tl h ++ [c])%list.
Proof.
  intros Hc Hlen. unfold add_history.
  apply is_empty_false in Hc. rewrite Hc.
  replace (List.length h <? MAX_HISTORY)%nat with false
    by (symmetry; apply Nat.ltb_ge; lia).
  rewrite firstn_all2; [reflexivity|].
  rewrite length_tl. lia.
Qed.

Lemma add_history_room (h : history) (c : string) :
  c <> "" -> (List.length h < MAX_HISTORY)%nat ->
  add_history h (Some c) = (h ++ [c])%list.
Proof.
  intros Hc Hlen. unfold add_history.
  apply is_empty_false in Hc. rewrite Hc.
  apply Nat.ltb_lt in Hlen. now rewrite Hlen.
Qed.

(** Recording keeps the last [MAX_HISTORY] of the lines seen so far. *)
Lemma record_keeps_last (lines : list string) :
  forallb nonempty lines = true ->
  forall h : history,
    (List.length h <= MAX_HISTORY)%nat ->
    fold_left (fun h c => add_history h (Some c)) lines h
    = skipn (List.length (h ++ lines) - MAX_HISTORY) (h ++ lines)%list.
Proof.
  assert (Hpos : (1 <= MAX_HISTORY)%nat) by (rewrite MAX_HISTORY_value; lia).
  induction lines as [|c lines IH]; intros Hne h Hlen.
  - rewrite app_nil_r. simpl.
    replace (List.length h - MAX_HISTORY)%nat with O by lia. reflexivity.
  - simpl in Hne. apply andb_true_iff in Hne as [Hc Hne].
    unfold nonempty in Hc. apply negb_true_iff, is_empty_false in Hc.
    cbn [fold_left].
    destruct (Nat.eq_dec (List.length h) MAX_HISTORY) as [Hfull|Hroom].
    + rewrite add_history_full by assumption.
      rewrite IH; [|assumption|rewrite length_app, length_tl; simpl; lia].
      destruct h as [|x h]; [simpl in Hfull; lia|].
      cbn [tl]. rewrite <- app_assoc. cbn [app].
      cbn [List.length] in *. rewrite !length_app. cbn [List.length].
      replace (List.length h + S (List.length lines) - MAX_HISTORY)%nat
        with (List.length lines) by lia.
      replace (S (List.length h + S (List.length lines)) - MAX_HISTORY)%nat
        with (S (List.length lines)) by lia.
      reflexivity.
    + rewrite add_history_room by (assumption || lia).
      rewrite IH; [|assumption|rewrite length_app; simpl; lia].
      now rewrite <- app_assoc.
Qed.

(** C8.  The store holds at most [MAX_HISTORY] = 1000 entries; recording
    nothing (a null pointer) or the empty string leaves it as it is; on a
    full store a new entry evicts slot 0 and the others move down one slot;
    after [MAX_HISTORY + k] non-empty lines the store holds exactly
    [MAX_HISTORY] entries and [!1] (slot 0) recalls the [(k+1)]-th line
    recorded. *)
Theorem history_bounded_growth :
  MAX_HISTORY = 1000%nat /\
  (forall h, add_history h None = h /\ add_history h (Some "") = h) /\
  (forall h c, c <> "" -> List.length h = MAX_HISTORY ->
     add_history h (Some c) = (tl h ++ [c])%list) /\
  (forall lines k,
     forallb nonempty lines = true ->
     List.length lines = (MAX_HISTORY + k)%nat ->
     List.length (record_all lines) = MAX_HISTORY /\
     nth 0 (record_all lines) "" = nth k lines "" /\
     expand_bang (record_all lines) "!1" = Some (nth k lines "")).
Proof.
  split; [reflexivity|]. split; [intros h; split; reflexivity|].
  split; [exact add_history_full|].
  intros lines k Hne Hlen. unfold record_all.
  assert (Hpos : (1 <= MAX_HISTORY)%nat) by (rewrite MAX_HISTORY_value; lia).
  rewrite record_keeps_last by (assumption || (simpl; lia)).
  cbn [app]. rewrite Hlen.
  replace (MAX_HISTORY + k - MAX_HISTORY)%nat with k by lia.
  assert (Hl : List.length (skipn k lines) = MAX_HISTORY)
    by (rewrite length_skipn; lia).
  assert (Hn : nth 0 (skipn k lines) "" = nth k lines "")
    by (rewrite nth_skipn; f_equal; lia).
  split; [exact Hl|]. split; [exact Hn|].
  unfold expand_bang. cbn [String.eqb Ascii.eqb Bool.eqb isdigit].
  change (atoi "1") with (Some 1%Z). cbv iota beta.
  unfold hist_count. rewrite Hl.
  replace ((1 <=? 0)%Z || (Z.of_nat MAX_HISTORY <? 1)%Z) with false
    by (rewrite MAX_HISTORY_value; reflexivity).
  change (Z.to_nat (1 - 1)) with O. now rewrite Hn.
Qed.

(** The store after the lines ["1"], ["2"], ..., ["1002"]: the first two
    are gone and [!1] recalls the third. *)
Lemma history_bounded_growth_witness :
  forallb nonempty sample_lines = true /\
  List.length sample_lines = (MAX_HISTORY + 2)%nat /\
  List.length (record_all sample_lines) = MAX_HISTORY /\
  expand_bang (record_all sample_lines) "!1" = Some (nth 2 sample_lines "").
Proof.
  pose proof (proj2 (proj2 (proj2 history_bounded_growth)) sample_lines 2%nat)
    as H.
  assert (Hne : forallb nonempty sample_lines = true)
    by (vm_compute; reflexivity).
  assert (Hlen : List.length sample_lines = (MAX_HISTORY + 2)%nat)
    by (vm_compute; reflexivity).
  specialize (H Hne Hlen). destruct H as (H1 & _ & H3).
  exact (conj Hne (conj Hlen (conj H1 H3))).
Defined.

Example sample_lines_third : nth 2 sample_lines "" = "3".
Proof. vm_compute. reflexivity. Qed.

(** * Bang expansion *)

Lemma isdigit_code (c : ascii) :
  isdigit c = true -> 0 <= Z.of_N (N_of_ascii c) - 48 <= 9.
Proof.
  unfold isdigit. intros H. apply andb_true_iff in H as [H1 H2].
  apply N.leb_le in H1, H2. lia.
Qed.

Lemma digits_value_nonneg (s : string) :
  forall acc, 0 <= acc -> 0 <= digits_value acc s.
Proof.
  induction s as [|c s IH]; intros acc Hacc; cbn [digits_value];
    [exact Hacc|].
  destruct (isdigit c) eqn:Hd; [|exact Hacc].
  apply IH. pose proof (isdigit_code c Hd). lia.
Qed.

Lemma isdigit_not_space (c : ascii) : isdigit c = true -> isspace c = false.
Proof.
  unfold isdigit, isspace. intros H. apply andb_true_iff in H as [H1 H2].
  apply N.leb_le in H1, H2.
  apply orb_false_iff; split.
  - apply N.eqb_neq. lia.
  - apply andb_false_iff. right. apply N.leb_gt. lia.
Qed.

(** [atoi] on a text that starts with a digit reads the leading number,
    provided an [int] can hold it. *)
Lemma atoi_digits (d : ascii) (t : string) :
  isdigit d = true ->
  digits_value 0 (String d t) <= INT_MAX ->
  atoi (String d t) = Some (digits_value 0 (String d t)).
Proof.
  intros Hd Hfit. unfold atoi.
  cbn [skip_spaces]. rewrite (isdigit_not_space d Hd).
  assert (Hs : signed_value (String d t) = digits_value 0 (String d t)).
  { unfold signed_value.
    destruct d as [[] [] [] [] [] [] [] []]; try reflexivity;
      vm_compute in Hd; discriminate. }
  rewrite Hs. unfold fits_int.
  pose proof (digits_value_nonneg (String d t) 0 ltac:(lia)) as Hpos.
  replace (INT_MIN <=? digits_value 0 (String d t))%Z with true
    by (symmetry; apply Z.leb_le; unfold INT_MIN; lia).
  apply Z.leb_le in Hfit. now rewrite Hfit.
Qed.

(** Where [atoi] is defined the expansion is as intended.  [!!] is the
    entry recorded last, or the empty text on an empty store.  [!] followed
    by a number [n] that an [int] holds is the entry in slot [n-1] when
    [1 <= n <= hist_count], and the empty text otherwise; the call returns
    in every case. *)
Theorem expand_bang_resolution :
  expand_bang [] "!!" = Some "" /\
  (forall (h : history) (e : string),
     expand_bang (h ++ [e])%list "!!" = Some e) /\
  (forall (h : history) (d : ascii) (t : string),
     isdigit d = true ->
     let n := digits_value 0 (String d t) in
     n <= INT_MAX ->
     expand_bang h (String "!" (String d t))
     = Some (if ((1 <=? n) && (n <=? hist_count h))%Z
             then nth (Z.to_nat (n - 1)) h ""
             else "")).
Proof.
  split; [reflexivity|]. split.
  - intros h e. unfold expand_bang. cbn [String.eqb Ascii.eqb Bool.eqb andb].
    unfold hist_count. rewrite length_app. cbn [List.length].
    replace (Z.of_nat (List.length h + 1) =? 0)%Z with false
      by (symmetry; apply Z.eqb_neq; lia).
    replace (Z.to_nat (Z.of_nat (List.length h + 1) - 1))
      with (List.length h) by lia.
    rewrite app_nth2 by lia. now rewrite Nat.sub_diag.
  - intros h d t Hd n Hfit. unfold expand_bang.
    assert (Hneq : (String "!" (String d t) =? "!!") = false).
    { apply String.eqb_neq. intros E. injection E as E _. subst d.
      vm_compute in Hd. discriminate. }
    rewrite Hneq, Hd, (atoi_digits d t Hd Hfit). fold n.
    destruct (n <=? 0)%Z eqn:H0; destruct (hist_count h <? n)%Z eqn:H1;
      destruct (1 <=? n)%Z eqn:H2; destruct (n <=? hist_count h)%Z eqn:H3;
      cbn [orb andb]; try reflexivity;
      apply Z.leb_le in H0 || apply Z.leb_gt in H0;
      apply Z.ltb_lt in H1 || apply Z.ltb_ge in H1;
      apply Z.leb_le in H2 || apply Z.leb_gt in H2;
      apply Z.leb_le in H3 || apply Z.leb_gt in H3; lia.
Qed.

(** The example of the specification: with the store [ls -l], [pwd], the
    references [!1] and [!5]. *)
Lemma expand_bang_resolution_witness :
  isdigit "1" = true /\ digits_value 0 "1" <= INT_MAX /\
  expand_bang ["ls -l"; "pwd"] "!!" = Some "pwd" /\
  expand_bang ["ls -l"; "pwd"] "!1" = Some "ls -l" /\
  expand_bang ["ls -l"; "pwd"] "!5" = Some "".
Proof.
  destruct expand_bang_resolution as (_ & Hlast & Hnum).
  split; [reflexivity|]. split; [vm_compute; discriminate|].
  split; [exact (Hlast ["ls -l"] "pwd")|]. split.
  - exact (Hnum ["ls -l"; "pwd"] "1"%char "" eq_refl
             ltac:(vm_compute; discriminate)).
  - exact (Hnum ["ls -l"; "pwd"] "5"%char "" eq_refl
             ltac:(vm_compute; discriminate)).
Defined.

(** C6.  The range test of [expand_bang] is made on the [int] that [atoi]
    returns.  Up to [INT_MAX] a number beyond the store gives the empty
    text; beyond [INT_MAX] the conversion has no defined value, and the
    reference [!4294967297] has no defined expansion where the empty text
    is expected. *)
Theorem expand_bang_beyond_int :
  expand_bang ["ls -l"; "pwd"] "!2147483647" = Some "" /\
  expand_bang ["ls -l"; "pwd"] "!4294967297" = None.
Proof. split; vm_compute; reflexivity. Qed.

(** C10.  A text that starts with [!] and is neither [!!] nor [!] followed
    by a digit is returned as it is. *)
Theorem expand_bang_other (h : history) (rest : string) :
  String "!" rest <> "!!" ->
  match rest with String d _ => isdigit d = false | "" => True end ->
  expand_bang h (String "!" rest) = Some (String "!" rest).
Proof.
  intros Hneq Hnod. unfold expand_bang.
  apply String.eqb_neq in Hneq. rewrite Hneq.
  destruct rest as [|d t]; [reflexivity|]. now rewrite Hnod.
Qed.

Lemma expand_bang_other_witness :
  "!abc" <> "!!" /\ isdigit "a" = false /\
  expand_bang ["ls -l"; "pwd"] "!abc" = Some "!abc".
Proof.
  assert (Hneq : "!abc" <> "!!") by discriminate.
  split; [exact Hneq|]. split; [reflexivity|].
  exact (expand_bang_other ["ls -l"; "pwd"] "abc" Hneq eq_refl).
Defined.

(** * [map_command]: equal dialects *)

(** C1.  When the source dialect equals the host dialect [map_command]
    returns its input as it is, for every input: the stage is not split, no
    rule is consulted and [strtok] is not run. *)
Theorem map_command_identity (input : string) (dialect : Z) :
  Custard.map_command input dialect dialect = Some input /\
  Custard.map_command_traced input dialect dialect = Some (input, false).
Proof.
  unfold Custard.map_command, Custard.map_command_traced.
  now rewrite Z.eqb_refl.
Qed.

(** The variant with the assistant fallback tests the dialects first too. *)
Lemma gemini_equal_dialects (input : string) (dialect : Z) :
  Gemini.map_command input dialect dialect = Some input.
Proof. unfold Gemini.map_command. now rewrite Z.eqb_refl. Qed.

(** In [cust.c] the test is commented out: the stage is split first, which
    needs a verb that fits the token buffer, and then no block applies. *)
Lemma cust_equal_dialects (input : string) (dialect : Z)
    (fr : string * string) :
  split_first input = Some fr ->
  Cust.map_command input dialect dialect = Some input.
Proof.
  intros Hs. unfold Cust.map_command. rewrite Hs. destruct fr as [first rest].
  destruct (dialect =? 0)%Z; reflexivity.
Qed.

(** * [map_command]: the Linux to Windows rules on concrete stages *)

(** C3, as the code has it.  In ["-la"] the text ["-l"] occurs and ["-a"]
    does not, so the stage [ls -la] takes the rule for [-l] alone; the stage
    [grep foo] has no rule and is wrapped for [bash]; the two are joined
    with [" | "]. *)
Theorem ls_la_pipeline (WIN32 : bool) (h : history) :
  found (strstr "-la" "-l") = true /\
  found (strstr "-la" "-a") = false /\
  Custard.map_command "ls -la" 0 1 = Some "dir -la" /\
  Custard.map_command "grep foo" 0 1
  = Some ("bash -lc " ++ dq ++ "grep foo" ++ dq) /\
  Custard.translate_pipeline WIN32 h "ls -la | grep foo" 0 1
  = ([], Ret ("dir -la | bash -lc " ++ dq ++ "grep foo" ++ dq)).
Proof.
  repeat split; try reflexivity.
  destruct WIN32; vm_compute; reflexivity.
Qed.

(** The translated line is not [dir /a /q -la | grep foo]; it does not even
    start with [dir /a /q]. *)
Lemma ls_la_pipeline_counterexample :
  exists out,
    Custard.translate_pipeline true [] "ls -la | grep foo" 0 1 = ([], Ret out)
    /\ out <> "dir /a /q -la | grep foo"
    /\ starts_with "dir /a /q" out = false.
Proof.
  eexists. split; [vm_compute; reflexivity|].
  split; [discriminate | reflexivity].
Qed.

(** In [cust.c] every [ls] becomes [dir] and a stage without rule is kept. *)
Lemma cust_dir_la_line (WIN32 : bool) (h : history) :
  Cust.translate_pipeline WIN32 h "ls -la | grep foo" 0 1
  = ([], Ret "dir -la | grep foo").
Proof. destruct WIN32; vm_compute; reflexivity. Qed.

(** C4, at the failing stage: [replace_first] takes ["-r"] out of ["-rf
    build"] first, the ["f"] stays, and the search for ["-rf"] that follows
    finds nothing. *)
Theorem rm_rf_keeps_f :
  Custard.map_command "rm -rf build" 0 1 = Some "rmdir /s /q f build" /\
  replace_first "-rf build" "-r" "" = "f build" /\
  replace_first "f build" "-rf" "" = "f build".
Proof. repeat split; vm_compute; reflexivity. Qed.

(** * Writes into the mapping buffer that fit *)

Lemma SETM_fits (text : string) :
  (String.length text < MAPPED_SIZE)%nat -> SETM text = text.
Proof. intros H. unfold SETM, snprintf_buf. apply clip_all. lia. Qed.

Lemma snprintf_fits (cap : nat) (text : string) :
  (String.length text < cap)%nat -> snprintf_buf cap text = text.
Proof. intros H. unfold snprintf_buf. apply clip_all. lia. Qed.

Lemma cat_mapped_fits (mapped s : string) :
  (String.length mapped + String.length s < MAPPED_SIZE)%nat ->
  cat_mapped mapped s = mapped ++ s.
Proof.
  intros H. unfold cat_mapped, strncat_buf. f_equal. apply clip_all. lia.
Qed.

Lemma strncpy_fits (cap : nat) (s : string) :
  (String.length s < cap)%nat -> strncpy_buf cap s = Some s.
Proof.
  intros H. unfold strncpy_buf. apply Nat.ltb_lt in H. now rewrite H.
Qed.

Lemma MAPPED_SIZE_value : MAPPED_SIZE = (2 * MAX_LINE)%nat.
Proof. unfold MAPPED_SIZE. lia. Qed.

(** [APPREST] when the remainder came out of [split_first]. *)
Lemma APPREST_fits (verb rest : string) :
  (String.length verb < MAX_LINE)%nat -> verb <> "" ->
  (String.length rest < MAX_LINE)%nat ->
  APPREST (SETM verb) rest
  = if is_empty rest then verb else verb ++ " " ++ rest.
Proof.
  intros Hv Hne Hr. pose proof MAPPED_SIZE_value as HM.
  rewrite SETM_fits by lia. unfold APPREST.
  destruct (is_empty rest); [reflexivity|].
  apply is_empty_false in Hne. rewrite Hne.
  rewrite (cat_mapped_fits verb " ") by (simpl; lia).
  rewrite cat_mapped_fits by (rewrite length_append; simpl; lia).
  now rewrite append_assoc.
Qed.

Section RuleSelection.

Import Custard.

Lemma linux_rule_rm (input rest : string) :
  linux_to_windows input "rm" rest
  = option_map (fun t => (t, false)) (map_rm rest).
Proof. reflexivity. Qed.

Lemma linux_rule_touch (input rest : string) :
  linux_to_windows input "touch" rest
  = option_map (fun t => (t, false)) (map_touch rest).
Proof. reflexivity. Qed.

(** [map_command] once the stage is split, in the direction Linux to
    Windows and in the direction Windows to Linux. *)
Lemma map_command_linux_to_windows (input first rest : string) :
  split_first input = Some (first, rest) ->
  map_command_traced input 0 1 = linux_to_windows input (lc_copy first) rest.
Proof.
  intros Hs. unfold map_command_traced. rewrite Hs. reflexivity.
Qed.

Lemma map_command_windows_to_linux (input first rest : string) :
  split_first input = Some (first, rest) ->
  map_command input 1 0 = windows_to_linux input (lc_copy first) rest.
Proof.
  intros Hs. unfold map_command, map_command_traced. rewrite Hs.
  cbn [Z.eqb negb andb].
  now destruct (windows_to_linux input (lc_copy first) rest).
Qed.

End RuleSelection.

(** * [trim] and the tokenizer *)

Lemma skip_spaces_no_leading (s : string) : no_leading_space (skip_spaces s).
Proof.
  induction s as [|c s IH]; cbn [skip_spaces]; [exact I|].
  destruct (isspace c) eqn:Hc; [exact IH | exact Hc].
Qed.

Lemma skip_spaces_fixed (s : string) :
  no_leading_space s -> skip_spaces s = s.
Proof. destruct s as [|c s]; cbn; [reflexivity|]. now intros ->. Qed.

Lemma strip_trailing_no_leading (s : string) :
  no_leading_space s -> no_leading_space (strip_trailing s).
Proof.
  destruct s as [|c s]; cbn [strip_trailing no_leading_space]; [exact id|].
  intros Hc. rewrite Hc. exact Hc.
Qed.

Lemma strip_trailing_idempotent (s : string) :
  strip_trailing (strip_trailing s) = strip_trailing s.
Proof.
  induction s as [|c s IH]; cbn [strip_trailing]; [reflexivity|].
  destruct (isspace c && is_empty (strip_trailing s)) eqn:E;
    [reflexivity|].
  cbn [strip_trailing]. now rewrite IH, E.
Qed.

Lemma trim_no_leading (s : string) : no_leading_space (trim s).
Proof. apply strip_trailing_no_leading, skip_spaces_no_leading. Qed.

Lemma trim_idempotent (s : string) : trim (trim s) = trim s.
Proof.
  unfold trim at 1.
  rewrite (skip_spaces_fixed (trim s) (trim_no_leading s)).
  apply strip_trailing_idempotent.
Qed.

Lemma tokens_from_no_delimiter (d : ascii) (s : string) :
  strchr s d = false ->
  forall acc, tokens_from d s acc
              = if is_empty (acc ++ s) then [] else [acc ++ s].
Proof.
  induction s as [|c s IH]; intros Hno acc; cbn [tokens_from].
  - now rewrite append_empty_r.
  - cbn [strchr] in Hno. apply orb_false_iff in Hno as [Hc Hs].
    rewrite Hc, (IH Hs), append_assoc. reflexivity.
Qed.

Lemma strtok_all_single (d : ascii) (s : string) :
  strchr s d = false -> s <> "" -> strtok_all s d = [s].
Proof.
  intros Hno Hne. unfold strtok_all.
  rewrite (tokens_from_no_delimiter d s Hno ""). cbn [append].
  apply is_empty_false in Hne. now rewrite Hne.
Qed.

(** * The pipeline loop *)

Section PipelineFacts.

Variable handle_builtin_pipeline : string -> run bool.
Variable map_command_traced : string -> Z -> Z -> option (string * bool).
Variable STRTOK_is_strtok : bool.

(** A line that is a single stage: no pipe, nothing to trim. *)
Lemma translate_single_stage (line mapped : string) (ran : bool)
    (source_is_windows host_is_windows : Z) :
  strchr line "|" = false ->
  trim line = line -> line <> "" ->
  handle_builtin_pipeline line = ([], Ret false) ->
  map_command_traced line source_is_windows host_is_windows
  = Some (mapped, ran) ->
  translate_pipeline_of handle_builtin_pipeline map_command_traced
                     STRTOK_is_strtok line source_is_windows host_is_windows
  = ([], Ret (clip (MAPPED_SIZE - 1) mapped)).
Proof.
  intros Hpipe Htrim Hne Hb Hm. unfold translate_pipeline_of.
  rewrite (strtok_all_single "|" line Hpipe Hne).
  cbn [pipeline_loop]. rewrite Htrim.
  apply is_empty_false in Hne. rewrite Hne. cbn [negb].
  rewrite Hb. cbn [bind_run]. rewrite Hm. cbn [lift_option bind_run fst snd].
  unfold strncat_buf. cbn [String.length append].
  rewrite Nat.sub_0_r.
  destruct (STRTOK_is_strtok && ran); reflexivity.
Qed.

End PipelineFacts.

(** * Stages of the session loop that end in a note *)

Section Notes.

Import Custard.

(** A line whose first character is [!] has a verb that starts with
    [!]. *)
Lemma split_first_bang (l first rest : string) :
  split_first (String "!" l) = Some (first, rest) ->
  exists tok, first = String "!" tok.
Proof.
  unfold split_first, split_first_buf.
  cbn [skip_spaces]. change (isspace "!") with false. cbv iota.
  change (Ascii.eqb "!" "'" || Ascii.eqb "!" DQ) with false. cbv iota.
  cbn [span_until]. change (isspace "!") with false. cbv iota.
  destruct (span_until isspace l) as [tok after].
  destruct (_ && _); [|discriminate].
  intros H. injection H as H _. now exists tok.
Qed.

Lemma handle_builtin_passes (WIN32 : bool) (h : history)
    (line first rest : string) :
  split_first line = Some (first, rest) ->
  passes_builtins (lc_copy first) = true ->
  handle_builtin_pipeline WIN32 h line = ([], Ret false).
Proof.
  intros Hs Hp. unfold handle_builtin_pipeline. rewrite Hs.
  cbn [lift_option bind_run fst].
  unfold passes_builtins in Hp. apply negb_true_iff in Hp.
  repeat (apply orb_false_iff in Hp; destruct Hp as [Hp ?]).
  repeat match goal with H : (_ =? _) = false |- _ => rewrite H; clear H end.
  reflexivity.
Qed.

(** A plain line of a single stage whose translation starts as a note:
    the turn prints the prompt and the note, records the line and runs
    nothing. *)
Lemma session_note_turn (WIN32 : bool) (host : string -> Z)
    (source_is_windows : Z) (h : history)
    (raw first rest mapped : string) (ran : bool) :
  let line := trim raw in
  (String.length line < MAX_LINE)%nat ->
  plain_line line = true ->
  strchr line "|" = false ->
  split_first line = Some (first, rest) ->
  passes_builtins (lc_copy first) = true ->
  map_command_traced line source_is_windows (HOST_IS_WINDOWS WIN32)
  = Some (mapped, ran) ->
  (String.length mapped < MAPPED_SIZE)%nat ->
  starts_with "rem " mapped || starts_with "true" mapped
  || starts_with "echo " mapped = true ->
  session_turn WIN32 host source_is_windows h raw
  = ([Print (if (source_is_windows =? 0)%Z then "bash> " else "cmd> ");
      Print ("[Translated note] " ++ mapped ++ nl)],
     add_history h (Some line), Ret Continue).
Proof.
  intros line Hlen Hplain Hpipe Hs Hp Hm Hfit Hnote.
  unfold session_turn. fold line.
  unfold plain_line in Hplain. apply negb_true_iff in Hplain.
  repeat (apply orb_false_iff in Hplain; destruct Hplain as [Hplain ?]).
  repeat match goal with
         | H : (_ =? _) = false |- _ => rewrite H; clear H
         | H : starts_with "!" line = false |- _ => rewrite H
         end.
  rewrite Hplain. cbn [orb].
  rewrite (strncpy_fits MAX_LINE line Hlen), Hs.
  pose proof Hp as Hp'. unfold passes_builtins in Hp'.
  apply negb_true_iff in Hp'.
  repeat (apply orb_false_iff in Hp'; destruct Hp' as [Hp' ?]).
  repeat match goal with
         | H : (_ =? _) = false |- _ => rewrite H; clear H
         end.
  cbn [orb].
  unfold translate_pipeline.
  rewrite (translate_single_stage _ _ _ line mapped ran);
    [ | assumption | apply trim_idempotent
      | now apply is_empty_false
      | now apply handle_builtin_passes with first rest
      | assumption ].
  rewrite clip_all by lia. rewrite Hnote. reflexivity.
Qed.

End Notes.

Section NoteStages.

Import Custard.

(** A line is plain as soon as its verb is none of the words that the
    session loop answers itself. *)
Lemma plain_line_verb (line first rest : string) :
  split_first line = Some (first, rest) ->
  lc_copy first <> "" -> lc_copy first <> "help" ->
  lc_copy first <> "ctrl" -> lc_copy first <> "ctrl+c" ->
  lc_copy first <> "ctrl+d" -> lc_copy first <> "ctrl+z" ->
  starts_with "!" (lc_copy first) = false ->
  plain_line line = true.
Proof.
  intros Hs H0 H1 H2 H3 H4 H5 H6.
  assert (Hconst : forall text verb : string,
             line = text ->
             option_map (fun fr => lc_copy (fst fr)) (split_first text)
             = Some verb ->
             lc_copy first = verb).
  { intros text verb -> Hv. rewrite Hs in Hv. cbn in Hv. congruence. }
  unfold plain_line. apply negb_true_iff.
  repeat (apply orb_false_iff; split).
  - destruct (is_empty line) eqn:E; [|reflexivity].
    apply is_empty_true in E. elim H0. now apply (Hconst "").
  - apply String.eqb_neq. intros E. elim H1. now apply (Hconst "help").
  - apply String.eqb_neq. intros E. elim H2. now apply (Hconst "CTRL + C").
  - apply String.eqb_neq. intros E. elim H3. now apply (Hconst "CTRL+C").
  - apply String.eqb_neq. intros E. elim H2. now apply (Hconst "CTRL + D").
  - apply String.eqb_neq. intros E. elim H4. now apply (Hconst "CTRL+D").
  - apply String.eqb_neq. intros E. elim H2. now apply (Hconst "CTRL + Z").
  - apply String.eqb_neq. intros E. elim H5. now apply (Hconst "CTRL+Z").
  - destruct line as [|c l]; [reflexivity|].
    cbn [starts_with]. rewrite andb_true_r.
    destruct (Ascii.eqb "!" c) eqn:E; [|reflexivity].
    apply Ascii.eqb_eq in E. subst c.
    destruct (split_first_bang l first rest Hs) as [tok ->].
    cbn in H6. discriminate.
Qed.

(** C5.  Under Linux to Windows a [touch] stage with a remainder becomes
    [type nul > <file>], the file being the trimmed remainder; without a
    remainder it becomes the note [rem touch: missing filename], and a
    line that consists of that stage is not run: the turn of the session
    loop prints the note and hands nothing to the host shell. *)
Theorem touch_rule :
  (forall input first rest : string,
     split_first input = Some (first, rest) ->
     lc_copy first = "touch" -> rest <> "" ->
     map_command input 0 1 = Some ("type nul > " ++ trim rest)) /\
  (forall input first : string,
     split_first input = Some (first, "") ->
     lc_copy first = "touch" ->
     map_command input 0 1 = Some "rem touch: missing filename") /\
  found (strstr "rem touch: missing filename" "missing filename") = true /\
  (forall (host : string -> Z) (h : history) (raw first : string),
     (String.length raw < MAX_LINE)%nat ->
     strchr (trim raw) "|" = false ->
     split_first (trim raw) = Some (first, "") ->
     lc_copy first = "touch" ->
     session_turn true host 0 h raw
     = ([Print "bash> ";
         Print ("[Translated note] rem touch: missing filename" ++ nl)],
        add_history h (Some (trim raw)), Ret Continue)).
Proof.
  assert (Hempty : forall input first : string,
             split_first input = Some (first, "") ->
             lc_copy first = "touch" ->
             map_command_traced input 0 1
             = Some ("rem touch: missing filename", false)).
  { intros input first Hs Hv.
    rewrite (map_command_linux_to_windows input first "" Hs), Hv.
    reflexivity. }
  split; [|split; [|split; [reflexivity|]]].
  - intros input first rest Hs Hv Hrest.
    destruct (split_first_rest_length input first rest Hs) as [_ Hlen].
    unfold map_command.
    rewrite (map_command_linux_to_windows input first rest Hs), Hv.
    rewrite linux_rule_touch. unfold map_touch.
    apply is_empty_false in Hrest. rewrite Hrest. cbn [negb].
    rewrite (strncpy_fits MAX_LINE rest Hlen).
    pose proof (length_trim rest) as Ht.
    pose proof MAPPED_SIZE_value as HM. unfold MAX_LINE in HM, Hlen.
    rewrite (SETM_fits "type nul >") by (cbn [String.length]; lia).
    rewrite (cat_mapped_fits "type nul >" " ")
      by (cbn [String.length]; lia).
    rewrite cat_mapped_fits by (cbn [String.length append]; lia).
    reflexivity.
  - intros input first Hs Hv. unfold map_command.
    now rewrite (Hempty input first Hs Hv).
  - intros host h raw first Hlen Hpipe Hs Hv.
    apply (session_note_turn true host 0 h raw first ""
             "rem touch: missing filename" false).
    + pose proof (length_trim raw). lia.
    + apply (plain_line_verb (trim raw) first "" Hs);
        rewrite Hv; (discriminate || reflexivity).
    + exact Hpipe.
    + exact Hs.
    + rewrite Hv. reflexivity.
    + exact (Hempty (trim raw) first Hs Hv).
    + rewrite MAPPED_SIZE_value. unfold MAX_LINE. cbn [String.length]. lia.
    + reflexivity.
Qed.

Lemma touch_rule_witness :
  map_command "touch notes.txt" 0 1 = Some "type nul > notes.txt" /\
  map_command "touch" 0 1 = Some "rem touch: missing filename" /\
  session_turn true (fun _ => 0) 0 ["ls"] ("touch" ++ nl)
  = ([Print "bash> ";
      Print ("[Translated note] rem touch: missing filename" ++ nl)],
     ["ls"; "touch"], Ret Continue).
Proof.
  destruct touch_rule as (Hfile & Hnone & _ & Hturn).
  split; [|split].
  - exact (Hfile "touch notes.txt" "touch" "notes.txt" eq_refl eq_refl
             ltac:(discriminate)).
  - exact (Hnone "touch" "touch" eq_refl eq_refl).
  - exact (Hturn (fun _ => 0) ["ls"] ("touch" ++ nl) "touch"
             ltac:(vm_compute; lia) eq_refl eq_refl eq_refl).
Defined.

(** The stage [touch] inside a longer line.  The loop of [main] tests the
    start of the whole translated line, here [dir | rem touch: missing
    filename], so the line is run, and the Windows execution block hands
    the note to the host shell as a command of its own. *)
Lemma touch_rule_counterexample :
  map_command "touch" 0 1 = Some "rem touch: missing filename" /\
  stages "ls | touch" = ["ls"; "touch"] /\
  commands_run
    (fst (fst (session_turn true (fun _ => 0) 0 [] ("ls | touch" ++ nl))))
  = [ "cmd /C " ++ dq ++ "dir " ++ dq;
      "cmd /C " ++ dq ++ "rem touch: missing filename" ++ dq ].
Proof. repeat split; vm_compute; reflexivity. Qed.



End NoteStages.

(** * [map_command]: stages without a rule *)

Section Fallback.

Import Custard.

Lemma tolower_not_upper_C (c : ascii) : tolower c <> "C"%char.
Proof.
  destruct c as [[] [] [] [] [] [] [] []]; vm_compute; discriminate.
Qed.

(** The rule that compares the lowercased verb with ["Compress-Archive"]
    never fires. *)
Lemma lc_copy_not_Compress_Archive (s : string) :
  (lc_copy s =? "Compress-Archive") = false.
Proof.
  apply String.eqb_neq. destruct s as [|c s]; cbn [lc_copy];
    [discriminate|].
  intros E. injection E as E _. exact (tolower_not_upper_C c E).
Qed.

Ltac split_orb_false H :=
  repeat match type of H with
         | (_ || _) = false =>
             let H1 := fresh "Hno" in
             apply orb_false_iff in H; destruct H as [H1 H];
             try split_orb_false H1
         end.

Ltac rewrite_false :=
  repeat match goal with
         | H : (_ =? _) = false |- _ => rewrite H; clear H
         end.

Lemma no_windows_rule (input verb rest : string) :
  has_windows_rule verb = false ->
  (verb =? "Compress-Archive") = false ->
  windows_to_linux input verb rest = Some input.
Proof.
  intros H HC. unfold has_windows_rule, windows_rule_verbs in H.
  cbn [existsb] in H. split_orb_false H. clear H.
  unfold windows_to_linux. rewrite_false. reflexivity.
Qed.

Lemma no_linux_rule (input verb rest : string) :
  has_linux_rule verb rest = false ->
  linux_to_windows input verb rest
  = Some (if starts_with "!" verb then input
          else snprintf_buf MAPPED_SIZE ("bash -lc " ++ dq ++ input ++ dq),
          false).
Proof.
  intros H. unfold has_linux_rule, linux_rule_verbs in H.
  cbn [existsb] in H. apply orb_false_iff in H as [H Hip].
  split_orb_false H. clear H.
  unfold linux_to_windows. rewrite_false. cbn [orb]. rewrite Hip.
  destruct (starts_with "!" verb); reflexivity.
Qed.
(** C2, as the code has it.  A stage whose verb has no rule comes back
    as it is under Windows to Linux.  Under Linux to Windows it comes back
    as it is only when the verb starts with [!]; otherwise it is wrapped as
    [bash -lc "<stage>"] (whole, when the stage fits a line buffer).  The
    result is a text in each case, and not the empty one unless the stage
    is empty. *)
Theorem unmapped_fallback (input first rest : string) :
  split_first input = Some (first, rest) ->
  (has_windows_rule (lc_copy first) = false ->
   map_command input 1 0 = Some input) /\
  (has_linux_rule (lc_copy first) rest = false ->
   starts_with "!" (lc_copy first) = true ->
   map_command input 0 1 = Some input) /\
  (has_linux_rule (lc_copy first) rest = false ->
   starts_with "!" (lc_copy first) = false ->
   (String.length input < MAX_LINE)%nat ->
   map_command input 0 1 = Some ("bash -lc " ++ dq ++ input ++ dq)) /\
  (has_linux_rule (lc_copy first) rest = false ->
   map_command input 0 1 <> Some "") /\
  (has_windows_rule (lc_copy first) = false -> input <> "" ->
   map_command input 1 0 <> Some "").
Proof.
  intros Hs.
  assert (HW : has_windows_rule (lc_copy first) = false ->
               map_command input 1 0 = Some input).
  { intros H. rewrite (map_command_windows_to_linux input first rest Hs).
    apply no_windows_rule; [exact H | apply lc_copy_not_Compress_Archive]. }
  assert (HL : has_linux_rule (lc_copy first) rest = false ->
               map_command input 0 1
               = Some (if starts_with "!" (lc_copy first) then input
                       else snprintf_buf MAPPED_SIZE
                              ("bash -lc " ++ dq ++ input ++ dq))).
  { intros H. unfold map_command.
    rewrite (map_command_linux_to_windows input first rest Hs).
    now rewrite (no_linux_rule input (lc_copy first) rest H). }
  split; [exact HW|]. split; [|split; [|split]].
  - intros H Hbang. rewrite (HL H), Hbang. reflexivity.
  - intros H Hbang Hlen. rewrite (HL H), Hbang. f_equal.
    apply snprintf_fits. rewrite MAPPED_SIZE_value.
    rewrite !length_append. unfold dq, MAX_LINE in *.
    cbn [String.length]. lia.
  - intros H. rewrite (HL H).
    destruct (starts_with "!" (lc_copy first)) eqn:Hbang.
    + intros E. injection E as E. subst input.
      vm_compute in Hs. injection Hs as <- _. discriminate.
    + unfold snprintf_buf.
      replace (MAPPED_SIZE - 1)%nat with (S (MAPPED_SIZE - 2))
        by (rewrite MAPPED_SIZE_value; unfold MAX_LINE; lia).
      discriminate.
  - intros H Hne. rewrite (HW H). congruence.
Qed.

Lemma unmapped_fallback_witness :
  map_command "xcopy a b" 1 0 = Some "xcopy a b" /\
  map_command "!grep" 0 1 = Some "!grep" /\
  map_command "grep foo" 0 1 = Some ("bash -lc " ++ dq ++ "grep foo" ++ dq).
Proof.
  split; [|split].
  - exact (proj1 (unmapped_fallback "xcopy a b" "xcopy" "a b" eq_refl)
             eq_refl).
  - exact (proj1 (proj2 (unmapped_fallback "!grep" "!grep" "" eq_refl))
             eq_refl eq_refl).
  - exact (proj1 (proj2 (proj2
             (unmapped_fallback "grep foo" "grep" "foo" eq_refl)))
             eq_refl eq_refl ltac:(vm_compute; lia)).
Defined.

(** The pair ([grep], [foo]) is in neither table, the dialects differ, and
    the stage does not come back as it was. *)
Lemma unmapped_fallback_counterexample :
  split_first "grep foo" = Some ("grep", "foo") /\
  has_linux_rule "grep" "foo" = false /\
  has_windows_rule "grep" = false /\
  map_command "grep foo" 0 1 = Some ("bash -lc " ++ dq ++ "grep foo" ++ dq) /\
  map_command "grep foo" 0 1 <> Some "grep foo".
Proof.
  repeat split; try reflexivity. vm_compute. discriminate.
Qed.

(** The variant with the assistant fallback answers such a stage with a
    canned sentence, and [cust.c] returns it as it is. *)
Lemma gemini_unmapped :
  Gemini.map_command "grep foo" 0 1
  = Some "Gemini AI: I don't know 'grep foo' on Windows. Suggest checking documentation or OS-specific command."
  /\ Cust.map_command "grep foo" 0 1 = Some "grep foo".
Proof. split; vm_compute; reflexivity. Qed.

End Fallback.

(** * The pipeline as a join *)

Lemma concat_snoc (sep : string) (done : list string) (seg : string) :
  done <> [] ->
  String.concat sep (done ++ [seg]) = String.concat sep done ++ sep ++ seg.
Proof.
  induction done as [|x done IH]; [congruence|]. intros _.
  destruct done as [|y done].
  - reflexivity.
  - change (String.concat sep ((x :: y :: done) ++ [seg]))
      with (x ++ sep ++ String.concat sep ((y :: done) ++ [seg])).
    rewrite IH by discriminate.
    change (String.concat sep (x :: y :: done))
      with (x ++ sep ++ String.concat sep (y :: done)).
    now rewrite !append_assoc.
Qed.

(** A bounded append onto a clipped text is the clipped whole. *)
Lemma strncat_clip (cap : nat) (a x : string) :
  strncat_buf cap (clip (cap - 1) a) x = clip (cap - 1) (a ++ x).
Proof.
  unfold strncat_buf.
  replace (cap - String.length (clip (cap - 1) a) - 1)%nat
    with (cap - 1 - String.length (clip (cap - 1) a))%nat by lia.
  generalize (cap - 1)%nat. intros n. revert n.
  induction a as [|c a IH]; intros n; cbn [clip append String.length].
  - now rewrite Nat.sub_0_r.
  - destruct n as [|n]; cbn [clip append String.length].
    + now destruct x.
    + now rewrite <- IH.
Qed.

Lemma snd_bind_run {A B} (ev : list event) (a : A) (k : A -> run B) :
  snd (bind_run (ev, Ret a) k) = snd (k a).
Proof. cbn. now destruct (k a). Qed.

Section PipelineJoin.

Variable handle_builtin_pipeline : string -> run bool.
Variable map_command_traced : string -> Z -> Z -> option (string * bool).
Variable STRTOK_is_strtok : bool.
Variables source_is_windows host_is_windows : Z.

(** Whether the dispatcher of the file reports the stage as handled. *)
Let handled (stage : string) : bool :=
  match snd (handle_builtin_pipeline stage) with
  | Ret true => true
  | _ => false
  end.

(** The stage is translated to [seg], without a run of [strtok] that the
    loop's own tokenizer would feel. *)
Let maps_to (stage seg : string) : Prop :=
  exists ran, map_command_traced stage source_is_windows host_is_windows
              = Some (seg, ran)
              /\ STRTOK_is_strtok && ran = false.

Lemma pipeline_loop_join (tokens : list string) :
  forall (done segs : list string) (first : bool),
    first = match done with [] => true | _ => false end ->
    Forall (fun stage => exists b, snd (handle_builtin_pipeline stage) = Ret b)
           (filter nonempty (map trim tokens)) ->
    Forall2 maps_to
            (filter (fun stage => negb (handled stage))
                    (filter nonempty (map trim tokens)))
            segs ->
    snd (pipeline_loop handle_builtin_pipeline map_command_traced
                       STRTOK_is_strtok source_is_windows host_is_windows
                       tokens
                       (clip (MAPPED_SIZE - 1) (String.concat " | " done))
                       first)
    = Ret (clip (MAPPED_SIZE - 1) (String.concat " | " (done ++ segs))).
Proof.
  induction tokens as [|token tokens IH]; intros done segs first Hfirst Hok Hmap.
  - cbn in Hmap. inversion Hmap. subst. now rewrite app_nil_r.
  - cbn [pipeline_loop]. cbn [map filter] in Hok, Hmap.
    assert (Hn : nonempty (trim token) = negb (is_empty (trim token)))
      by reflexivity.
    rewrite Hn in Hok, Hmap. clear Hn.
    destruct (is_empty (trim token)); cbn [negb] in *.
    + now apply IH.
    + inversion Hok as [|st sts [b Hb] Hok']. subst st sts.
      cbn [filter] in Hmap. unfold handled at 1 in Hmap. rewrite Hb in Hmap.
      destruct (handle_builtin_pipeline (trim token)) as [ev r].
      cbn [snd] in Hb. subst r. rewrite snd_bind_run.
      destruct b; cbn [negb] in Hmap.
      * now apply IH.
      * inversion Hmap as [|st seg sts segs' [ran [Hm Hran]] Hmap'].
        subst st sts segs.
        rewrite Hm. cbn [lift_option]. rewrite snd_bind_run. cbn [fst snd].
        rewrite Hran.
        destruct done as [|d done]; subst first.
        -- change (String.concat " | " []) with "".
           rewrite (strncat_clip MAPPED_SIZE "" seg).
           apply (IH [seg] segs' false); [reflexivity | assumption..].
        -- rewrite !strncat_clip.
           rewrite append_assoc, <- concat_snoc by discriminate.
           rewrite (IH ((d :: done) ++ [seg])%list segs' false);
             [ now rewrite <- app_assoc | reflexivity | assumption.. ].
Qed.

End PipelineJoin.

Section CustardPipeline.

Import Custard.

(** The dispatcher answers by the verb alone. *)
Lemma handle_builtin_snd (WIN32 : bool) (h : history) (stage : string) :
  verb_of stage <> None -> ends_session stage = false ->
  snd (handle_builtin_pipeline WIN32 h stage) = Ret (intercepted stage).
Proof.
  unfold ends_session, intercepted, verb_of, handle_builtin_pipeline.
  destruct (split_first stage) as [[first rest]|]; [|cbn; congruence].
  intros _. cbn [option_map fst lift_option bind_run].
  destruct (lc_copy first =? "help"); [reflexivity|].
  intros Hend. rewrite Hend. cbn [orb].
  destruct (lc_copy first =? "history"); [reflexivity|].
  destruct (lc_copy first =? "clear"); reflexivity.
Qed.

Lemma map_command_traced_of (stage seg : string) (s hw : Z) :
  map_command stage s hw = Some seg ->
  map_command_traced stage s hw
  = Some (seg, map_command_ran_strtok stage s hw).
Proof.
  unfold map_command, map_command_ran_strtok.
  destruct (map_command_traced stage s hw) as [[t ran]|]; cbn;
    [|discriminate].
  now intros [= ->].
Qed.

(** C7, as the code has it.  Let no stage of the line name [exit] or
    [quit] or carry a verb too long to split, let [map_command] return on
    each stage that is not intercepted, and, in a build where [STRTOK] is
    [strtok], let none of these stages run [strtok] itself.  Then the
    translated line is the [" | "]-join of the translations of exactly the
    non-empty stages that are not intercepted, one each and in order, cut
    to what the buffer holds; it is the whole join when that fits, and the
    empty text when no stage is left. *)
Theorem translate_pipeline_join (WIN32 : bool) (h : history) (line : string)
    (s hw : Z) (segs : list string) :
  forallb (fun stage => match verb_of stage with Some _ => true | None => false end
                        && negb (ends_session stage))
          (stages line) = true ->
  map (fun stage => map_command stage s hw) (translated_stages line)
  = map Some segs ->
  forallb (fun stage => negb (WIN32 && map_command_ran_strtok stage s hw))
          (translated_stages line) = true ->
  snd (translate_pipeline WIN32 h line s hw)
  = Ret (clip (MAPPED_SIZE - 1) (String.concat " | " segs)) /\
  List.length segs = List.length (translated_stages line) /\
  ((String.length (String.concat " | " segs) < MAPPED_SIZE)%nat ->
   snd (translate_pipeline WIN32 h line s hw)
   = Ret (String.concat " | " segs)) /\
  (translated_stages line = [] ->
   snd (translate_pipeline WIN32 h line s hw) = Ret "").
Proof.
  intros Hok Hmap Hran.
  assert (Hhandle : forall stage, In stage (stages line) ->
            snd (handle_builtin_pipeline WIN32 h stage)
            = Ret (intercepted stage)).
  { intros stage Hin. rewrite forallb_forall in Hok.
    specialize (Hok stage Hin). apply andb_true_iff in Hok as [Hv He].
    apply handle_builtin_snd.
    - destruct (verb_of stage); [discriminate | discriminate].
    - now apply negb_true_iff. }
  assert (Hjoin : snd (translate_pipeline WIN32 h line s hw)
                  = Ret (clip (MAPPED_SIZE - 1) (String.concat " | " segs))).
  { unfold translate_pipeline, translate_pipeline_of.
    change "" with (clip (MAPPED_SIZE - 1) (String.concat " | " [])) at 1.
    rewrite (pipeline_loop_join (handle_builtin_pipeline WIN32 h)
               map_command_traced WIN32 s hw (strtok_all line "|")
               [] segs true); [reflexivity | reflexivity | | ].
    - apply Forall_forall. intros stage Hin.
      exists (intercepted stage). now apply Hhandle.
    - fold (stages line).
      rewrite (filter_ext_in _ (fun stage => negb (intercepted stage)))
        by (intros stage Hin; now rewrite (Hhandle stage Hin);
            destruct (intercepted stage)).
      fold (translated_stages line).
      revert segs Hmap Hran.
      induction (translated_stages line) as [|stage sts IH];
        intros [|seg segs] Hmap Hran; try discriminate; constructor.
      + cbn [map] in Hmap. injection Hmap as Hm Hmap.
        cbn [forallb] in Hran. apply andb_true_iff in Hran as [Hr Hran].
        exists (map_command_ran_strtok stage s hw). split.
        * now apply map_command_traced_of.
        * now apply negb_true_iff.
      + cbn [map] in Hmap. injection Hmap as Hm Hmap.
        cbn [forallb] in Hran. apply andb_true_iff in Hran as [Hr Hran].
        now apply IH. }
  assert (Hlen : List.length segs = List.length (translated_stages line)).
  { apply (f_equal (@List.length _)) in Hmap.
    now rewrite !length_map in Hmap. }
  repeat split.
  - exact Hjoin.
  - exact Hlen.
  - intros Hfit. rewrite Hjoin. now rewrite clip_all by lia.
  - intros Hnone. rewrite Hjoin. rewrite Hnone in Hlen.
    destruct segs; [reflexivity | discriminate].
Qed.

(** Two translated stages around an empty one and an intercepted one. *)
Lemma translate_pipeline_join_witness :
  snd (translate_pipeline true [] "ls -la |  | clear | grep foo" 0 1)
  = Ret (String.concat " | "
           ["dir -la"; "bash -lc " ++ dq ++ "grep foo" ++ dq]) /\
  translated_stages "ls -la |  | clear | grep foo" = ["ls -la"; "grep foo"].
Proof.
  split; [|reflexivity].
  refine (proj1 (proj2 (proj2
            (translate_pipeline_join true [] "ls -la |  | clear | grep foo"
               0 1 ["dir -la"; "bash -lc " ++ dq ++ "grep foo" ++ dq]
               _ _ _))) _).
  - vm_compute. reflexivity.
  - vm_compute. reflexivity.
  - vm_compute. reflexivity.
  - vm_compute. lia.
Defined.

(** The single stage [free] is translated to a text that holds a pipe of
    its own: one stage in, two [" | "]-joined segments out. *)
Lemma segment_count_counterexample :
  exists out,
    translate_pipeline true [] "free" 0 1 = ([], Ret out) /\
    translated_stages "free" = ["free"] /\
    count_segments out = 2%nat.
Proof.
  eexists. split; [vm_compute; reflexivity|].
  split; vm_compute; reflexivity.
Qed.

(** The session loop of a Windows build cuts the translated line at every
    pipe: for the line [free] it runs two commands. *)
Lemma free_runs_two_commands :
  filter (fun e => match e with System _ => true | Print _ => false end)
         (fst (fst (session_turn true (fun _ => 0) 0 [] ("free" ++ nl))))
  = [ System ("cmd /C " ++ dq ++ "systeminfo " ++ dq);
      System ("cmd /C " ++ dq ++ "findstr /C:" ++ dq ++ "Total Physical Memory"
              ++ dq ++ " /C:" ++ dq ++ "Available" ++ dq ++ dq) ].
Proof. vm_compute. reflexivity. Qed.

(** Under Windows to Linux the stage [powershell] alone is translated to
    the empty text: the line is empty although a stage was translated. *)
Lemma empty_segment :
  translate_pipeline false [] "powershell" 1 0 = ([], Ret "") /\
  translated_stages "powershell" = ["powershell"].
Proof. split; vm_compute; reflexivity. Qed.

(** In a Windows build the rule for [tail -n] walks [strtok] to the end of
    its own buffer, and the loop finds no further stage; with [strtok_r]
    the second stage is there. *)
Lemma tail_n_ends_the_loop :
  translate_pipeline true [] "tail -n 5 x.log | sort" 0 1
  = ([], Ret ("powershell -Command " ++ dq ++ "Get-Content x.log -Tail 5" ++ dq))
  /\ translate_pipeline false [] "tail -n 5 x.log | sort" 0 1
     = ([], Ret ("powershell -Command " ++ dq ++ "Get-Content x.log -Tail 5"
                 ++ dq ++ " | bash -lc " ++ dq ++ "sort" ++ dq))
  /\ translated_stages "tail -n 5 x.log | sort" = ["tail -n 5 x.log"; "sort"].
Proof. repeat split; vm_compute; reflexivity. Qed.

End CustardPipeline.

(** * The [rm] rule where it does what the table says *)

Lemma starts_with_rf_r (s : string) :
  starts_with "-rf" s = true -> starts_with "-r" s = true.
Proof.
  destruct s as [|a [|b s]]; cbn [starts_with]; try discriminate.
  - intros H. apply andb_true_iff in H as [_ H]. discriminate.
  - intros H. apply andb_true_iff in H as [Ha H].
    apply andb_true_iff in H as [Hb _]. now rewrite Ha, Hb.
Qed.

Lemma strstr_rf_r (s : string) :
  strstr s "-r" = None -> strstr s "-rf" = None.
Proof.
  induction s as [|c s IH]; [reflexivity|].
  cbn [strstr]. pose proof (starts_with_rf_r (String c s)) as Hp.
  destruct (starts_with "-r" (String c s)); [discriminate|].
  destruct (starts_with "-rf" (String c s));
    [specialize (Hp eq_refl); discriminate|].
  destruct (strstr s "-r"); [discriminate|].
  intros _. now rewrite IH.
Qed.

(** Without ["-r"] in the remainder the stage becomes [del <rest>]; with it,
    [rmdir /s /q] followed by the remainder less its first ["-r"] (and less
    a ["-rf"] that is still there after that). *)
Lemma rm_rule (input first rest : string) :
  split_first input = Some (first, rest) ->
  lc_copy first = "rm" ->
  (strstr rest "-r" = None ->
   Custard.map_command input 0 1
   = Some (if is_empty rest then "del" else "del " ++ rest)) /\
  (found (strstr rest "-r") = true ->
   Custard.map_command input 0 1
   = Some (cat_if_any "rmdir /s /q"
             (replace_first (replace_first rest "-r" "") "-rf" ""))).
Proof.
  intros Hs Hv.
  destruct (split_first_rest_length input first rest Hs) as [_ Hlen].
  unfold Custard.map_command.
  rewrite (map_command_linux_to_windows input first rest Hs), Hv.
  rewrite linux_rule_rm. unfold Custard.map_rm. split.
  - intros Hno. rewrite Hno, (strstr_rf_r rest Hno). cbn [found orb option_map fst].
    f_equal. rewrite (APPREST_fits "del" rest);
      [reflexivity | unfold MAX_LINE; cbn [String.length]; lia
       | discriminate | exact Hlen].
  - intros Hyes. rewrite Hyes. cbn [orb].
    rewrite (strncpy_fits MAX_LINE rest Hlen). reflexivity.
Qed.

Example rm_r_build :
  Custard.map_command "rm -r build" 0 1 = Some "rmdir /s /q  build" /\
  Custard.map_command "rm notes.txt" 0 1 = Some "del notes.txt".
Proof. split; vm_compute; reflexivity. Qed.

(** * Further properties of the helpers *)

Lemma Ret_inj {A} (a b : A) : Ret a = Ret b -> a = b.
Proof. now intros [= ->]. Qed.

Lemma Some_pair_inj {A B} (a a' : A) (b b' : B) :
  Some (a, b) = Some (a', b') -> a = a' /\ b = b'.
Proof. now intros [= -> ->]. Qed.

Lemma pair_inj {A B} (a a' : A) (b b' : B) :
  (a, b) = (a', b') -> a = a' /\ b = b'.
Proof. now intros [= -> ->]. Qed.


Lemma skip_spaces_split (s : string) :
  exists a, s = a ++ skip_spaces s /\ blank a = true.
Proof.
  induction s as [|c s (a & Ha & Hb)]; [now exists ""|].
  cbn [skip_spaces]. destruct (isspace c) eqn:Hc.
  - exists (String c a). cbn. rewrite <- Ha. split; [reflexivity|].
    unfold blank in *. cbn. now rewrite Hc.
  - now exists "".
Qed.

Lemma strip_trailing_split (s : string) :
  exists b, s = strip_trailing s ++ b /\ blank b = true.
Proof.
  induction s as [|c s (b & Hb & Hs)]; [now exists ""|].
  cbn [strip_trailing].
  destruct (isspace c && is_empty (strip_trailing s)) eqn:E.
  - apply andb_true_iff in E as [Hc He]. apply is_empty_true in He.
    rewrite He in Hb. cbn in Hb. subst s.
    exists (String c b). split; [reflexivity|].
    unfold blank in *. cbn. now rewrite Hc.
  - exists b. cbn. now rewrite <- Hb.
Qed.

Lemma strip_trailing_last (s : string) : no_trailing_space (strip_trailing s).
Proof.
  unfold no_trailing_space.
  induction s as [|c s IH]; cbn [strip_trailing]; [exact I|].
  destruct (isspace c && is_empty (strip_trailing s)) eqn:E; [exact I|].
  destruct (strip_trailing s) as [|d r] eqn:Hr.
  - cbn. cbn in E. now rewrite andb_true_r in E.
  - exact IH.
Qed.

Lemma blank_skip_spaces (s : string) : blank s = true -> skip_spaces s = "".
Proof.
  induction s as [|c s IH]; [reflexivity|]. unfold blank. cbn.
  intros H. apply andb_true_iff in H as [Hc Hs]. rewrite Hc. now apply IH.
Qed.

(** X1.  [trim] takes off white space at both ends and nothing else: the
    text is the trimmed text between two runs of white space, the trimmed
    text neither starts nor ends with white space, trimming again changes
    nothing, and a text of white space alone becomes empty. *)
Theorem trim_takes_off_the_ends (s : string) :
  (exists a b, s = a ++ trim s ++ b /\ blank a = true /\ blank b = true) /\
  no_leading_space (trim s) /\
  no_trailing_space (trim s) /\
  trim (trim s) = trim s /\
  (blank s = true -> trim s = "").
Proof.
  split; [|split; [|split; [|split]]].
  - destruct (skip_spaces_split s) as (a & Ha & Hba).
    destruct (strip_trailing_split (skip_spaces s)) as (b & Hb & Hbb).
    exists a, b. unfold trim. now rewrite <- Hb.
  - apply trim_no_leading.
  - apply strip_trailing_last.
  - apply trim_idempotent.
  - intros H. unfold trim. now rewrite (blank_skip_spaces s H).
Qed.

Lemma trim_takes_off_the_ends_witness :
  blank "   " = true /\ trim "   " = "" /\ trim "  ls -l  " = "ls -l".
Proof.
  split; [reflexivity|]. split; [|reflexivity].
  exact (proj2 (proj2 (proj2 (proj2 (trim_takes_off_the_ends "   "))))
           eq_refl).
Defined.

(** * [split_first] *)

Lemma span_until_split (stop : ascii -> bool) (s : string) :
  s = fst (span_until stop s) ++ snd (span_until stop s).
Proof.
  induction s as [|c s IH]; [reflexivity|]. cbn [span_until].
  destruct (stop c); [reflexivity|].
  destruct (span_until stop s) as [tok rest]. cbn in *. now rewrite <- IH.
Qed.

Lemma span_until_token (stop : ascii -> bool) (s : string) :
  all_chars (fun c => negb (stop c)) (fst (span_until stop s)) = true.
Proof.
  induction s as [|c s IH]; [reflexivity|]. cbn [span_until].
  destruct (stop c) eqn:Hc; [reflexivity|].
  destruct (span_until stop s) as [tok rest]. cbn in *. now rewrite Hc.
Qed.

Lemma span_until_length (stop : ascii -> bool) (s : string) :
  (String.length (fst (span_until stop s)) <= String.length s)%nat.
Proof.
  rewrite (span_until_split stop s) at 2. rewrite length_append. lia.
Qed.

Lemma clip_no_leading (n : nat) (s : string) :
  no_leading_space s -> no_leading_space (clip n s).
Proof. destruct s as [|c s], n as [|n]; cbn; auto. Qed.

(** X2.  What [split_first] hands back.  White space alone gives an empty
    verb and an empty remainder.  A result always fits the two buffers, and
    the remainder never starts with white space.  When the text does not
    open with a quote the verb is not empty and holds no white space.  A
    text shorter than the token buffer is always split. *)
Theorem split_first_shape (input : string) :
  (blank input = true -> split_first input = Some ("", "")) /\
  (forall first rest,
     split_first input = Some (first, rest) ->
     (String.length first < MAX_TOK)%nat /\
     (String.length rest < MAX_LINE)%nat /\
     no_leading_space rest) /\
  (forall c s' first rest,
     skip_spaces input = String c s' -> is_quote c = false ->
     split_first input = Some (first, rest) ->
     first <> "" /\ no_space first = true) /\
  ((String.length input < MAX_TOK)%nat -> split_first input <> None).
Proof.
  split; [|split; [|split]].
  - intros H. unfold split_first, split_first_buf.
    now rewrite (blank_skip_spaces input H).
  - intros first rest Hs.
    destruct (split_first_rest_length input first rest Hs) as [H1 H2].
    split; [exact H1|]. split; [exact H2|].
    unfold split_first, split_first_buf in Hs.
    destruct (skip_spaces input) as [|c s'];
      [apply Some_pair_inj in Hs as [<- <-]; exact I|].
    match type of Hs with
    | context [let '(_, _) := ?e in _] => destruct e as [tok after]
    end.
    destruct (_ && _); [|discriminate].
    apply Some_pair_inj in Hs as [<- <-].
    apply clip_no_leading, skip_spaces_no_leading.
  - intros c s' first rest Hskip Hq Hs.
    unfold split_first, split_first_buf in Hs. rewrite Hskip in Hs.
    unfold is_quote in Hq. rewrite Hq in Hs.
    pose proof (span_until_token isspace (String c s')) as Htok.
    pose proof (skip_spaces_no_leading input) as Hc.
    rewrite Hskip in Hc. cbn in Hc.
    cbn [span_until] in Hs, Htok. rewrite Hc in Hs, Htok.
    destruct (span_until isspace s') as [tok after].
    destruct (_ && _); [|discriminate].
    apply Some_pair_inj in Hs as [<- <-].
    split; [discriminate | exact Htok].
  - intros Hlen. unfold split_first, split_first_buf.
    pose proof (length_skip_spaces input) as Hsk.
    destruct (skip_spaces input) as [|c s']; [discriminate|].
    assert (Htok : forall tok after,
               (String.length tok <= String.length (String c s'))%nat ->
               (if (String.length tok <? MAX_TOK)%nat
                   && (MAX_LINE <=? MAX_LINE)%nat
                then Some (tok, clip (MAX_LINE - 1) (skip_spaces after))
                else None) <> None).
    { intros tok after Ht.
      replace (String.length tok <? MAX_TOK)%nat with true
        by (symmetry; apply Nat.ltb_lt; lia).
      rewrite Nat.leb_refl. discriminate. }
    destruct (Ascii.eqb c "'" || Ascii.eqb c DQ).
    + pose proof (span_until_length (Ascii.eqb c) s') as Hl.
      destruct (span_until (Ascii.eqb c) s') as [tok after].
      apply Htok. cbn in *. lia.
    + pose proof (span_until_length isspace (String c s')) as Hl.
      destruct (span_until isspace (String c s')) as [tok after].
      apply Htok. cbn in *. lia.
Qed.

Lemma split_first_shape_witness :
  split_first "   " = Some ("", "") /\
  split_first "  Copy   a.txt b.txt" = Some ("Copy", "a.txt b.txt") /\
  no_leading_space "a.txt b.txt" /\ no_space "Copy" = true /\
  split_first "x" <> None.
Proof.
  destruct (split_first_shape "   ") as (Hblank & _).
  destruct (split_first_shape "  Copy   a.txt b.txt") as (_ & Hfit & Hverb & _).
  destruct (split_first_shape "x") as (_ & _ & _ & Hshort).
  split; [exact (Hblank eq_refl)|]. split; [reflexivity|].
  split; [exact (proj2 (proj2 (Hfit "Copy" "a.txt b.txt" eq_refl)))|].
  split; [exact (proj2 (Hverb "C"%char "opy   a.txt b.txt" "Copy"
                          "a.txt b.txt" eq_refl eq_refl eq_refl))|].
  exact (Hshort ltac:(vm_compute; lia)).
Defined.

Lemma span_until_stops (stop : ascii -> bool) (s : string) :
  match snd (span_until stop s) with
  | String c _ => stop c = true
  | "" => True
  end.
Proof.
  induction s as [|c s IH]; [exact I|]. cbn [span_until].
  destruct (stop c) eqn:Hc; [exact Hc|].
  now destruct (span_until stop s) as [tok rest].
Qed.

Lemma all_chars_strchr (p : ascii -> bool) (s : string) (c : ascii) :
  all_chars p s = true -> p c = false -> strchr s c = false.
Proof.
  intros Hall Hc. induction s as [|a s IH]; [reflexivity|].
  cbn [all_chars strchr] in *. apply andb_true_iff in Hall as [Ha Hs].
  rewrite (IH Hs), orb_false_r. apply Ascii.eqb_neq. intros ->. congruence.
Qed.

(** X3.  [split_first] loses nothing of a line that fits the line buffer,
    and where it cuts is fixed by how the text opens.  When the text, past
    its leading white space, opens with a quote, the verb is what stands
    between that quote and the next quote of the same kind, and the
    remainder follows the closing quote and a run of white space; a quote
    that is never closed takes the rest of the text as the verb.  Otherwise
    the verb is the longest run without white space, followed by a run of
    white space and the remainder.  The remainder never starts with white
    space. *)
Theorem split_first_reassembles (input first rest : string) :
  (String.length input < MAX_LINE)%nat ->
  split_first input = Some (first, rest) ->
  no_leading_space rest /\
  match skip_spaces input with
  | "" => first = "" /\ rest = ""
  | String c s' =>
      exists gap,
        blank gap = true /\
        if is_quote c
        then strchr first c = false /\
             (s' = first ++ String c (gap ++ rest) \/
              (s' = first /\ gap = "" /\ rest = ""))
        else no_space first = true /\
             String c s' = first ++ gap ++ rest /\
             (gap = "" -> rest = "")
  end.
Proof.
  intros Hlen Hs. unfold split_first, split_first_buf in Hs.
  pose proof (length_skip_spaces input) as Hsk.
  destruct (skip_spaces input) as [|c s'] eqn:Hp.
  - apply Some_pair_inj in Hs as [<- <-]. split; [exact I|].
    split; reflexivity.
  - assert (Hclip : forall after,
               (String.length after <= String.length (String c s'))%nat ->
               clip (MAX_LINE - 1) (skip_spaces after) = skip_spaces after).
    { intros after Ha. apply clip_all.
      pose proof (length_skip_spaces after). lia. }
    fold (is_quote c) in Hs. destruct (is_quote c) eqn:Hq.
    + pose proof (span_until_split (Ascii.eqb c) s') as Hsplit.
      pose proof (span_until_stops (Ascii.eqb c) s') as Hstop.
      pose proof (span_until_token (Ascii.eqb c) s') as Htok.
      destruct (span_until (Ascii.eqb c) s') as [tok after].
      cbn [fst snd] in Hsplit, Hstop, Htok.
      destruct (_ && _); [|discriminate].
      apply Some_pair_inj in Hs as [<- <-].
      assert (Hfree : strchr tok c = false).
      { apply (all_chars_strchr _ tok c Htok). cbv beta.
        now rewrite Ascii.eqb_refl. }
      destruct after as [|q after].
      * split; [exact I|]. exists "". split; [reflexivity|].
        split; [exact Hfree|]. right.
        rewrite Hsplit, append_empty_r. repeat split; reflexivity.
      * apply Ascii.eqb_eq in Hstop. subst q.
        destruct (skip_spaces_split after) as (gap & Hgap & Hblank).
        rewrite Hclip
          by (rewrite Hsplit; cbn [String.length];
              rewrite length_append; cbn [String.length]; lia).
        split; [apply skip_spaces_no_leading|].
        exists gap. split; [exact Hblank|]. split; [exact Hfree|]. left.
        rewrite Hsplit. f_equal. f_equal. exact Hgap.
    + pose proof (span_until_split isspace (String c s')) as Hsplit.
      pose proof (span_until_stops isspace (String c s')) as Hstop.
      pose proof (span_until_token isspace (String c s')) as Htok.
      destruct (span_until isspace (String c s')) as [tok after].
      cbn [fst snd] in Hsplit, Hstop, Htok.
      destruct (_ && _); [|discriminate].
      apply Some_pair_inj in Hs as [<- <-].
      destruct (skip_spaces_split after) as (gap & Hgap & Hblank).
      rewrite Hclip by (rewrite Hsplit, length_append; lia).
      split; [apply skip_spaces_no_leading|].
      exists gap. split; [exact Hblank|]. split; [exact Htok|].
      split; [rewrite Hsplit at 1; f_equal; exact Hgap|].
      intros ->. cbn [append] in Hgap.
      destruct after as [|q after]; [reflexivity|].
      pose proof (skip_spaces_no_leading (String q after)) as Hno.
      rewrite <- Hgap in Hno. cbn [no_leading_space] in Hno. congruence.
Qed.

Lemma split_first_reassembles_witness :
  (exists gap,
     blank gap = true /\ no_space "copy" = true /\
     "copy   a b" = "copy" ++ gap ++ "a b" /\ (gap = "" -> "a b" = "")) /\
  (exists gap,
     blank gap = true /\ strchr "my file" "'" = false /\
     ("my file' x" = "my file" ++ String "'" (gap ++ "x") \/
      ("my file' x" = "my file" /\ gap = "" /\ "x" = ""))).
Proof.
  split.
  - exact (proj2 (split_first_reassembles "  copy   a b" "copy" "a b"
                    ltac:(vm_compute; lia) eq_refl)).
  - exact (proj2 (split_first_reassembles " 'my file' x" "my file" "x"
                    ltac:(vm_compute; lia) eq_refl)).
Defined.

(** * [replace_first] *)

Lemma starts_with_split (p s : string) :
  starts_with p s = true -> exists post, s = p ++ post.
Proof.
  revert s; induction p as [|a p IH]; intros s H; [now exists s|].
  destruct s as [|b s]; [discriminate|]. cbn in H.
  apply andb_true_iff in H as [Hab H]. apply Ascii.eqb_eq in Hab. subst b.
  destruct (IH s H) as [post ->]. now exists post.
Qed.

(** [strstr] finds the first place where the needle starts. *)
Lemma strstr_first (s needle : string) (pos : nat) :
  strstr s needle = Some pos ->
  (exists pre post, s = pre ++ needle ++ post /\ String.length pre = pos) /\
  (forall k, (k < pos)%nat -> starts_with needle (skipn_str k s) = false).
Proof.
  revert pos; induction s as [|c s IH]; intros pos H.
  - cbn in H. destruct (starts_with needle "") eqn:Hsw; [|discriminate].
    injection H as <-. split; [|intros k Hk; lia].
    destruct (starts_with_split needle "" Hsw) as [post Hp].
    now exists "", post.
  - cbn [strstr] in H.
    destruct (starts_with needle (String c s)) eqn:Hsw.
    + injection H as <-. split; [|intros k Hk; lia].
      destruct (starts_with_split needle _ Hsw) as [post Hp].
      now exists "", post.
    + destruct (strstr s needle) as [p|] eqn:Hs; [|discriminate].
      injection H as <-. destruct (IH p eq_refl) as [(pre & post & -> & Hl) Hk].
      split.
      * exists (String c pre), post. cbn. now rewrite Hl.
      * intros [|k] Hlt; [exact Hsw|]. cbn. apply Hk. lia.
Qed.

Lemma clip_length_append (a b : string) : clip (String.length a) (a ++ b) = a.
Proof.
  induction a as [|c a IH]; cbn; [now destruct b | now rewrite IH].
Qed.

Lemma skipn_str_append (a b : string) (n : nat) :
  skipn_str (String.length a + n) (a ++ b) = skipn_str n b.
Proof. induction a as [|c a IH]; cbn; [reflexivity | exact IH]. Qed.

Lemma skipn_str_all (a b : string) : skipn_str (String.length a) (a ++ b) = b.
Proof.
  rewrite <- (Nat.add_0_r (String.length a)), skipn_str_append.
  now destruct b.
Qed.

(** X4.  [replace_first] leaves a text without the old piece as it is;
    otherwise it puts the new piece in the place of the first occurrence of
    the old one and of that occurrence only, cut to what the line buffer
    holds. *)
Theorem replace_first_splices (s old new : string) :
  (strstr s old = None -> replace_first s old new = s) /\
  (forall pos,
     strstr s old = Some pos ->
     exists pre post,
       s = pre ++ old ++ post /\ String.length pre = pos /\
       (forall k, (k < pos)%nat -> starts_with old (skipn_str k s) = false) /\
       replace_first s old new = clip (MAX_LINE - 1) (pre ++ new ++ post) /\
       ((String.length (pre ++ new ++ post) < MAX_LINE)%nat ->
        replace_first s old new = pre ++ new ++ post)).
Proof.
  split.
  - intros H. unfold replace_first. now rewrite H.
  - intros pos H.
    destruct (strstr_first s old pos H) as [(pre & post & Hs & Hl) Hfirst].
    exists pre, post. split; [exact Hs|]. split; [exact Hl|].
    split; [exact Hfirst|].
    assert (Hr : replace_first s old new
                 = clip (MAX_LINE - 1) (pre ++ new ++ post)).
    { unfold replace_first. rewrite H. unfold snprintf_buf.
      subst s pos. rewrite clip_length_append, skipn_str_append, skipn_str_all.
      apply clip_all. rewrite length_clip. lia. }
    split; [exact Hr|]. intros Hfit. rewrite Hr. apply clip_all. lia.
Qed.

Lemma replace_first_splices_witness :
  replace_first "tail -f -f x.log" "-f" "" = "tail  -f x.log" /\
  replace_first "x.log" "-f" "" = "x.log".
Proof.
  destruct (replace_first_splices "tail -f -f x.log" "-f" "") as (_ & Hyes).
  destruct (replace_first_splices "x.log" "-f" "") as (Hno & _).
  split; [|exact (Hno eq_refl)].
  destruct (Hyes 5%nat eq_refl) as (pre & post & Hs & Hl & _ & _ & Hfit).
  assert (Hpre : pre = "tail ").
  { destruct pre as [|a [|b [|c [|d [|e [|f pre]]]]]]; try discriminate.
    cbn in Hs. now injection Hs as <- <- <- <- <-. }
  subst pre. cbn in Hs. injection Hs as <-.
  apply Hfit. vm_compute. lia.
Defined.

(** * More on the history store *)

(** X5.  [add_history] keeps the store well formed: it never holds more
    than [MAX_HISTORY] entries nor an empty one, and it never shrinks.  A
    line that is recorded is the last entry, the one [!!] recalls. *)
Theorem add_history_keeps_store (h : history) (cmd : option string) :
  (List.length h <= MAX_HISTORY)%nat ->
  forallb nonempty h = true ->
  (List.length (add_history h cmd) <= MAX_HISTORY)%nat /\
  forallb nonempty (add_history h cmd) = true /\
  (List.length h <= List.length (add_history h cmd))%nat /\
  (forall c, cmd = Some c -> c <> "" ->
             expand_bang (add_history h cmd) "!!" = Some c).
Proof.
  intros Hlen Hne.
  assert (Hpos : (1 <= MAX_HISTORY)%nat) by (rewrite MAX_HISTORY_value; lia).
  destruct cmd as [c|]; [|repeat split; auto; discriminate].
  destruct (is_empty c) eqn:Hc.
  { unfold add_history. rewrite Hc. repeat split; auto.
    intros c' [= <-] Hc'. apply is_empty_false in Hc'. congruence. }
  apply is_empty_false in Hc.
  assert (Hshape : exists h', add_history h (Some c) = (h' ++ [c])%list /\
                     forallb nonempty h' = true /\
                     (List.length h' < MAX_HISTORY)%nat /\
                     (List.length h <= S (List.length h'))%nat).
  { destruct (Nat.eq_dec (List.length h) MAX_HISTORY) as [Hfull|Hroom].
    - exists (tl h). rewrite add_history_full by assumption.
      split; [reflexivity|]. rewrite length_tl.
      split; [|lia]. destruct h; [reflexivity|]. cbn in Hne.
      now apply andb_true_iff in Hne.
    - exists h. rewrite add_history_room by (assumption || lia).
      repeat split; auto; lia. }
  destruct Hshape as (h' & -> & Hne' & Hl' & Hgrow).
  rewrite length_app. cbn [List.length].
  split; [lia|]. split; [|split; [lia|]].
  - rewrite forallb_app, Hne'. cbn. unfold nonempty.
    apply is_empty_false in Hc. now rewrite Hc.
  - intros c' [= <-] _. unfold expand_bang.
    cbn [String.eqb Ascii.eqb Bool.eqb andb].
    unfold hist_count. rewrite length_app. cbn [List.length].
    replace (Z.of_nat (List.length h' + 1) =? 0)%Z with false
      by (symmetry; apply Z.eqb_neq; lia).
    replace (Z.to_nat (Z.of_nat (List.length h' + 1) - 1))
      with (List.length h') by lia.
    rewrite app_nth2 by lia. now rewrite Nat.sub_diag.
Qed.

Lemma add_history_keeps_store_witness :
  (List.length (add_history ["ls"; "pwd"] (Some "date")) <= MAX_HISTORY)%nat /\
  expand_bang (add_history ["ls"; "pwd"] (Some "date")) "!!" = Some "date".
Proof.
  destruct (add_history_keeps_store ["ls"; "pwd"] (Some "date")
              ltac:(vm_compute; lia) eq_refl) as (H1 & _ & _ & H4).
  split; [exact H1|]. exact (H4 "date" eq_refl ltac:(discriminate)).
Defined.

Lemma map_combine_seq (g : nat * string -> event) (l : list string) :
  forall a,
    map g (combine (seq a (List.length l)) l)
    = map (fun i => g (i, nth (i - a) l "")) (seq a (List.length l)).
Proof.
  induction l as [|x l IH]; intros a; [reflexivity|].
  cbn [List.length seq combine map]. rewrite Nat.sub_diag. cbn [nth].
  f_equal. rewrite IH. apply map_ext_in. intros i Hi.
  apply in_seq in Hi.
  replace (i - a)%nat with (S (i - S a)) by lia. reflexivity.
Qed.

(** X6.  [print_history] writes the last hundred entries (all of them when
    there are fewer), oldest first, each after its slot number counted from
    one. *)
Theorem print_history_lines (h : history) :
  let n := List.length h in
  let start := (n - 100)%nat in
  print_history h
  = map (fun i => Print (string_of_Z (Z.of_nat i + 1) ++ "  " ++ nth i h ""
                         ++ nl))
        (seq start (n - start)) /\
  List.length (print_history h) = Nat.min 100 n.
Proof.
  intros n start.
  assert (H : print_history h
              = map (fun i => Print (string_of_Z (Z.of_nat i + 1) ++ "  "
                                     ++ nth i h "" ++ nl))
                    (seq start (n - start))).
  { unfold print_history. fold n.
    replace (if (100 <? n)%nat then (n - 100)%nat else 0%nat) with start
      by (unfold start; destruct (100 <? n)%nat eqn:E;
          [reflexivity | apply Nat.ltb_ge in E; lia]).
    rewrite <- skipn_map. unfold n at 1.
    rewrite (map_combine_seq
               (fun ie => Print (string_of_Z (Z.of_nat (fst ie) + 1) ++ "  "
                                 ++ snd ie ++ nl)) h 0).
    rewrite skipn_map, skipn_seq. fold n. cbn [fst snd Nat.add].
    apply map_ext. intros i. now rewrite Nat.sub_0_r. }
  split; [exact H|]. rewrite H, length_map, length_seq. lia.
Qed.

(** * More on the pipeline *)

Lemma strchr_append (a b : string) (c : ascii) :
  strchr (a ++ b) c = strchr a c || strchr b c.
Proof.
  induction a as [|x a IH]; cbn; [reflexivity|].
  now rewrite IH, orb_assoc.
Qed.

Lemma strchr_trim (s : string) (c : ascii) :
  strchr s c = false -> strchr (trim s) c = false.
Proof.
  intros H.
  destruct (skip_spaces_split s) as (a & Ha & _).
  destruct (strip_trailing_split (skip_spaces s)) as (b & Hb & _).
  rewrite Ha, Hb, !strchr_append in H. unfold trim.
  apply orb_false_iff in H as [_ H]. now apply orb_false_iff in H as [H _].
Qed.

Lemma tokens_from_free (d : ascii) (s : string) :
  forall acc, strchr acc d = false ->
              Forall (fun t => strchr t d = false /\ t <> "")
                     (tokens_from d s acc).
Proof.
  induction s as [|c s IH]; intros acc Hacc; cbn [tokens_from].
  - destruct (is_empty acc) eqn:E; constructor; [|constructor].
    split; [exact Hacc | now apply is_empty_false].
  - destruct (Ascii.eqb c d) eqn:Hc.
    + destruct (is_empty acc) eqn:E; [now apply IH|].
      constructor; [|now apply IH].
      split; [exact Hacc | now apply is_empty_false].
    + apply IH. rewrite strchr_append, Hacc. cbn. now rewrite Hc.
Qed.

Lemma weight_cons (x : string) (l : list string) :
  weight (x :: l) = (S (String.length x) + weight l)%nat.
Proof. reflexivity. Qed.

Lemma weight_nil : weight [] = 0%nat.
Proof. reflexivity. Qed.

Lemma weight_tokens_from (d : ascii) (s : string) :
  forall acc,
    (weight (tokens_from d s acc)
     <= String.length acc + String.length s + 1)%nat.
Proof.
  assert (H0 : String.length "" = 0%nat) by reflexivity.
  assert (HS : forall c t, String.length (String c t) = S (String.length t))
    by reflexivity.
  induction s as [|c s IH]; intros acc; cbn [tokens_from].
  - rewrite H0. destruct (is_empty acc); [rewrite weight_nil; lia|].
    rewrite weight_cons, weight_nil. lia.
  - rewrite HS. destruct (Ascii.eqb c d).
    + pose proof (IH "") as IH0. rewrite H0 in IH0.
      destruct (is_empty acc); [lia|]. rewrite weight_cons. lia.
    + pose proof (IH (acc ++ String c "")) as IH1.
      rewrite length_append, HS, H0 in IH1. lia.
Qed.

Lemma stages_clean_core (line stage : string) :
  In stage (stages line) ->
  stage <> "" /\ trim stage = stage /\ strchr stage "|" = false.
Proof.
  unfold stages. intros H. apply filter_In in H as [H Hne].
  apply in_map_iff in H as (t & <- & Ht).
  pose proof (tokens_from_free "|" line "" eq_refl) as Hfree.
  rewrite Forall_forall in Hfree. destruct (Hfree t Ht) as [Hp _].
  split; [|split].
  - unfold nonempty in Hne. apply negb_true_iff in Hne.
    now apply is_empty_false.
  - apply trim_idempotent.
  - now apply strchr_trim.
Qed.




Section PipelineStages.

Variables h1 h2 : string -> run bool.
Variables m1 m2 : string -> Z -> Z -> option (string * bool).
Variable STRTOK_is_strtok : bool.
Variables source_is_windows host_is_windows : Z.



End PipelineStages.


Lemma length_strncat_buf (cap : nat) (dst src : string) :
  (String.length dst < cap)%nat ->
  (String.length (strncat_buf cap dst src) < cap)%nat.
Proof.
  intros H. unfold strncat_buf. rewrite length_append, length_clip. lia.
Qed.

Section PipelineBounds.

Variable handle_builtin_pipeline : string -> run bool.
Variable map_command_traced : string -> Z -> Z -> option (string * bool).
Variable STRTOK_is_strtok : bool.
Variables source_is_windows host_is_windows : Z.

Lemma pipeline_loop_bounded (tokens : list string) :
  forall (buf : string) (first : bool) (out : string),
    (String.length buf < MAPPED_SIZE)%nat ->
    snd (pipeline_loop handle_builtin_pipeline map_command_traced
           STRTOK_is_strtok source_is_windows host_is_windows tokens buf first)
    = Ret out ->
    (String.length out < MAPPED_SIZE)%nat.
Proof.
  induction tokens as [|token tokens IH]; intros buf first out Hbuf Hout.
  - cbn [pipeline_loop pure_run snd] in Hout. apply Ret_inj in Hout.
    now subst out.
  - cbn [pipeline_loop] in Hout.
    destruct (negb (is_empty (trim token))); [|now apply (IH buf first)].
    destruct (handle_builtin_pipeline (trim token)) as [ev [b| |]];
      try (cbn in Hout; discriminate).
    rewrite snd_bind_run in Hout. destruct b; [now apply (IH buf first)|].
    destruct (map_command_traced (trim token) source_is_windows
                host_is_windows) as [[mapped ran]|];
      [|cbn in Hout; discriminate].
    cbn [lift_option] in Hout. rewrite snd_bind_run in Hout.
    cbn [fst snd] in Hout.
    assert (Hb : (String.length
                    (strncat_buf MAPPED_SIZE
                       (if first then buf
                        else strncat_buf MAPPED_SIZE buf " | ") mapped)
                  < MAPPED_SIZE)%nat).
    { apply length_strncat_buf. destruct first; [exact Hbuf|].
      now apply length_strncat_buf. }
    destruct (STRTOK_is_strtok && ran).
    + cbn [pure_run snd] in Hout. apply Ret_inj in Hout. now subst out.
    + exact (IH _ false out Hb Hout).
Qed.

Lemma pipeline_loop_events (tokens : list string) :
  forall (buf : string) (first : bool) (e : event),
    In e (fst (pipeline_loop handle_builtin_pipeline map_command_traced
                 STRTOK_is_strtok source_is_windows host_is_windows tokens
                 buf first)) ->
    exists stage, In stage (filter nonempty (map trim tokens)) /\
                  In e (fst (handle_builtin_pipeline stage)).
Proof.
  induction tokens as [|token tokens IH]; intros buf first e He.
  - cbn in He. contradiction.
  - cbn [pipeline_loop] in He. cbn [map filter]. unfold nonempty at 1.
    destruct (negb (is_empty (trim token))).
    + assert (Hrest : forall buf' first',
                 In e (fst (pipeline_loop handle_builtin_pipeline
                              map_command_traced STRTOK_is_strtok
                              source_is_windows host_is_windows tokens
                              buf' first')) ->
                 exists stage,
                   In stage (trim token :: filter nonempty (map trim tokens))
                   /\ In e (fst (handle_builtin_pipeline stage))).
      { intros buf' first' H. destruct (IH buf' first' e H) as (st & Hs & Hin).
        exists st. split; [now right | exact Hin]. }
      destruct (handle_builtin_pipeline (trim token)) as [ev r] eqn:Hh.
      assert (Hhere : In e ev ->
                      exists stage,
                        In stage (trim token
                                  :: filter nonempty (map trim tokens))
                        /\ In e (fst (handle_builtin_pipeline stage))).
      { intros H. exists (trim token). split; [now left|]. now rewrite Hh. }
      destruct r as [b| |]; try (cbn in He; now apply Hhere).
      cbn [bind_run] in He.
      match type of He with
      | context [let (_, _) := ?k in _] => destruct k as [ev' r'] eqn:Hk
      end.
      cbn [fst] in He. apply in_app_or in He as [He|He]; [now apply Hhere|].
      destruct b.
      * apply (Hrest buf first). now rewrite Hk.
      * destruct (map_command_traced (trim token) source_is_windows
                    host_is_windows) as [[mapped ran]|];
          [|cbn [lift_option bind_run] in Hk;
            apply pair_inj in Hk as [<- _]; contradiction].
        cbn [lift_option bind_run fst snd] in Hk.
        destruct (STRTOK_is_strtok && ran).
        -- cbn [pure_run] in Hk. apply pair_inj in Hk as [<- _].
           contradiction.
        -- match type of Hk with
           | context [pipeline_loop _ _ _ _ _ _ ?b ?f] =>
               apply (Hrest b f)
           end.
           destruct (pipeline_loop _ _ _ _ _ _ _ _) as [ev2 r2].
           cbn [fst]. apply pair_inj in Hk as [<- _]. exact He.
    + destruct (IH buf first e He) as (st & Hs & Hin). now exists st.
Qed.

End PipelineBounds.

(** X8.  The translated line never outgrows the buffer it is built in,
    whatever the stages are translated to: in each of the three files a
    line that [translate_pipeline] returns is shorter than
    [MAPPED_SIZE]. *)
Theorem translated_line_fits (WIN32 : bool) (h : history) (line : string)
    (s hw : Z) (out : string) :
  (snd (Custard.translate_pipeline WIN32 h line s hw) = Ret out ->
   (String.length out < MAPPED_SIZE)%nat) /\
  (snd (Cust.translate_pipeline WIN32 h line s hw) = Ret out ->
   (String.length out < MAPPED_SIZE)%nat) /\
  (snd (Gemini.translate_pipeline WIN32 h line s hw) = Ret out ->
   (String.length out < MAPPED_SIZE)%nat).
Proof.
  assert (H0 : (String.length "" < MAPPED_SIZE)%nat)
    by (rewrite MAPPED_SIZE_value; unfold MAX_LINE; cbn [String.length]; lia).
  repeat split; intros H;
    eapply pipeline_loop_bounded; try exact H0; exact H.
Qed.

Lemma translated_line_fits_witness :
  (String.length ("dir -la | bash -lc " ++ dq ++ "grep foo" ++ dq)
   < MAPPED_SIZE)%nat.
Proof.
  exact (proj1 (translated_line_fits true [] "ls -la | grep foo" 0 1
                  ("dir -la | bash -lc " ++ dq ++ "grep foo" ++ dq))
           ltac:(vm_compute; reflexivity)).
Defined.

Section CustardPipelineMore.

Import Custard.

Lemma handle_builtin_events (WIN32 : bool) (h : history) (stage : string)
    (e : event) :
  In e (fst (handle_builtin_pipeline WIN32 h stage)) ->
  intercepted stage = true /\
  match e with
  | System c => c = if WIN32 then "cls" else "clear"
  | Print _ => True
  end.
Proof.
  unfold handle_builtin_pipeline, intercepted, verb_of.
  destruct (split_first stage) as [[first rest]|]; [|cbn; contradiction].
  cbn [lift_option bind_run option_map fst].
  destruct (lc_copy first =? "help") eqn:E1.
  { cbn. intros H. split; [reflexivity|].
    repeat (destruct H as [<-|H]; [exact I|]). contradiction. }
  destruct ((lc_copy first =? "exit") || (lc_copy first =? "quit"));
    [cbn; contradiction|].
  destruct (lc_copy first =? "history") eqn:E2.
  { cbn [fst app]. intros H. split; [reflexivity|].
    unfold print_history in H. apply in_map_iff in H as (ie & <- & _).
    exact I. }
  destruct (lc_copy first =? "clear") eqn:E3; [|cbn; contradiction].
  cbn. intros [<-|[]]. split; [reflexivity|]. now destruct WIN32.
Qed.

(** X9.  Translating a line runs nothing on the host except the screen
    clear of a [clear] stage, and a line without an intercepted stage is
    translated in silence. *)
Theorem translation_runs_only_clear (WIN32 : bool) (h : history)
    (line : string) (s hw : Z) :
  (forall c,
     In c (commands_run (fst (translate_pipeline WIN32 h line s hw))) ->
     c = if WIN32 then "cls" else "clear") /\
  (forallb (fun stage => negb (intercepted stage)) (stages line) = true ->
   fst (translate_pipeline WIN32 h line s hw) = []).
Proof.
  assert (Hev : forall e,
             In e (fst (translate_pipeline WIN32 h line s hw)) ->
             exists stage, In stage (stages line) /\
                           In e (fst (handle_builtin_pipeline WIN32 h stage))).
  { intros e He. now apply pipeline_loop_events in He. }
  split.
  - intros c Hc. unfold commands_run in Hc.
    apply in_flat_map in Hc as (e & He & Hc).
    destruct (Hev e He) as (stage & _ & Hin).
    destruct e as [t|c']; [contradiction|]. destruct Hc as [<-|[]].
    exact (proj2 (handle_builtin_events WIN32 h stage _ Hin)).
  - intros Hnone.
    destruct (fst (translate_pipeline WIN32 h line s hw)) as [|e l] eqn:E;
      [reflexivity|].
    destruct (Hev e (or_introl eq_refl)) as (stage & Hst & Hin).
    rewrite forallb_forall in Hnone. specialize (Hnone stage Hst).
    rewrite (proj1 (handle_builtin_events WIN32 h stage e Hin)) in Hnone.
    discriminate.
Qed.

Lemma translation_runs_only_clear_witness :
  fst (translate_pipeline true ["pwd"] "ls -la | grep foo" 0 1) = [] /\
  commands_run (fst (translate_pipeline true ["pwd"] "ls | clear" 0 1))
  = ["cls"].
Proof.
  split; [|reflexivity].
  exact (proj2 (translation_runs_only_clear true ["pwd"]
                  "ls -la | grep foo" 0 1) eq_refl).
Defined.

End CustardPipelineMore.

(** * Equal dialects: the line comes back with its stages rejoined *)

Lemma weight_filter (p : string -> bool) (l : list string) :
  (weight (filter p l) <= weight l)%nat.
Proof.
  induction l as [|x l IH]; cbn [filter]; [lia|].
  destruct (p x); rewrite ?weight_cons; lia.
Qed.

Lemma weight_map_trim (l : list string) :
  (weight (map trim l) <= weight l)%nat.
Proof.
  induction l as [|x l IH]; cbn [map]; [lia|].
  rewrite !weight_cons. pose proof (length_trim x). lia.
Qed.

Lemma weight_translated_stages (line : string) :
  (weight (translated_stages line) <= String.length line + 1)%nat.
Proof.
  unfold translated_stages, stages, strtok_all.
  pose proof (weight_tokens_from "|" line "") as H.
  change (String.length "") with 0%nat in H.
  pose proof (weight_map_trim (tokens_from "|" line "")).
  pose proof (weight_filter nonempty (map trim (tokens_from "|" line ""))).
  pose proof (weight_filter (fun stage => negb (intercepted stage))
                (filter nonempty (map trim (tokens_from "|" line "")))).
  lia.
Qed.

Lemma length_concat_bars (l : list string) :
  Forall (fun s => s <> "") l -> l <> [] ->
  (String.length (String.concat " | " l) + 3 <= 2 * weight l)%nat.
Proof.
  induction l as [|x l IH]; [congruence|].
  intros Hne _. inversion Hne as [|? ? Hx Hl]. subst.
  assert (0 < String.length x)%nat by (destruct x; [congruence | cbn; lia]).
  rewrite weight_cons. destruct l as [|y l].
  - change (String.concat " | " [x]) with x. rewrite weight_nil. lia.
  - change (String.concat " | " (x :: y :: l))
      with (x ++ " | " ++ String.concat " | " (y :: l)).
    rewrite !length_append. specialize (IH Hl ltac:(discriminate)).
    change (String.length " | ") with 3%nat. lia.
Qed.

Section EqualDialects.

Import Custard.

(** X10.  With equal dialects a line that fits the line buffer, and in
    which no stage names [exit] or [quit] or carries a verb too long to
    split, comes back whole: its non-empty stages, trimmed, without the
    intercepted ones, joined again with [" | "]. *)
Theorem equal_dialects_rejoin (WIN32 : bool) (h : history) (line : string)
    (dialect : Z) :
  forallb (fun stage => match verb_of stage with Some _ => true | None => false end
                        && negb (ends_session stage))
          (stages line) = true ->
  (String.length line < MAX_LINE)%nat ->
  snd (translate_pipeline WIN32 h line dialect dialect)
  = Ret (String.concat " | " (translated_stages line)).
Proof.
  intros Hok Hlen.
  assert (Hhandle : forall stage, In stage (stages line) ->
            snd (handle_builtin_pipeline WIN32 h stage)
            = Ret (intercepted stage)).
  { intros stage Hin. rewrite forallb_forall in Hok.
    specialize (Hok stage Hin). apply andb_true_iff in Hok as [Hv He].
    apply handle_builtin_snd.
    - destruct (verb_of stage); discriminate.
    - now apply negb_true_iff. }
  unfold translate_pipeline, translate_pipeline_of.
  change "" with (clip (MAPPED_SIZE - 1) (String.concat " | " [])) at 1.
  rewrite (pipeline_loop_join (handle_builtin_pipeline WIN32 h)
             map_command_traced WIN32 dialect dialect (strtok_all line "|")
             [] (translated_stages line) true); [ | reflexivity | | ].
  - cbn [app]. f_equal. apply clip_all.
    destruct (translated_stages line) as [|x l] eqn:E.
    + change (String.length (String.concat " | " [])) with 0%nat. lia.
    + pose proof (weight_translated_stages line) as Hw. rewrite E in Hw.
      assert (Hne : Forall (fun s => s <> "") (x :: l)).
      { rewrite <- E. apply Forall_forall. intros st Hst.
        unfold translated_stages in Hst. apply filter_In in Hst as [Hst _].
        exact (proj1 (stages_clean_core line st Hst)). }
      pose proof (length_concat_bars (x :: l) Hne ltac:(discriminate)).
      rewrite MAPPED_SIZE_value. lia.
  - apply Forall_forall. intros stage Hin.
    exists (intercepted stage). now apply Hhandle.
  - fold (stages line).
    rewrite (filter_ext_in _ (fun stage => negb (intercepted stage)))
      by (intros stage Hin; now rewrite (Hhandle stage Hin);
          destruct (intercepted stage)).
    fold (translated_stages line).
    induction (translated_stages line) as [|stage sts IH]; constructor;
      [|exact IH].
    exists false. unfold map_command_traced. rewrite Z.eqb_refl.
    split; [reflexivity | apply andb_false_r].
Qed.

Lemma equal_dialects_rejoin_witness :
  snd (translate_pipeline false ["pwd"] "  ls -la|grep foo |  | HELP " 0 0)
  = Ret "ls -la | grep foo".
Proof.
  exact (equal_dialects_rejoin false ["pwd"] "  ls -la|grep foo |  | HELP " 0
           eq_refl ltac:(vm_compute; lia)).
Defined.

End EqualDialects.

(** * The rules that substitute the verb *)

Section Substitutions.

Import Custard.

Lemma linux_rule_tar (input rest : string) :
  linux_to_windows input "tar" rest = Some (APPREST (SETM "tar") rest, false).
Proof.
  change (linux_to_windows input "tar" rest)
    with (if found (strstr rest "-czvf") || found (strstr rest "-czf")
          then Some (APPREST (SETM "tar") rest, false)
          else Some (APPREST (SETM "tar") rest, false)).
  now destruct (found (strstr rest "-czvf") || found (strstr rest "-czf")).
Qed.

Ltac table_cases H :=
  repeat (destruct H as [H|H]; [injection H as <- <-|]); [..|contradiction].

Lemma windows_substitution_core (input first rest v w : string) :
  split_first input = Some (first, rest) ->
  lc_copy first = v ->
  In (v, w) windows_substitutions ->
  map_command input 1 0 = Some (verb_with w rest).
Proof.
  intros Hs Hv Hin.
  destruct (split_first_rest_length input first rest Hs) as [_ Hlen].
  rewrite (map_command_windows_to_linux input first rest Hs), Hv.
  unfold windows_substitutions in Hin. table_cases Hin;
    (match goal with
     | |- windows_to_linux ?i ?v ?r = Some (verb_with ?w ?r) =>
         change (windows_to_linux i v r) with (Some (APPREST (SETM w) r))
     end;
     f_equal; apply APPREST_fits;
     [ unfold MAX_LINE; cbn [String.length]; lia
     | discriminate | exact Hlen ]).
Qed.

Lemma linux_substitution_core (input first rest v w : string) :
  split_first input = Some (first, rest) ->
  lc_copy first = v ->
  In (v, w) linux_substitutions ->
  map_command input 0 1 = Some (verb_with w rest).
Proof.
  intros Hs Hv Hin.
  destruct (split_first_rest_length input first rest Hs) as [_ Hlen].
  unfold map_command.
  rewrite (map_command_linux_to_windows input first rest Hs), Hv.
  unfold linux_substitutions in Hin. table_cases Hin;
    (match goal with
     | |- option_map fst (linux_to_windows ?i ?v ?r)
          = Some (verb_with ?w ?r) =>
         first [ change (linux_to_windows i v r)
                   with (Some (APPREST (SETM w) r, false))
               | rewrite linux_rule_tar ]
     end;
     cbn [option_map fst]; f_equal; apply APPREST_fits;
     [ unfold MAX_LINE; cbn [String.length]; lia
     | discriminate | exact Hlen ]).
Qed.

(** X11.  Windows to Linux: each verb of [windows_substitutions] is
    replaced by its counterpart and the remainder follows after one blank,
    unchanged; each verb of [windows_fixed] is answered by a fixed text and
    its remainder is dropped. *)
Theorem windows_verbs_substituted (input first rest v w : string) :
  split_first input = Some (first, rest) ->
  lc_copy first = v ->
  (In (v, w) windows_substitutions ->
   map_command input 1 0 = Some (verb_with w rest)) /\
  (In (v, w) windows_fixed -> map_command input 1 0 = Some w).
Proof.
  intros Hs Hv. split; intros Hin.
  - now apply (windows_substitution_core input first rest v w).
  - rewrite (map_command_windows_to_linux input first rest Hs), Hv.
    unfold windows_fixed in Hin. table_cases Hin; reflexivity.
Qed.

Lemma windows_verbs_substituted_witness :
  map_command "DEL myfile.txt" 1 0 = Some "rm myfile.txt" /\
  map_command "cls now" 1 0 = Some "clear".
Proof.
  split.
  - exact (proj1 (windows_verbs_substituted "DEL myfile.txt" "DEL"
                    "myfile.txt" "del" "rm" eq_refl eq_refl)
             ltac:(vm_compute; auto 10)).
  - exact (proj2 (windows_verbs_substituted "cls now" "cls" "now" "cls"
                    "clear" eq_refl eq_refl)
             ltac:(vm_compute; auto 10)).
Defined.

(** X12.  Linux to Windows: each verb of [linux_substitutions] is replaced
    by its counterpart and the remainder follows after one blank,
    unchanged; each verb of [linux_fixed] is answered by a fixed text and
    its remainder is dropped. *)
Theorem linux_verbs_substituted (input first rest v w : string) :
  split_first input = Some (first, rest) ->
  lc_copy first = v ->
  (In (v, w) linux_substitutions ->
   map_command input 0 1 = Some (verb_with w rest)) /\
  (In (v, w) linux_fixed -> map_command input 0 1 = Some w).
Proof.
  intros Hs Hv. split; intros Hin.
  - now apply (linux_substitution_core input first rest v w).
  - unfold map_command.
    rewrite (map_command_linux_to_windows input first rest Hs), Hv.
    unfold linux_fixed in Hin. table_cases Hin; reflexivity.
Qed.

Lemma linux_verbs_substituted_witness :
  map_command "cp a.txt b.txt" 0 1 = Some "copy a.txt b.txt" /\
  map_command "PWD -P" 0 1 = Some "cd".
Proof.
  split.
  - exact (proj1 (linux_verbs_substituted "cp a.txt b.txt" "cp"
                    "a.txt b.txt" "cp" "copy" eq_refl eq_refl)
             ltac:(vm_compute; auto 10)).
  - exact (proj2 (linux_verbs_substituted "PWD -P" "PWD" "-P" "pwd" "cd"
                    eq_refl eq_refl)
             ltac:(vm_compute; auto 10)).
Defined.

Lemma split_first_rest_no_leading (input first rest : string) :
  split_first input = Some (first, rest) -> no_leading_space rest.
Proof.
  intros Hs. unfold split_first, split_first_buf in Hs.
  destruct (skip_spaces input) as [|c s'];
    [apply Some_pair_inj in Hs as [<- <-]; exact I|].
  match type of Hs with
  | context [let '(_, _) := ?e in _] => destruct e as [tok after]
  end.
  destruct (_ && _); [|discriminate].
  apply Some_pair_inj in Hs as [<- <-].
  apply clip_no_leading, skip_spaces_no_leading.
Qed.

Lemma span_until_word (w r : string) :
  no_space w = true ->
  span_until isspace (w ++ r)
  = (w ++ fst (span_until isspace r), snd (span_until isspace r)).
Proof.
  induction w as [|c w IH]; intros H.
  - cbn [append]. now destruct (span_until isspace r).
  - unfold no_space in H. cbn [all_chars] in H.
    apply andb_true_iff in H as [Hc Hw]. apply negb_true_iff in Hc.
    cbn [append span_until]. rewrite Hc, (IH Hw). reflexivity.
Qed.

(** A word, one blank and a remainder are split into the word and the
    remainder. *)
Lemma split_first_word (w rest : string) :
  w <> "" -> no_space w = true ->
  match w with String c _ => is_quote c = false | "" => True end ->
  (String.length w < MAX_TOK)%nat ->
  no_leading_space rest -> (String.length rest < MAX_LINE)%nat ->
  split_first (verb_with w rest) = Some (w, rest).
Proof.
  intros Hne Hns Hq Hlen Hrest Hrl.
  assert (Hgen : forall r,
             fst (span_until isspace r) = "" ->
             clip (MAX_LINE - 1) (skip_spaces r) = rest ->
             split_first (w ++ r) = Some (w, rest)).
  { intros r Hf Hr. unfold split_first, split_first_buf.
    destruct w as [|c w]; [congruence|].
    assert (Hc : isspace c = false).
    { unfold no_space in Hns. cbn in Hns.
      apply andb_true_iff in Hns as [Hc _]. now apply negb_true_iff. }
    cbn [append skip_spaces]. rewrite Hc.
    unfold is_quote in Hq. rewrite Hq.
    change (String c (w ++ r)) with (String c w ++ r).
    rewrite (span_until_word (String c w) r Hns), Hf, append_empty_r.
    apply Nat.ltb_lt in Hlen. rewrite Hlen, Nat.leb_refl. cbn [andb].
    destruct (span_until isspace r) as [t a] eqn:E. cbn [fst snd] in *.
    subst t. pose proof (span_until_split isspace r) as Hsp.
    rewrite E in Hsp. cbn in Hsp. subst a. now rewrite Hr. }
  unfold verb_with. destruct (is_empty rest) eqn:E.
  - apply is_empty_true in E. subst rest.
    rewrite <- (append_empty_r w) at 1. apply Hgen; reflexivity.
  - apply Hgen; [reflexivity|].
    cbn [append skip_spaces]. change (isspace " ") with true. cbv iota.
    rewrite (skip_spaces_fixed rest Hrest). apply clip_all. lia.
Qed.

Lemma mirrored_in_tables (v w : string) :
  In (v, w) mirrored_verbs ->
  In (v, w) linux_substitutions /\ In (w, v) windows_substitutions /\
  lc_copy v = v /\ lc_copy w = w /\
  split_first_word_ok v /\ split_first_word_ok w.
Proof.
  intros Hin. unfold mirrored_verbs in Hin.
  table_cases Hin;
    (split; [vm_compute; auto 20|]; split; [vm_compute; auto 20|];
     split; [reflexivity|]; split; [reflexivity|];
     split; (split; [discriminate|]; split; [reflexivity|];
             split; [reflexivity|]; unfold MAX_TOK; cbn [String.length]; lia)).
Qed.

(** X13.  The verbs [cp]/[copy], [mv]/[move], [cat]/[type], [mkdir],
    [ping], [curl], [ssh], [scp] and [tar] mirror each other: translating
    a stage one way and the result back gives the stage again, with the
    verb in lower case and one blank before the remainder. *)
Theorem mirrored_verbs_round_trip (input first rest v w : string) :
  split_first input = Some (first, rest) ->
  In (v, w) mirrored_verbs ->
  (lc_copy first = v ->
   map_command input 0 1 = Some (verb_with w rest) /\
   map_command (verb_with w rest) 1 0 = Some (verb_with v rest)) /\
  (lc_copy first = w ->
   map_command input 1 0 = Some (verb_with v rest) /\
   map_command (verb_with v rest) 0 1 = Some (verb_with w rest)).
Proof.
  intros Hs Hin.
  destruct (mirrored_in_tables v w Hin)
    as (Hl & Hw & Hlv & Hlw & (Hv1 & Hv2 & Hv3 & Hv4) & (Hw1 & Hw2 & Hw3 & Hw4)).
  destruct (split_first_rest_length input first rest Hs) as [_ Hlen].
  pose proof (split_first_rest_no_leading input first rest Hs) as Hnl.
  split; intros Hfirst.
  - split; [now apply (linux_substitution_core input first rest v w)|].
    apply (windows_substitution_core _ w rest w v); auto.
    now apply split_first_word.
  - split; [now apply (windows_substitution_core input first rest w v)|].
    apply (linux_substitution_core _ v rest v w); auto.
    now apply split_first_word.
Qed.

Lemma mirrored_verbs_round_trip_witness :
  map_command "CP  a.txt b.txt" 0 1 = Some "copy a.txt b.txt" /\
  map_command "copy a.txt b.txt" 1 0 = Some "cp a.txt b.txt".
Proof.
  exact (proj1 (mirrored_verbs_round_trip "CP  a.txt b.txt" "CP"
                  "a.txt b.txt" "cp" "copy" eq_refl
                  ltac:(vm_compute; auto 10)) eq_refl).
Defined.

Lemma strip_trailing_fixed (s : string) :
  no_trailing_space s -> strip_trailing s = s.
Proof.
  unfold no_trailing_space.
  induction s as [|c s IH]; [reflexivity|]. cbn [last_char strip_trailing].
  destruct s as [|d s].
  - intros Hc. cbn. now rewrite Hc.
  - intros H. rewrite (IH H). cbn [is_empty]. now rewrite andb_false_r.
Qed.

Lemma last_char_append (a : string) (c : ascii) :
  last_char (a ++ String c "") = Some c.
Proof.
  induction a as [|x a IH]; [reflexivity|]. cbn [append last_char].
  rewrite IH. destruct (a ++ String c "") eqn:E; [|reflexivity].
  now destruct a.
Qed.

Lemma no_space_last (s : string) :
  no_space s = true -> no_trailing_space s.
Proof.
  unfold no_space, no_trailing_space.
  induction s as [|c s IH]; [intros; exact I|]. cbn [all_chars last_char].
  intros H. apply andb_true_iff in H as [Hc Hs].
  destruct s; [now apply negb_true_iff | now apply IH].
Qed.

Lemma no_space_first (s : string) :
  no_space s = true -> no_leading_space s.
Proof.
  destruct s as [|c s]; [intros; exact I|]. unfold no_space. cbn.
  intros H. apply andb_true_iff in H as [Hc _]. now apply negb_true_iff.
Qed.

(** X14.  [kill -9 <pid>] and [taskkill /PID <pid> /F] are translated into
    each other, for every process id without white space that fits the
    token buffer. *)
Theorem kill_taskkill_round_trip (pid : string) :
  pid <> "" -> no_space pid = true ->
  (String.length pid < MAX_TOK)%nat ->
  map_command ("kill -9 " ++ pid) 0 1
  = Some ("taskkill /PID " ++ pid ++ " /F") /\
  map_command ("taskkill /PID " ++ pid ++ " /F") 1 0
  = Some ("kill -9 " ++ pid).
Proof.
  intros Hne Hns Hlen.
  assert (HT : (MAX_TOK + 100 < MAX_LINE)%nat)
    by (unfold MAX_TOK, MAX_LINE; lia).
  pose proof MAPPED_SIZE_value as HM.
  split.
  - assert (Hs : split_first ("kill -9 " ++ pid)
                 = Some ("kill", "-9 " ++ pid)).
    { change ("kill -9 " ++ pid) with (verb_with "kill" ("-9 " ++ pid)).
      apply split_first_word;
        [ discriminate | reflexivity | reflexivity
        | unfold MAX_TOK; cbn [String.length]; lia
        | reflexivity
        | cbn [append String.length]; lia ]. }
    unfold map_command.
    rewrite (map_command_linux_to_windows _ "kill" ("-9 " ++ pid) Hs).
    change (linux_to_windows ("kill -9 " ++ pid) (lc_copy "kill")
              ("-9 " ++ pid))
      with (option_map (fun t => (t, false)) (map_kill ("-9 " ++ pid))).
    unfold map_kill.
    change (strstr ("-9 " ++ pid) "-9") with (Some 0%nat). cbn [found].
    rewrite strncpy_fits by (cbn [append String.length]; lia).
    unfold replace_first.
    change (strstr ("-9 " ++ pid) "-9") with (Some 0%nat). cbv beta iota.
    change (clip 0 ("-9 " ++ pid) ++ "" ++ skipn_str (0 + String.length "-9")
                                            ("-9 " ++ pid))
      with (" " ++ pid).
    rewrite (snprintf_fits MAX_LINE (" " ++ pid))
      by (cbn [append String.length]; lia).
    rewrite clip_all by (cbn [append String.length]; lia).
    unfold trim. cbn [append skip_spaces]. change (isspace " ") with true.
    cbv iota. rewrite (skip_spaces_fixed pid (no_space_first pid Hns)).
    rewrite (strip_trailing_fixed pid (no_space_last pid Hns)).
    rewrite snprintf_fits
      by (cbn [append String.length]; rewrite ?length_append;
          cbn [String.length]; lia).
    reflexivity.
  - assert (Hs : split_first ("taskkill /PID " ++ pid ++ " /F")
                 = Some ("taskkill", "/PID " ++ pid ++ " /F")).
    { change ("taskkill /PID " ++ pid ++ " /F")
        with (verb_with "taskkill" ("/PID " ++ pid ++ " /F")).
      apply split_first_word;
        [ discriminate | reflexivity | reflexivity
        | unfold MAX_TOK; cbn [String.length]; lia
        | reflexivity
        | cbn [append String.length]; rewrite length_append;
          cbn [String.length]; lia ]. }
    rewrite (map_command_windows_to_linux _ "taskkill" _ Hs).
    change (windows_to_linux ("taskkill /PID " ++ pid ++ " /F")
              (lc_copy "taskkill") ("/PID " ++ pid ++ " /F"))
      with (map_taskkill ("/PID " ++ pid ++ " /F")).
    unfold map_taskkill.
    rewrite strncpy_fits
      by (cbn [append String.length]; rewrite length_append;
          cbn [String.length]; lia).
    assert (Htrim : trim ("/PID " ++ pid ++ " /F") = "/PID " ++ pid ++ " /F").
    { unfold trim. cbn [append skip_spaces]. change (isspace "/") with false.
      cbv iota. apply strip_trailing_fixed. unfold no_trailing_space.
      assert (E : String "/" (String "P" (String "I" (String "D"
                    (String " " (pid ++ " /F")))))
                  = ("/PID " ++ pid ++ " /") ++ String "F" "").
      { cbn [append]. do 5 f_equal. now rewrite append_assoc. }
      rewrite E, last_char_append. reflexivity. }
    rewrite Htrim.
    change (strstr ("/PID " ++ pid ++ " /F") "/PID") with (Some 0%nat).
    cbv iota beta.
    change (skipn_str (0 + 4) ("/PID " ++ pid ++ " /F"))
      with (" " ++ pid ++ " /F").
    cbn [append skip_spaces]. change (isspace " ") with true. cbv iota.
    pose proof (no_space_first pid Hns) as Hfirst.
    assert (Hpid : skip_spaces (pid ++ " /F") = pid ++ " /F").
    { apply skip_spaces_fixed. destruct pid; [congruence | exact Hfirst]. }
    rewrite Hpid, (span_until_word pid " /F" Hns). cbn [fst span_until].
    change (isspace " ") with true. cbv iota. cbn [fst].
    rewrite append_empty_r, clip_all by lia.
    rewrite snprintf_fits
      by (cbn [append String.length]; rewrite ?length_append;
          cbn [String.length]; lia).
    reflexivity.
Qed.

Lemma kill_taskkill_round_trip_witness :
  map_command "kill -9 4242" 0 1 = Some "taskkill /PID 4242 /F" /\
  map_command "taskkill /PID 4242 /F" 1 0 = Some "kill -9 4242".
Proof.
  exact (kill_taskkill_round_trip "4242" ltac:(discriminate) eq_refl
           ltac:(vm_compute; lia)).
Defined.

Ltac rule_cases H :=
  repeat (apply orb_true_iff in H; destruct H as [H|H]);
  try discriminate H; apply String.eqb_eq in H; subst.

Lemma linux_rule_ignores_input (i1 i2 v rest : string) :
  has_linux_rule v rest = true ->
  linux_to_windows i1 v rest = linux_to_windows i2 v rest.
Proof.
  intros H. unfold has_linux_rule in H.
  apply orb_true_iff in H as [H|H].
  - unfold linux_rule_verbs in H. cbn [existsb] in H.
    rule_cases H; reflexivity.
  - apply andb_true_iff in H as [Hv Hf]. apply String.eqb_eq in Hv. subst v.
    change (linux_to_windows i1 "ip" rest)
      with (if found (strstr rest "addr")
            then Some (SETM "ipconfig /all", false)
            else linux_to_windows i1 "ip " rest).
    change (linux_to_windows i2 "ip" rest)
      with (if found (strstr rest "addr")
            then Some (SETM "ipconfig /all", false)
            else linux_to_windows i2 "ip " rest).
    now rewrite Hf.
Qed.

Lemma windows_rule_ignores_input (i1 i2 v rest : string) :
  has_windows_rule v = true ->
  windows_to_linux i1 v rest = windows_to_linux i2 v rest.
Proof.
  intros H. unfold has_windows_rule, windows_rule_verbs in H.
  cbn [existsb] in H. rule_cases H; reflexivity.
Qed.

(** X15.  The verb is matched without regard to letter case: two stages
    whose verbs differ in case only and whose remainders are the same get
    the same translation, whenever the verb has a rule. *)
Theorem verb_case_is_ignored (input1 input2 first1 first2 rest : string) :
  split_first input1 = Some (first1, rest) ->
  split_first input2 = Some (first2, rest) ->
  lc_copy first1 = lc_copy first2 ->
  (has_linux_rule (lc_copy first1) rest = true ->
   map_command input1 0 1 = map_command input2 0 1) /\
  (has_windows_rule (lc_copy first1) = true ->
   map_command input1 1 0 = map_command input2 1 0).
Proof.
  intros H1 H2 Hlc. split; intros Hrule.
  - unfold map_command.
    rewrite (map_command_linux_to_windows input1 first1 rest H1),
            (map_command_linux_to_windows input2 first2 rest H2), <- Hlc.
    now rewrite (linux_rule_ignores_input input1 input2 _ rest Hrule).
  - rewrite (map_command_windows_to_linux input1 first1 rest H1),
            (map_command_windows_to_linux input2 first2 rest H2), <- Hlc.
    now apply windows_rule_ignores_input.
Qed.

Lemma verb_case_is_ignored_witness :
  map_command "LS -l" 0 1 = map_command "ls -l" 0 1 /\
  map_command "Dir /w" 1 0 = map_command "DIR /w" 1 0.
Proof.
  split.
  - exact (proj1 (verb_case_is_ignored "LS -l" "ls -l" "LS" "ls" "-l"
                    eq_refl eq_refl eq_refl) eq_refl).
  - exact (proj2 (verb_case_is_ignored "Dir /w" "DIR /w" "Dir" "DIR" "/w"
                    eq_refl eq_refl eq_refl) eq_refl).
Defined.

End Substitutions.

(** * The session loops *)

Section Sessions.

Variable WIN32 : bool.
Variable host : string -> Z.
Variable source_is_windows : Z.

Lemma Some_inj {A} (a b : A) : Some a = Some b -> a = b.
Proof. intros H. now injection H. Qed.

Lemma clip_nonempty (n : nat) (s : string) :
  s <> "" -> (0 < n)%nat -> clip n s <> "".
Proof.
  intros Hs Hn. destruct s as [|c s]; [congruence|].
  destruct n as [|n]; [lia|]. cbn [clip]. discriminate.
Qed.

Lemma add_history_step (h : history) (l : string) :
  l <> "" -> (List.length h <= MAX_HISTORY)%nat ->
  (List.length (add_history h (Some l)) <= MAX_HISTORY)%nat /\
  (add_history h (Some l) = h \/
   exists l', l' <> "" /\
     add_history h (Some l)
     = ((if (List.length h <? MAX_HISTORY)%nat then h else tl h) ++ [l'])%list).
Proof.
  intros Hl Hh. destruct (List.length h <? MAX_HISTORY)%nat eqn:E.
  - apply Nat.ltb_lt in E. rewrite (add_history_room h l Hl E). split.
    + rewrite length_app. cbn [List.length]. lia.
    + right. now exists l.
  - apply Nat.ltb_ge in E.
    assert (E' : List.length h = MAX_HISTORY) by lia.
    rewrite (add_history_full h l Hl E'). split.
    + rewrite length_app. cbn [List.length].
      pose proof MAX_HISTORY_value as HM.
      destruct h as [|x h]; cbn [tl List.length] in *; lia.
    + right. now exists l.
Qed.

Ltac turn_step :=
  match goal with
  | |- context [snd (fst (if ?b then _ else _))] => destruct b eqn:?
  | |- context [snd (fst (match ?x with _ => _ end))] => destruct x eqn:?
  end; cbn [fst snd].

Ltac expansion_cases :=
  match goal with
  | E : (if starts_with "!" ?l then _ else _) = Some _ |- _ =>
      destruct (starts_with "!" l);
      [ destruct (expand_bang _ l) as [e|]; [|discriminate E];
        destruct (negb (is_empty e)) eqn:?
      | ];
      cbv iota in E;
      first [ discriminate E
            | apply Some_pair_inj in E; destruct E as [_ E];
              first [ discriminate E
                    | apply Some_inj in E; subst; auto ]
            | apply Some_inj in E;
              first [ apply pair_inj in E; destruct E as [_ E] | idtac ];
              subst; auto ]
  end.

Ltac history_cases Hh :=
  repeat turn_step;
  try (split; [exact Hh | now left]);
  try (apply add_history_step; [|exact Hh]);
  auto; subst; try expansion_cases.

(** X16.  Whatever the line, a turn of any of the three session loops
    leaves the history as it was or puts one non-empty line at its end,
    dropping the oldest entry when the store is full; the store never grows
    beyond its thousand slots. *)
Theorem turn_records_at_most_one_line (h : history) (raw : string) :
  (List.length h <= MAX_HISTORY)%nat ->
  Forall (fun h' =>
            (List.length h' <= MAX_HISTORY)%nat /\
            (h' = h \/
             exists l, l <> "" /\
               h' = ((if (List.length h <? MAX_HISTORY)%nat then h else tl h)
                     ++ [l])%list))
    [ snd (fst (Custard.session_turn WIN32 host source_is_windows h raw));
      snd (fst (Cust.session_turn WIN32 host source_is_windows h raw));
      snd (fst (Gemini.session_turn WIN32 host source_is_windows h raw)) ].
Proof.
  intros Hh.
  assert (Hline : is_empty (trim raw) = false -> trim raw <> "").
  { intros E C. rewrite C in E. discriminate. }
  assert (Hclip : forall e, negb (is_empty e) = true ->
                            clip (MAX_LINE - 1) e <> "").
  { intros e E. apply clip_nonempty; [|unfold MAX_LINE; lia].
    intros C. rewrite C in E. discriminate. }
  apply Forall_cons; [|apply Forall_cons; [|apply Forall_cons; [|apply Forall_nil]]].
  - unfold Custard.session_turn. cbv zeta. history_cases Hh.
  - unfold Cust.session_turn. cbv zeta. history_cases Hh.
  - unfold Gemini.session_turn. cbv zeta. history_cases Hh.
Qed.

Lemma bang_line (line : string) :
  starts_with "!" line = true -> exists l, line = String "!" l.
Proof.
  destruct line as [|c l]; cbn [starts_with]; [discriminate|].
  rewrite andb_true_r. intros E. apply Ascii.eqb_eq in E. subst c.
  now exists l.
Qed.

Lemma translate_single_stage_exits
    (handler : string -> run bool)
    (mapper : string -> Z -> Z -> option (string * bool)) (k : bool)
    (line : string) (s hw : Z) (ev : list event) :
  strchr line "|" = false -> trim line = line -> line <> "" ->
  handler line = (ev, Exited) ->
  translate_pipeline_of handler mapper k line s hw = (ev, Exited).
Proof.
  intros Hp Ht Hl Hh. unfold translate_pipeline_of.
  rewrite (strtok_all_single "|" line Hp Hl). cbn [pipeline_loop].
  rewrite Ht, (proj2 (is_empty_false line) Hl). cbn [negb].
  rewrite Hh. reflexivity.
Qed.

Lemma cust_handle_builtin_passes (h : history) (line first rest : string) :
  split_first line = Some (first, rest) ->
  passes_builtins (lc_copy first) = true ->
  Cust.handle_builtin_pipeline WIN32 h line = ([], Ret false).
Proof.
  intros Hs Hp. unfold Cust.handle_builtin_pipeline. rewrite Hs.
  cbn [lift_option bind_run fst].
  unfold passes_builtins in Hp. apply negb_true_iff in Hp.
  repeat (apply orb_false_iff in Hp; destruct Hp as [Hp ?]).
  repeat match goal with H : (_ =? _) = false |- _ => rewrite H; clear H end.
  reflexivity.
Qed.

Lemma gemini_handle_builtin_passes (h : history) (line first rest : string) :
  split_first line = Some (first, rest) ->
  passes_builtins (lc_copy first) = true ->
  Gemini.handle_builtin_pipeline WIN32 h line = ([], Ret false).
Proof.
  intros Hs Hp. unfold Gemini.handle_builtin_pipeline. rewrite Hs.
  cbn [lift_option bind_run fst].
  unfold passes_builtins in Hp. apply negb_true_iff in Hp.
  repeat (apply orb_false_iff in Hp; destruct Hp as [Hp ?]).
  repeat match goal with H : (_ =? _) = false |- _ => rewrite H; clear H end.
  reflexivity.
Qed.

Lemma bang_verb_passes (tok : string) :
  passes_builtins (lc_copy (String "!" tok)) = true.
Proof. reflexivity. Qed.

Lemma cust_bang_stage (l first rest : string) (s hw : Z) :
  split_first (String "!" l) = Some (first, rest) ->
  Cust.map_command (String "!" l) s hw = Some (String "!" l).
Proof.
  intros Hs. destruct (split_first_bang l first rest Hs) as [tok ->].
  unfold Cust.map_command. rewrite Hs.
  destruct (s =? 0)%Z; destruct (hw =? 0)%Z; reflexivity.
Qed.

(** X17.  A reference to the history that resolves to nothing, on a line of
    one stage: [custard.c] reports it, records nothing and runs nothing;
    [cust.c] keeps the line as typed, records it and hands it to the host
    shell, and calls its fallback when the shell cannot be started. *)
Theorem missing_reference_turns (h : history) (raw first rest : string) :
  let line := trim raw in
  starts_with "!" line = true ->
  expand_bang h line = Some "" ->
  strchr line "|" = false ->
  (String.length line < MAX_LINE)%nat ->
  split_first line = Some (first, rest) ->
  Custard.session_turn WIN32 host source_is_windows h raw
  = ([Print (if (source_is_windows =? 0)%Z then "bash> " else "cmd> ");
      Print ("No such history entry." ++ nl)],
     h, Ret Custard.Continue) /\
  Cust.session_turn WIN32 host source_is_windows h raw
  = ([Print ((if (source_is_windows =? 0)%Z then "bash" else "cmd") ++ "> ");
      Print ("[Translated] " ++ line ++ nl);
      System line]
     ++ (if (host line =? -1)%Z then Cust.call_gemini_api line else []),
     add_history h (Some line), Ret Custard.Continue)%list.
Proof.
  intros line Hbang Hexp Hpipe Hlen Hs.
  destruct (bang_line line Hbang) as [l Hl].
  assert (Htrim : trim line = line) by apply trim_idempotent.
  rewrite Hl in Hexp, Hpipe, Hlen, Hs, Htrim. split.
  - unfold Custard.session_turn. fold line. rewrite Hl.
    cbn [starts_with Ascii.eqb Bool.eqb andb orb String.eqb is_empty].
    rewrite Hexp. reflexivity.
  - unfold Cust.session_turn. fold line. rewrite Hl.
    cbn [starts_with Ascii.eqb Bool.eqb andb orb String.eqb is_empty].
    rewrite Hexp. cbn [is_empty negb].
    unfold Cust.translate_pipeline.
    destruct (split_first_bang l first rest Hs) as [tok Htok].
    rewrite (translate_single_stage _ _ _ (String "!" l) (String "!" l) false);
      [ | assumption | assumption | discriminate
        | apply cust_handle_builtin_passes with first rest;
          [assumption | rewrite Htok; apply bang_verb_passes]
        | cbv beta; now rewrite (cust_bang_stage l first rest _ _ Hs) ].
    rewrite clip_all by (unfold MAPPED_SIZE, MAX_LINE in *; lia).
    reflexivity.
Qed.

(** X18.  A plain line whose verb is [exit] or [quit], in any letter case:
    the loop of [custard.c] ends the session without recording the line;
    the loops of the other two files have no such test, so a line of one
    stage is recorded first and the process is ended from inside
    [translate_pipeline]. *)
Theorem exit_ends_the_session (h : history) (raw first rest : string) :
  let line := trim raw in
  plain_line line = true ->
  (String.length line < MAX_LINE)%nat ->
  split_first line = Some (first, rest) ->
  (lc_copy first =? "exit") || (lc_copy first =? "quit") = true ->
  Custard.session_turn WIN32 host source_is_windows h raw
  = ([Print (if (source_is_windows =? 0)%Z then "bash> " else "cmd> ")],
     h, Ret Custard.Break) /\
  (strchr line "|" = false ->
   Cust.session_turn WIN32 host source_is_windows h raw
   = ([Print ((if (source_is_windows =? 0)%Z then "bash" else "cmd") ++ "> ")],
      add_history h (Some line), Exited) /\
   Gemini.session_turn WIN32 host source_is_windows h raw
   = ([Print ((if (source_is_windows =? 0)%Z then "bash" else "cmd") ++ "> ")],
      add_history h (Some line), Exited)).
Proof.
  intros line Hplain Hlen Hs Hexit.
  unfold plain_line in Hplain. apply negb_true_iff in Hplain.
  repeat (apply orb_false_iff in Hplain; destruct Hplain as [Hplain ?]).
  assert (Hne : line <> "") by now apply is_empty_false.
  assert (Hhelp : (lc_copy first =? "help") = false).
  { apply orb_true_iff in Hexit as [E|E]; apply String.eqb_eq in E;
      now rewrite E. }
  split; [|intros Hpipe; split].
  - unfold Custard.session_turn. fold line.
    repeat match goal with
           | H : (_ =? _) = false |- _ => rewrite H; clear H
           | H : starts_with "!" line = false |- _ => rewrite H
           end.
    rewrite Hplain. cbn [orb].
    rewrite (strncpy_fits MAX_LINE line Hlen), Hs, Hexit. reflexivity.
  - unfold Cust.session_turn. fold line.
    match goal with H : starts_with "!" line = false |- _ => rewrite H end.
    rewrite Hplain. unfold Cust.translate_pipeline.
    rewrite (translate_single_stage_exits _ _ _ line _ _ []);
      [ reflexivity | assumption | apply trim_idempotent | assumption | ].
    unfold Cust.handle_builtin_pipeline. rewrite Hs.
    cbn [lift_option bind_run fst]. now rewrite Hhelp, Hexit.
  - unfold Gemini.session_turn. fold line.
    match goal with H : starts_with "!" line = false |- _ => rewrite H end.
    rewrite Hplain. unfold Gemini.translate_pipeline.
    rewrite (translate_single_stage_exits _ _ _ line _ _ []);
      [ reflexivity | assumption | apply trim_idempotent | assumption | ].
    unfold Gemini.handle_builtin_pipeline. rewrite Hs.
    cbn [lift_option bind_run fst]. now rewrite Hhelp, Hexit.
Qed.

End Sessions.

Lemma turn_records_at_most_one_line_witness :
  (List.length ["ls"] <= MAX_HISTORY)%nat /\
  Forall (fun h' =>
            (List.length h' <= MAX_HISTORY)%nat /\
            (h' = ["ls"] \/
             exists l, l <> "" /\
               h' = ((if (List.length ["ls"] <? MAX_HISTORY)%nat
                      then ["ls"] else tl ["ls"]) ++ [l])%list))
    [ snd (fst (Custard.session_turn false (fun _ => 0) 0 ["ls"]
                  ("pwd" ++ nl)));
      snd (fst (Cust.session_turn false (fun _ => 0) 0 ["ls"] ("pwd" ++ nl)));
      snd (fst (Gemini.session_turn false (fun _ => 0) 0 ["ls"]
                  ("pwd" ++ nl))) ].
Proof.
  assert (H : (List.length ["ls"] <= MAX_HISTORY)%nat)
    by (rewrite MAX_HISTORY_value; cbn [List.length]; lia).
  split; [exact H|].
  exact (turn_records_at_most_one_line false (fun _ => 0) 0 ["ls"]
           ("pwd" ++ nl) H).
Defined.

Lemma missing_reference_turns_witness :
  Custard.session_turn false (fun _ => 0) 0 [] ("!!" ++ nl)
  = ([Print "bash> "; Print ("No such history entry." ++ nl)],
     [], Ret Custard.Continue) /\
  Cust.session_turn false (fun _ => 0) 0 [] ("!!" ++ nl)
  = ([Print "bash> "; Print ("[Translated] !!" ++ nl); System "!!"],
     ["!!"], Ret Custard.Continue).
Proof.
  exact (missing_reference_turns false (fun _ => 0) 0 [] ("!!" ++ nl)
           "!!" "" eq_refl eq_refl eq_refl
           ltac:(unfold MAX_LINE; cbn; lia) eq_refl).
Defined.

Lemma exit_ends_the_session_witness :
  Custard.session_turn false (fun _ => 0) 0 ["ls"] ("Exit now" ++ nl)
  = ([Print "bash> "], ["ls"], Ret Custard.Break) /\
  Cust.session_turn false (fun _ => 0) 0 ["ls"] ("Exit now" ++ nl)
  = ([Print "bash> "], ["ls"; "Exit now"], Exited).
Proof.
  destruct (exit_ends_the_session false (fun _ => 0) 0 ["ls"]
              ("Exit now" ++ nl) "Exit" "now" eq_refl
              ltac:(unfold MAX_LINE; cbn; lia) eq_refl eq_refl)
    as [H1 H2].
  split; [exact H1 | exact (proj1 (H2 eq_refl))].
Defined.

(** * What reaches the host shell *)

Section HostCommands.

Variable host : string -> Z.

Lemma plain_line_tests (line : string) :
  plain_line line = true ->
  is_empty line = false /\ (line =? "help") = false /\
  ((line =? "CTRL + C") || (line =? "CTRL+C")) = false /\
  ((line =? "CTRL + D") || (line =? "CTRL+D")) = false /\
  ((line =? "CTRL + Z") || (line =? "CTRL+Z")) = false /\
  starts_with "!" line = false.
Proof.
  unfold plain_line. intros H. apply negb_true_iff in H.
  repeat (apply orb_false_iff in H; destruct H as [H ?]).
  repeat match goal with H : (_ =? _) = false |- _ => rewrite H; clear H end.
  repeat split; assumption.
Qed.

Lemma passes_builtins_tests (v : string) :
  passes_builtins v = true ->
  (v =? "help") = false /\ ((v =? "exit") || (v =? "quit")) = false /\
  (v =? "history") = false /\ (v =? "clear") = false.
Proof.
  unfold passes_builtins. intros H. apply negb_true_iff in H.
  repeat (apply orb_false_iff in H; destruct H as [H ?]).
  repeat match goal with H : (_ =? _) = false |- _ => rewrite H; clear H end.
  repeat split; assumption.
Qed.

Lemma commands_run_app (a b : list event) :
  commands_run (a ++ b) = (commands_run a ++ commands_run b)%list.
Proof. unfold commands_run. apply flat_map_app. Qed.

Lemma commands_run_on_host (c : string) :
  commands_run (Custard.run_on_host host c) = [c].
Proof.
  unfold Custard.run_on_host, commands_run. cbn [flat_map].
  destruct (host c =? -1)%Z; reflexivity.
Qed.

(** X19.  With equal dialects, a plain line of one stage that is no
    built-in and does not start as a note is announced twice and handed to
    the host as it was typed, without its surrounding white space; on a
    Unix-like build it is the one command that the turn runs. *)
Theorem equal_dialects_run_as_typed (WIN32 : bool) (h : history)
    (raw first rest : string) :
  let line := trim raw in
  (String.length line < MAX_LINE)%nat ->
  plain_line line = true ->
  strchr line "|" = false ->
  split_first line = Some (first, rest) ->
  passes_builtins (lc_copy first) = true ->
  starts_with "rem " line || starts_with "true" line
  || starts_with "echo " line = false ->
  Custard.session_turn WIN32 host (Custard.HOST_IS_WINDOWS WIN32) h raw
  = ([Print (if WIN32 then "cmd> " else "bash> ");
      Print ("[Translated ->] " ++ line ++ nl);
      Print ("[Translated ->] " ++ line ++ nl)]
     ++ Custard.execute WIN32 host line,
     add_history h (Some line), Ret Custard.Continue)%list /\
  (WIN32 = false ->
   commands_run
     (fst (fst (Custard.session_turn WIN32 host
                  (Custard.HOST_IS_WINDOWS WIN32) h raw)))
   = [line]).
Proof.
  intros line Hlen Hplain Hpipe Hs Hp Hnote.
  assert (Hturn :
    Custard.session_turn WIN32 host (Custard.HOST_IS_WINDOWS WIN32) h raw
    = ([Print (if WIN32 then "cmd> " else "bash> ");
        Print ("[Translated ->] " ++ line ++ nl);
        Print ("[Translated ->] " ++ line ++ nl)]
       ++ Custard.execute WIN32 host line,
       add_history h (Some line), Ret Custard.Continue)%list).
  { unfold Custard.session_turn. fold line.
    destruct (plain_line_tests line Hplain) as (E1 & E2 & E3 & E4 & E5 & E6).
    rewrite E1, E2, E3, E4, E5, E6.
    rewrite (strncpy_fits MAX_LINE line Hlen), Hs.
    destruct (passes_builtins_tests _ Hp) as (_ & B2 & B3 & B4).
    rewrite B2, B3, B4.
    unfold Custard.translate_pipeline.
    rewrite (translate_single_stage _ _ _ line line false);
      [ | assumption | apply trim_idempotent
        | now apply is_empty_false
        | now apply handle_builtin_passes with first rest
        | unfold Custard.map_command_traced; now rewrite Z.eqb_refl ].
    rewrite clip_all by (unfold MAPPED_SIZE, MAX_LINE in *; lia).
    rewrite Hnote, E1. cbn [negb].
    destruct WIN32; reflexivity. }
  split; [exact Hturn|]. intros ->. rewrite Hturn. cbn [fst].
  rewrite commands_run_app. unfold Custard.execute.
  rewrite commands_run_on_host. reflexivity.
Qed.




End HostCommands.

Lemma equal_dialects_run_as_typed_witness :
  Custard.session_turn false (fun _ => 0) 0 ["ls"] ("  grep -r foo ." ++ nl)
  = ([Print "bash> ";
      Print ("[Translated ->] grep -r foo ." ++ nl);
      Print ("[Translated ->] grep -r foo ." ++ nl);
      System "grep -r foo ."],
     ["ls"; "grep -r foo ."], Ret Custard.Continue).
Proof.
  exact (proj1 (equal_dialects_run_as_typed (fun _ => 0) false ["ls"]
                  ("  grep -r foo ." ++ nl) "grep" "-r foo ."
                  ltac:(unfold MAX_LINE; cbn; lia)
                  eq_refl eq_refl eq_refl eq_refl eq_refl)).
Defined.


(** * The variant with the assistant fallback *)

Section GeminiTurns.

Variable host : string -> Z.

Lemma gemini_answer_fits (query os_context : string) :
  Gemini.gemini_ai_answer query os_context <> "" /\
  (String.length (Gemini.gemini_ai_answer query os_context) < MAX_LINE)%nat.
Proof.
  unfold Gemini.gemini_ai_answer, snprintf_buf. split.
  - apply clip_nonempty; [discriminate | unfold MAX_LINE; lia].
  - rewrite length_clip. unfold MAX_LINE. lia.
Qed.

Lemma gemini_turn_of (WIN32 : bool) (source_is_windows : Z) (h : history)
    (raw first rest translated : string) :
  let line := trim raw in
  line <> "" -> starts_with "!" line = false ->
  strchr line "|" = false ->
  split_first line = Some (first, rest) ->
  passes_builtins (lc_copy first) = true ->
  Gemini.map_command line source_is_windows (Custard.HOST_IS_WINDOWS WIN32)
  = Some translated ->
  translated <> "" -> (String.length translated < MAX_LINE)%nat ->
  Gemini.session_turn WIN32 host source_is_windows h raw
  = ([Print ((if (source_is_windows =? 0)%Z then "bash" else "cmd") ++ "> ");
      Print ("[Translated ->] " ++ translated ++ nl);
      System translated]
     ++ (if (host translated =? -1)%Z
         then [Print ("Failed to run command." ++ nl)] else []),
     add_history h (Some line), Ret Custard.Continue)%list.
Proof.
  intros line Hne Hbang Hpipe Hs Hp Hm Hta Htl.
  unfold Gemini.session_turn. fold line.
  rewrite (proj2 (is_empty_false line) Hne), Hbang.
  unfold Gemini.translate_pipeline.
  rewrite (translate_single_stage _ _ _ line translated false);
    [ | assumption | apply trim_idempotent | assumption
      | now apply gemini_handle_builtin_passes with first rest
      | cbv beta; now rewrite Hm ].
  rewrite clip_all by (unfold MAPPED_SIZE, MAX_LINE in *; lia).
  rewrite (proj2 (is_empty_false translated) Hta). reflexivity.
Qed.

(** X21.  In the variant with the assistant fallback, a plain line of one
    stage whose verb has no rule is answered with the canned sentence, and
    the session loop hands that sentence to the host shell as a command:
    from Linux to Windows for every verb but [ls], [pwd], [cat] and [rm],
    from Windows to Linux for every verb but [dir], [type] and [del]. *)
Theorem gemini_answer_is_run (h : history) (raw first rest : string) :
  let line := trim raw in
  line <> "" -> starts_with "!" line = false ->
  strchr line "|" = false ->
  split_first line = Some (first, rest) ->
  passes_builtins (lc_copy first) = true ->
  (existsb (String.eqb (lc_copy first)) ["ls"; "pwd"; "cat"; "rm"] = false ->
   let answer := Gemini.gemini_ai_answer line "Windows" in
   Gemini.session_turn true host 0 h raw
   = ([Print "bash> "; Print ("[Translated ->] " ++ answer ++ nl);
       System answer]
      ++ (if (host answer =? -1)%Z
          then [Print ("Failed to run command." ++ nl)] else []),
      add_history h (Some line), Ret Custard.Continue)%list) /\
  (existsb (String.eqb (lc_copy first)) ["dir"; "type"; "del"] = false ->
   let answer := Gemini.gemini_ai_answer line "Linux/macOS/iOS" in
   Gemini.session_turn false host 1 h raw
   = ([Print "cmd> "; Print ("[Translated ->] " ++ answer ++ nl);
       System answer]
      ++ (if (host answer =? -1)%Z
          then [Print ("Failed to run command." ++ nl)] else []),
      add_history h (Some line), Ret Custard.Continue)%list).
Proof.
  intros line Hne Hbang Hpipe Hs Hp. split; intros Hv answer.
  - destruct (gemini_answer_fits line "Windows") as [Ha Hl].
    apply (gemini_turn_of true 0 h raw first rest answer Hne Hbang Hpipe Hs Hp);
      [|exact Ha|exact Hl].
    fold line. unfold Gemini.map_command. rewrite Hs.
    cbn [existsb] in Hv.
    repeat (apply orb_false_iff in Hv; destruct Hv as [? Hv]).
    cbn [Custard.HOST_IS_WINDOWS Z.eqb andb negb].
    repeat match goal with
           | H : (lc_copy first =? _) = false |- _ => rewrite H; clear H
           end.
    reflexivity.
  - destruct (gemini_answer_fits line "Linux/macOS/iOS") as [Ha Hl].
    apply (gemini_turn_of false 1 h raw first rest answer Hne Hbang Hpipe Hs Hp);
      [|exact Ha|exact Hl].
    fold line. unfold Gemini.map_command. rewrite Hs.
    cbn [existsb] in Hv.
    repeat (apply orb_false_iff in Hv; destruct Hv as [? Hv]).
    cbn [Custard.HOST_IS_WINDOWS Z.eqb andb negb].
    repeat match goal with
           | H : (lc_copy first =? _) = false |- _ => rewrite H; clear H
           end.
    reflexivity.
Qed.

End GeminiTurns.

Lemma gemini_answer_is_run_witness :
  commands_run
    (fst (fst (Gemini.session_turn true (fun _ => 0) 0 [] ("grep foo" ++ nl))))
  = ["Gemini AI: I don't know 'grep foo' on Windows. Suggest checking documentation or OS-specific command."].
Proof.
  rewrite (proj1 (gemini_answer_is_run (fun _ => 0) [] ("grep foo" ++ nl)
                    "grep" "foo" ltac:(discriminate) eq_refl eq_refl eq_refl
                    eq_refl)
             eq_refl).
  reflexivity.
Defined.

(** * Rules with a scratch buffer *)

Section ScratchRules.

Import Custard.

Lemma linux_rule_head (input rest : string) :
  linux_to_windows input "head" rest
  = option_map (fun t => (t, false)) (map_head rest).
Proof. reflexivity. Qed.

Lemma linux_rule_sudo (input rest : string) :
  linux_to_windows input "sudo" rest
  = option_map (fun t => (t, false)) (map_sudo rest).
Proof. reflexivity. Qed.

(** X22.  The [head] rule splits the remainder into a scratch buffer of
    [MAX_TOK] bytes that it passes for both results, and [split_first]
    writes [MAX_LINE-1] bytes of remainder into it: with any argument after
    [head] the call overruns the buffer, and only the bare verb has a
    translation, [more]. *)
Theorem head_rule_overruns (input first rest : string) :
  split_first input = Some (first, rest) ->
  lc_copy first = "head" ->
  map_command input 0 1 = if is_empty rest then Some "more" else None.
Proof.
  intros Hs Hlc. unfold map_command.
  rewrite (map_command_linux_to_windows input first rest Hs), Hlc,
          linux_rule_head.
  unfold map_head, split_first_buf.
  rewrite (skip_spaces_fixed rest (split_first_rest_no_leading _ _ _ Hs)).
  destruct rest as [|c r]; [reflexivity|].
  cbn [is_empty].
  match goal with
  | |- context [let '(_, _) := ?e in _] => destruct e as [tok after]
  end.
  change (MAX_LINE <=? MAX_TOK)%nat with false.
  rewrite andb_false_r. reflexivity.
Qed.

Lemma head_rule_overruns_witness :
  map_command "head -n 5 notes.txt" 0 1 = None /\
  map_command "HEAD" 0 1 = Some "more".
Proof.
  split.
  - exact (head_rule_overruns "head -n 5 notes.txt" "head" "-n 5 notes.txt"
             eq_refl eq_refl).
  - exact (head_rule_overruns "HEAD" "HEAD" "" eq_refl eq_refl).
Defined.

(** X23.  The [sudo] rule takes the word off and returns what follows as it
    was typed, without translating it; a bare [sudo] becomes a note. *)
Theorem sudo_is_taken_off (input first rest : string) :
  split_first input = Some (first, rest) ->
  lc_copy first = "sudo" ->
  map_command input 0 1
  = Some (if is_empty (trim rest) then "rem sudo with no command"
          else trim rest).
Proof.
  intros Hs Hlc. unfold map_command.
  rewrite (map_command_linux_to_windows input first rest Hs), Hlc,
          linux_rule_sudo.
  unfold map_sudo.
  rewrite (strncpy_fits MAX_LINE rest
             (proj2 (split_first_rest_length _ _ _ Hs))).
  now destruct (is_empty (trim rest)).
Qed.

Lemma sudo_is_taken_off_witness :
  map_command "sudo ls -la" 0 1 = Some "ls -la" /\
  map_command "ls -la" 0 1 = Some "dir -la".
Proof.
  split.
  - exact (sudo_is_taken_off "sudo ls -la" "sudo" "ls -la" eq_refl eq_refl).
  - reflexivity.
Defined.

End ScratchRules.

(** * Numbers written and read back *)

Section Decimals.

Ltac read_digit :=
  match goal with
  | |- context [isdigit ?c] =>
      change (isdigit c) with true; cbv iota;
      let v := eval vm_compute in (Z.of_N (N_of_ascii c) - 48) in
      change (Z.of_N (N_of_ascii c) - 48) with v
  end.

Lemma digits_value_stops (acc : Z) (r : string) :
  match r with "" => True | String c _ => isdigit c = false end ->
  digits_value acc r = acc.
Proof. destruct r as [|c r]; cbn [digits_value]; [easy|]. now intros ->. Qed.

Lemma digits_of_uint_acc (u : Decimal.uint) :
  forall (acc : positive) (r : string),
    match r with "" => True | String c _ => isdigit c = false end ->
    digits_value (Z.pos acc) (NilEmpty.string_of_uint u ++ r)
    = Z.pos (Pos.of_uint_acc u acc).
Proof.
  induction u as [|u IH|u IH|u IH|u IH|u IH|u IH|u IH|u IH|u IH|u IH];
    intros acc r Hr;
    cbn [NilEmpty.string_of_uint append Pos.of_uint_acc digits_value];
    [now apply digits_value_stops|..];
    read_digit; rewrite <- (IH _ r Hr); f_equal; lia.
Qed.

Lemma digits_of_uint (u : Decimal.uint) (r : string) :
  match r with "" => True | String c _ => isdigit c = false end ->
  digits_value 0 (NilEmpty.string_of_uint u ++ r) = Z.of_N (Pos.of_uint u).
Proof.
  intros Hr.
  induction u as [|u IH|u IH|u IH|u IH|u IH|u IH|u IH|u IH|u IH|u IH];
    cbn [NilEmpty.string_of_uint append Pos.of_uint digits_value];
    [now apply digits_value_stops|..]; read_digit;
    first [ exact IH | exact (digits_of_uint_acc u _ r Hr) ].
Qed.

Lemma all_digits_of_uint (u : Decimal.uint) :
  all_chars isdigit (NilEmpty.string_of_uint u) = true.
Proof.
  induction u as [|u IH|u IH|u IH|u IH|u IH|u IH|u IH|u IH|u IH|u IH];
    cbn [NilEmpty.string_of_uint all_chars]; [reflexivity|..];
    match goal with
    | |- context [isdigit ?c] => change (isdigit c) with true
    end; exact IH.
Qed.

Lemma string_of_Z_uint (n : Z) :
  0 <= n ->
  exists u, u <> Decimal.Nil /\
            string_of_Z n = NilEmpty.string_of_uint u /\
            Z.of_N (Pos.of_uint u) = n.
Proof.
  intros Hn. unfold string_of_Z. destruct n as [|p|p]; [| |lia].
  - exists (Decimal.D0 Decimal.Nil). repeat split; discriminate.
  - pose proof (DecimalPos.Unsigned.of_to p) as E.
    exists (Pos.to_uint p). cbn [Z.to_int NilZero.string_of_int].
    unfold NilZero.string_of_uint.
    destruct (Pos.to_uint p); [discriminate E|..];
      (split; [discriminate | split; [reflexivity | now rewrite E]]).
Qed.

Lemma string_of_Z_read (n : Z) (r : string) :
  0 <= n ->
  match r with "" => True | String c _ => isdigit c = false end ->
  digits_value 0 (string_of_Z n ++ r) = n.
Proof.
  intros Hn Hr. destruct (string_of_Z_uint n Hn) as (u & _ & -> & <-).
  now apply digits_of_uint.
Qed.

Lemma string_of_Z_digits (n : Z) :
  0 <= n ->
  all_chars isdigit (string_of_Z n) = true /\
  exists d t, string_of_Z n = String d t /\ isdigit d = true.
Proof.
  intros Hn. destruct (string_of_Z_uint n Hn) as (u & Hu & E & _).
  pose proof (all_digits_of_uint u) as Hall. rewrite <- E in Hall.
  split; [exact Hall|].
  destruct (string_of_Z n) as [|d t] eqn:Es.
  - destruct u; [congruence | discriminate E ..].
  - exists d, t. split; [reflexivity|]. cbn [all_chars] in Hall.
    now apply andb_true_iff in Hall.
Qed.

Lemma signed_value_digits (d : ascii) (t : string) :
  isdigit d = true ->
  signed_value (String d t) = digits_value 0 (String d t) /\
  match String d t with
  | String "-" r => r
  | String "+" r => r
  | _ => String d t
  end = String d t.
Proof.
  intros Hd.
  destruct d as [[] [] [] [] [] [] [] []];
    try (vm_compute in Hd; discriminate Hd); split; reflexivity.
Qed.

(** X24.  The number that [print_history] writes before an entry brings
    that entry back: [!] followed by the number of a slot, as [%d] prints
    it, expands to the entry in the slot. *)
Theorem history_numbers_resolve (h : history) :
  (List.length h <= MAX_HISTORY)%nat ->
  (forall i, (i < List.length h)%nat ->
             expand_bang h ("!" ++ string_of_Z (Z.of_nat i + 1))
             = Some (nth i h "")) /\
  Forall (fun e =>
            exists i,
              e = Print (string_of_Z (Z.of_nat i + 1) ++ "  " ++ nth i h ""
                         ++ nl) /\
              expand_bang h ("!" ++ string_of_Z (Z.of_nat i + 1))
              = Some (nth i h ""))
         (print_history h).
Proof.
  intros Hh.
  assert (Hnum : forall i, (i < List.length h)%nat ->
                   expand_bang h ("!" ++ string_of_Z (Z.of_nat i + 1))
                   = Some (nth i h "")).
  { intros i Hi.
    assert (Hn : 0 <= Z.of_nat i + 1) by lia.
    destruct (string_of_Z_digits _ Hn) as (_ & d & t & Es & Hd).
    pose proof (string_of_Z_read _ "" Hn I) as Hv.
    rewrite append_empty_r, Es in Hv. rewrite Es.
    cbn [append]. unfold expand_bang.
    assert (Hneq : (String "!" (String d t) =? "!!") = false).
    { apply String.eqb_neq. intros E. injection E as E _. subst d.
      vm_compute in Hd. discriminate. }
    pose proof MAX_HISTORY_value as HM.
    rewrite Hneq, Hd, (atoi_digits d t Hd), Hv
      by (rewrite Hv; unfold INT_MAX; lia).
    unfold hist_count.
    replace (Z.of_nat i + 1 <=? 0)%Z with false
      by (symmetry; apply Z.leb_gt; lia).
    replace (Z.of_nat (List.length h) <? Z.of_nat i + 1)%Z with false
      by (symmetry; apply Z.ltb_ge; lia).
    cbn [orb]. do 2 f_equal. lia. }
  split; [exact Hnum|].
  unfold print_history. rewrite <- skipn_map.
  rewrite (map_combine_seq
             (fun ie => Print (string_of_Z (Z.of_nat (fst ie) + 1) ++ "  "
                               ++ snd ie ++ nl)) h 0).
  apply Forall_forall. intros e He.
  assert (He' : In e (map (fun i => Print (string_of_Z (Z.of_nat i + 1)
                                           ++ "  " ++ nth (i - 0) h "" ++ nl))
                          (seq 0 (List.length h)))).
  { rewrite <- (firstn_skipn
                  (if (100 <? List.length h)%nat
                   then (List.length h - 100)%nat else 0%nat)).
    apply in_or_app. right. exact He. }
  apply in_map_iff in He' as (i & <- & Hi). apply in_seq in Hi.
  exists i. rewrite Nat.sub_0_r. split; [reflexivity|]. apply Hnum. lia.
Qed.

End Decimals.

Lemma history_numbers_resolve_witness :
  expand_bang ["ls -l"; "pwd"; "date"] ("!" ++ string_of_Z 2) = Some "pwd".
Proof.
  exact (proj1 (history_numbers_resolve ["ls -l"; "pwd"; "date"]
                  ltac:(rewrite MAX_HISTORY_value; cbn [List.length]; lia))
               1%nat ltac:(cbn [List.length]; lia)).
Defined.

(** * The [tail -n] rule *)

Section TailRule.

Import Custard.

Lemma tokens_from_word (d : ascii) (a s : string) :
  strchr a d = false ->
  forall acc, tokens_from d (a ++ s) acc = tokens_from d s (acc ++ a).
Proof.
  induction a as [|c a IH]; intros Ha acc.
  - now rewrite append_empty_r.
  - cbn [strchr] in Ha. apply orb_false_iff in Ha as [Hc Ha].
    cbn [append tokens_from]. rewrite Hc, (IH Ha), append_assoc.
    reflexivity.
Qed.

Lemma linux_rule_tail (input rest : string) :
  linux_to_windows input "tail" rest = map_tail rest.
Proof. reflexivity. Qed.

Lemma sscanf_n_reads (n : Z) (r : string) :
  0 <= n <= INT_MAX ->
  match r with "" => True | String c _ => isdigit c = false end ->
  sscanf_n ("-n " ++ string_of_Z n ++ r) = Some (Some n).
Proof.
  intros Hn Hr.
  destruct (string_of_Z_digits n (proj1 Hn)) as (_ & d & t & Es & Hd).
  pose proof (string_of_Z_read n r (proj1 Hn) Hr) as Hv.
  rewrite Es in Hv |- *.
  unfold sscanf_n.
  cbn [append starts_with Ascii.eqb Bool.eqb andb skipn_str].
  change (skip_spaces (String " " (String d (t ++ r))))
    with (skip_spaces (String d (t ++ r))).
  cbn [skip_spaces]. rewrite (isdigit_not_space d Hd).
  destruct (signed_value_digits d (t ++ r) Hd) as [Hsv Hbody].
  rewrite Hbody, Hd, Hsv. cbn [append] in Hv. rewrite Hv.
  unfold fits_int.
  replace (INT_MIN <=? n)%Z with true
    by (symmetry; apply Z.leb_le; unfold INT_MIN; lia).
  replace (n <=? INT_MAX)%Z with true by (symmetry; apply Z.leb_le; lia).
  reflexivity.
Qed.

(** X25.  [tail -n <n> <file>], for a count that an [int] holds and a file
    name without white space, where the remainder holds neither [-f] nor
    [-F]: the translation is [Get-Content <file> -Tail <n>], with the count
    read by [sscanf] and the file found as the last token, and the rule
    leaves the tokenizer of the C library at the end of its own buffer. *)
Theorem tail_n_rule (n : Z) (file : string) :
  let rest := "-n " ++ string_of_Z n ++ " " ++ file in
  0 <= n <= INT_MAX ->
  file <> "" -> no_space file = true ->
  found (strstr rest "-f") || found (strstr rest "-F") = false ->
  (String.length rest < MAX_LINE)%nat ->
  map_command_traced ("tail " ++ rest) 0 1
  = Some ("powershell -Command " ++ dq ++ "Get-Content " ++ file ++ " -Tail "
          ++ string_of_Z n ++ dq, true).
Proof.
  intros rest Hn Hfile Hns Hnof Hlen.
  assert (Hsplit : split_first ("tail " ++ rest) = Some ("tail", rest)).
  { change ("tail " ++ rest) with (verb_with "tail" rest).
    apply split_first_word;
      [ discriminate | reflexivity | reflexivity
      | unfold MAX_TOK; cbn; lia | reflexivity | exact Hlen ]. }
  rewrite (map_command_linux_to_windows _ _ _ Hsplit).
  change (lc_copy "tail") with "tail". rewrite linux_rule_tail.
  unfold map_tail. rewrite Hnof.
  change (strstr rest "-n") with (Some 0%nat). cbv iota beta.
  change (skipn_str 0 rest) with rest.
  unfold rest at 1.
  rewrite (sscanf_n_reads n (" " ++ file) Hn eq_refl).
  rewrite (strncpy_fits MAX_LINE rest Hlen).
  destruct (string_of_Z_digits n (proj1 Hn)) as (Hall & d & t & Es & Hd).
  assert (Htok : strtok_all rest " " = ["-n"; string_of_Z n; file]).
  { unfold strtok_all, rest.
    change ("-n " ++ string_of_Z n ++ " " ++ file)
      with ("-n" ++ String " " (string_of_Z n ++ String " " file)).
    rewrite (tokens_from_word " " "-n" _ eq_refl).
    cbn [append tokens_from Ascii.eqb Bool.eqb is_empty].
    rewrite (tokens_from_word " " (string_of_Z n) _
               (all_chars_strchr isdigit _ " " Hall eq_refl)).
    cbn [append tokens_from Ascii.eqb Bool.eqb]. rewrite Es.
    cbn [is_empty]. rewrite <- Es.
    change (tokens_from " " file "") with (strtok_all file " ").
    rewrite (strtok_all_single " " file
               (all_chars_strchr _ file " " Hns eq_refl) Hfile).
    reflexivity. }
  rewrite Htok. cbn [rev app].
  rewrite snprintf_fits; [reflexivity|].
  unfold rest in Hlen. rewrite !length_append in Hlen |- *.
  unfold dq. cbn [String.length] in Hlen |- *.
  rewrite !length_append. cbn [String.length].
  unfold MAPPED_SIZE, MAX_LINE in *. lia.
Qed.

End TailRule.

Lemma tail_n_rule_witness :
  Custard.map_command_traced "tail -n 5 log.txt" 0 1
  = Some ("powershell -Command " ++ dq ++ "Get-Content log.txt -Tail 5" ++ dq,
          true).
Proof.
  exact (tail_n_rule 5 "log.txt" ltac:(unfold INT_MAX; lia)
           ltac:(discriminate) eq_refl eq_refl
           ltac:(unfold MAX_LINE; cbn; lia)).
Defined.

(** * The three mapping tables side by side *)

Section Variants.

Ltac verb_cases H :=
  cbn [In] in H;
  repeat (destruct H as [H|H]; [rewrite <- H|]); [..|contradiction].

(** X26.  The two smaller variants agree with [custard.c] on the verbs they
    share, whatever the remainder: [cust.c] on [pwd], [mkdir], [cp], [mv],
    [cat], [clear] from Linux to Windows and on all six of its verbs from
    Windows to Linux; the third file on [pwd], [cat] and on [dir], [type],
    [del]. *)
Theorem variants_agree (input first rest : string) :
  split_first input = Some (first, rest) ->
  (In (lc_copy first) ["pwd"; "mkdir"; "cp"; "mv"; "cat"; "clear"] ->
   Cust.map_command input 0 1 = Custard.map_command input 0 1) /\
  (In (lc_copy first) ["dir"; "del"; "copy"; "move"; "type"; "cls"] ->
   Cust.map_command input 1 0 = Custard.map_command input 1 0) /\
  (In (lc_copy first) ["pwd"; "cat"] ->
   Gemini.map_command input 0 1 = Custard.map_command input 0 1) /\
  (In (lc_copy first) ["dir"; "type"; "del"] ->
   Gemini.map_command input 1 0 = Custard.map_command input 1 0).
Proof.
  intros Hs.
  assert (HL : Custard.map_command input 0 1
               = option_map fst
                   (Custard.linux_to_windows input (lc_copy first) rest)).
  { unfold Custard.map_command.
    now rewrite (map_command_linux_to_windows input first rest Hs). }
  pose proof (map_command_windows_to_linux input first rest Hs) as HW.
  rewrite HL, HW. unfold Cust.map_command, Gemini.map_command.
  rewrite Hs. cbn [Z.eqb andb negb].
  repeat split; intros Hv; verb_cases Hv; reflexivity.
Qed.

End Variants.

Lemma variants_agree_witness :
  Cust.map_command "cp a.txt b.txt" 0 1
  = Custard.map_command "cp a.txt b.txt" 0 1 /\
  Gemini.map_command "TYPE notes.txt" 1 0
  = Custard.map_command "TYPE notes.txt" 1 0.
Proof.
  split.
  - exact (proj1 (variants_agree "cp a.txt b.txt" "cp" "a.txt b.txt" eq_refl)
             (or_intror (or_intror (or_introl eq_refl)))).
  - exact (proj2 (proj2 (proj2 (variants_agree "TYPE notes.txt" "TYPE"
                                  "notes.txt" eq_refl)))
             (or_intror (or_introl eq_refl))).
Defined.
